(** * Journaling service of mental_health_care: entry store, query builder
      and statistics aggregator

    A shallow embedding of [src/services/journaling.py] together with the
    parts of [src/models/journal.py], [src/models/base.py] and
    [src/schemas/journaling.py] it depends on, of the handlers of
    [src/api/v1/journaling.py] with [validate_uuid] of [src/api/deps.py],
    of [PaginatedResponse.create] of [src/schemas/base.py] and of the
    scoring stub of [src/services/assessment.py].

    - The [journal_entries] table is a list of rows in storage (rowid)
      order; the primary key on [id] is the invariant [pk_unique].
    - Every service method takes the table and returns the new table next
      to its result.  An exception leaves the table as it was (the session
      is rolled back) and is returned as [Raise].
    - What the code reads from its environment is an argument: the fresh
      identifier produced by [uuid.uuid4], the clock reading of
      [func.now()] / [datetime.utcnow()], the current date.
    - SQL is read as the configured database, SQLite, reads it
      ([config.database_url]): LIKE folds ASCII letter case and reads text
      as UTF-8, ORDER BY is taken to keep equal keys in storage order, an
      integer parameter has 64 bits, a LIKE pattern at most 50000 bytes.
    - Strings are byte strings: the UTF-8 encoding of Python's [str]; a
      [str] with a lone surrogate has none, and the driver refuses it.
    - SQL [AVG] is the exact mean, a rational; where the code rounds it,
      the mean is first taken to the nearest double ([float_of]), as the
      database returns it.
    - [datetime.date] follows the arithmetic of Python's standard
      library. *)

From Stdlib Require Import ZArith List String Ascii Bool Lia QArith Qabs Qround.
From Stdlib Require Import Permutation Sorting.Sorted Lqa.
Import ListNotations.

Open Scope Z_scope.

(** ** Python's [datetime.date] *)

Module PyDate.

Record date := mkdate { year : Z; month : Z; day : Z }.

Definition _MAXORDINAL : Z := 3652059.

Definition _is_leap (y : Z) : bool :=
  (y mod 4 =? 0) && (negb (y mod 100 =? 0) || (y mod 400 =? 0)).

(** [_DAYS_IN_MONTH], indexed from 1. *)
Definition _DAYS_IN_MONTH (m : Z) : Z :=
  match m with
  | 1 => 31 | 2 => 28 | 3 => 31 | 4 => 30 | 5 => 31 | 6 => 30
  | 7 => 31 | 8 => 31 | 9 => 30 | 10 => 31 | 11 => 30 | 12 => 31
  | _ => -1
  end.

(** [_DAYS_BEFORE_MONTH], indexed from 1. *)
Definition _DAYS_BEFORE_MONTH (m : Z) : Z :=
  match m with
  | 1 => 0 | 2 => 31 | 3 => 59 | 4 => 90 | 5 => 120 | 6 => 151
  | 7 => 181 | 8 => 212 | 9 => 243 | 10 => 273 | 11 => 304 | 12 => 334
  | _ => -1
  end.

Definition _days_in_month (y m : Z) : Z :=
  if (m =? 2) && _is_leap y then 29 else _DAYS_IN_MONTH m.

Definition _days_before_year (y : Z) : Z :=
  let y := y - 1 in y * 365 + y / 4 - y / 100 + y / 400.

Definition _days_before_month (y m : Z) : Z :=
  _DAYS_BEFORE_MONTH m + (if (2 <? m) && _is_leap y then 1 else 0).

Definition _ymd2ord (y m d : Z) : Z :=
  _days_before_year y + _days_before_month y m + d.

Definition _DI400Y : Z := 146097.
Definition _DI100Y : Z := 36524.
Definition _DI4Y : Z := 1461.

Definition _ord2ymd (n : Z) : date :=
  let n := n - 1 in
  let n400 := n / _DI400Y in
  let n := n mod _DI400Y in
  let year := n400 * 400 + 1 in
  let n100 := n / _DI100Y in
  let n := n mod _DI100Y in
  let n4 := n / _DI4Y in
  let n := n mod _DI4Y in
  let n1 := n / 365 in
  let n := n mod 365 in
  let year := year + n100 * 100 + n4 * 4 + n1 in
  if (n1 =? 4) || (n100 =? 4) then mkdate (year - 1) 12 31
  else
    let leapyear := (n1 =? 3) && (negb (n4 =? 24) || (n100 =? 3)) in
    let month := Z.shiftr (n + 50) 5 in
    let preceding :=
      _DAYS_BEFORE_MONTH month + (if (2 <? month) && leapyear then 1 else 0) in
    if n <? preceding then
      let month := month - 1 in
      let preceding :=
        preceding
        - (_DAYS_IN_MONTH month + (if (month =? 2) && leapyear then 1 else 0)) in
      mkdate year month (n - preceding + 1)
    else mkdate year month (n - preceding + 1).

Definition toordinal (d : date) : Z := _ymd2ord (year d) (month d) (day d).
Definition fromordinal (n : Z) : date := _ord2ymd n.

(** What the constructor of [date] accepts. *)
Definition valid_date (d : date) : Prop :=
  1 <= year d <= 9999 /\ 1 <= month d <= 12
  /\ 1 <= day d <= _days_in_month (year d) (month d).

(** [date.replace(day=...)]; the new day is 1 at its only call site. *)
Definition replace_day (d : date) (new_day : Z) : date :=
  mkdate (year d) (month d) new_day.

(** Comparison of dates is comparison of the (year, month, day) triples. *)
Definition date_cmp (a b : date) : comparison :=
  match year a ?= year b with
  | Eq => match month a ?= month b with
          | Eq => day a ?= day b
          | c => c
          end
  | c => c
  end.

Definition date_eqb (a b : date) : bool :=
  match date_cmp a b with Eq => true | _ => false end.
Definition date_leb (a b : date) : bool :=
  match date_cmp a b with Gt => false | _ => true end.
Definition date_ltb (a b : date) : bool :=
  match date_cmp a b with Lt => true | _ => false end.
Definition date_geb (a b : date) : bool := date_leb b a.

Definition date_le (a b : date) : Prop := date_leb a b = true.
Definition date_lt (a b : date) : Prop := date_ltb a b = true.

(** [d - timedelta(days=n)]: [None] stands for the [OverflowError] raised
    when the result leaves the range of [date]. *)
Definition sub_days (d : date) (n : Z) : option date :=
  let o := toordinal d + - n in
  if (0 <? o) && (o <=? _MAXORDINAL) then Some (fromordinal o) else None.

(** [str(d)], the ISO format [YYYY-MM-DD]. *)
Definition digit (n : Z) : ascii := ascii_of_nat (48 + Z.to_nat (n mod 10)).

Definition isoformat (d : date) : string :=
  let y := year d in
  let m := month d in
  let dd := day d in
  String (digit (y / 1000)) (String (digit (y / 100)) (String (digit (y / 10))
    (String (digit y) (String "-"%char
    (String (digit (m / 10)) (String (digit m) (String "-"%char
    (String (digit (dd / 10)) (String (digit dd) EmptyString))))))))).

End PyDate.

Import PyDate.

(** ** The data model *)

(** A row of [journal_entries] ([models/journal.py], [models/base.py]).
    Timestamps are clock readings in microseconds. *)
Record JournalEntry := mkEntry {
  id : string;
  created_at : Z;
  updated_at : Z;
  user_id : string;
  title : string;
  content : string;
  entry_date : date;
  mood_rating : option Z;
  energy_level : option Z;
  tags : option string
}.

(** [schemas.JournalEntryCreate]: three required and three optional fields. *)
Record JournalEntryCreate := mkCreate {
  c_title : string;
  c_content : string;
  c_entry_date : date;
  c_mood_rating : option Z;
  c_energy_level : option Z;
  c_tags : option string
}.

(** [schemas.JournalEntryUpdate]: every field defaults to [None].  Pydantic
    records which fields the request supplied: the outer [option] is [None]
    for a field that was not supplied, and [Some v] for one that was, where
    [v] may itself be Python's [None]. *)
Record JournalEntryUpdate := mkUpdate {
  u_title : option (option string);
  u_content : option (option string);
  u_entry_date : option (option date);
  u_mood_rating : option (option Z);
  u_energy_level : option (option Z);
  u_tags : option (option string)
}.

Definition Store := list JournalEntry.

Inductive exn :=
  MultipleResultsFound | IntegrityError | OverflowError | TypeError
| OperationalError.

Inductive result (A : Type) : Type :=
| Ok (a : A)
| Raise (e : exn).
Arguments Ok {A} a.
Arguments Raise {A} e.

(** The primary key constraint on [id]. *)
Definition pk_unique (db : Store) : Prop := NoDup (map id db).

(** *** Field constraints of the request schemas *)

(** The value of a byte. *)
Definition byte (b : ascii) : Z := Z.of_nat (nat_of_ascii b).

(** The bytes 10xxxxxx, which continue a UTF-8 character. *)
Definition is_continuation (n : Z) : bool := (128 <=? n) && (n <? 192).

(** Python's [len] of a [str]: the number of its characters, which in
    UTF-8 is the number of bytes that do not continue one. *)
Fixpoint py_len (s : string) : nat :=
  match s with
  | EmptyString => 0%nat
  | String b s' =>
      if is_continuation (byte b) then py_len s' else S (py_len s')
  end.

Definition rating_ok (r : option Z) : bool :=
  match r with None => true | Some v => (1 <=? v) && (v <=? 10) end.

Definition tags_ok (t : option string) : bool :=
  match t with None => true | Some s => (py_len s <=? 500)%nat end.

Definition title_ok (s : string) : bool :=
  ((1 <=? py_len s) && (py_len s <=? 255))%nat.

Definition content_ok (s : string) : bool := (1 <=? py_len s)%nat.

Definition valid_create (c : JournalEntryCreate) : bool :=
  title_ok (c_title c) && content_ok (c_content c)
  && rating_ok (c_mood_rating c) && rating_ok (c_energy_level c)
  && tags_ok (c_tags c).

Definition opt_ok {A} (ok : A -> bool) (v : option (option A)) : bool :=
  match v with Some (Some a) => ok a | _ => true end.

Definition valid_update (u : JournalEntryUpdate) : bool :=
  opt_ok title_ok (u_title u) && opt_ok content_ok (u_content u)
  && rating_ok (match u_mood_rating u with Some v => v | None => None end)
  && rating_ok (match u_energy_level u with Some v => v | None => None end)
  && tags_ok (match u_tags u with Some v => v | None => None end).

(** Rows written through validated requests keep their ratings in 1..10. *)
Definition valid_entry (e : JournalEntry) : bool :=
  rating_ok (mood_rating e) && rating_ok (energy_level e).

Definition valid_store (db : Store) : Prop :=
  Forall (fun e => valid_entry e = true) db.

(** ** Entry store: create, get, update, delete *)

(** [Result.scalar_one_or_none()]. *)
Definition scalar_one_or_none {A} (rows : list A) : result (option A) :=
  match rows with
  | [] => Ok None
  | [r] => Ok (Some r)
  | _ => Raise MultipleResultsFound
  end.

(** [select(JournalEntry).where(and_(id == entry_id, user_id == user_id))]. *)
Definition get_entry (db : Store) (uid eid : string)
  : result (option JournalEntry) :=
  scalar_one_or_none
    (filter (fun e => String.eqb (id e) eid && String.eqb (user_id e) uid) db).

Definition id_in (db : Store) (eid : string) : bool :=
  existsb (fun e => String.eqb (id e) eid) db.

(** [create_entry]: the row is built from [user_id] and the dumped request,
    the column defaults fill [id] (a fresh uuid4, [new_id]) and both
    timestamps ([now]); the insert fails on a duplicate primary key. *)
Definition create_entry (db : Store) (new_id : string) (now : Z)
    (uid : string) (entry_data : JournalEntryCreate)
  : Store * result JournalEntry :=
  let db_entry :=
    {| id := new_id; created_at := now; updated_at := now;
       user_id := uid;
       title := c_title entry_data;
       content := c_content entry_data;
       entry_date := c_entry_date entry_data;
       mood_rating := c_mood_rating entry_data;
       energy_level := c_energy_level entry_data;
       tags := c_tags entry_data |} in
  if id_in db new_id then (db, Raise IntegrityError)
  else (db ++ [db_entry], Ok db_entry).

(** The loaded ORM object while it is being modified: [setattr] can put
    [None] into any attribute; the NOT NULL columns are checked when the
    session flushes. *)
Record OrmEntry := mkOrm {
  o_id : string;
  o_created_at : Z;
  o_updated_at : Z;
  o_user_id : string;
  o_title : option string;
  o_content : option string;
  o_entry_date : option date;
  o_mood_rating : option Z;
  o_energy_level : option Z;
  o_tags : option string
}.

Definition load (e : JournalEntry) : OrmEntry :=
  {| o_id := id e; o_created_at := created_at e; o_updated_at := updated_at e;
     o_user_id := user_id e;
     o_title := Some (title e); o_content := Some (content e);
     o_entry_date := Some (entry_date e);
     o_mood_rating := mood_rating e; o_energy_level := energy_level e;
     o_tags := tags e |}.

(** One item of the dictionary [model_dump(exclude_unset=True)]. *)
Inductive FieldValue :=
| F_title (v : option string)
| F_content (v : option string)
| F_entry_date (v : option date)
| F_mood_rating (v : option Z)
| F_energy_level (v : option Z)
| F_tags (v : option string).

Definition item {A} (mk : option A -> FieldValue) (v : option (option A))
  : list FieldValue :=
  match v with Some x => [mk x] | None => [] end.

(** [update_data.model_dump(exclude_unset=True)]: the supplied fields, in
    the order the schema declares them. *)
Definition model_dump_exclude_unset (u : JournalEntryUpdate)
  : list FieldValue :=
  item F_title (u_title u) ++ item F_content (u_content u)
  ++ item F_entry_date (u_entry_date u)
  ++ item F_mood_rating (u_mood_rating u)
  ++ item F_energy_level (u_energy_level u)
  ++ item F_tags (u_tags u).

Definition setattr (o : OrmEntry) (fv : FieldValue) : OrmEntry :=
  match fv with
  | F_title v =>
      mkOrm (o_id o) (o_created_at o) (o_updated_at o) (o_user_id o)
            v (o_content o) (o_entry_date o) (o_mood_rating o)
            (o_energy_level o) (o_tags o)
  | F_content v =>
      mkOrm (o_id o) (o_created_at o) (o_updated_at o) (o_user_id o)
            (o_title o) v (o_entry_date o) (o_mood_rating o)
            (o_energy_level o) (o_tags o)
  | F_entry_date v =>
      mkOrm (o_id o) (o_created_at o) (o_updated_at o) (o_user_id o)
            (o_title o) (o_content o) v (o_mood_rating o)
            (o_energy_level o) (o_tags o)
  | F_mood_rating v =>
      mkOrm (o_id o) (o_created_at o) (o_updated_at o) (o_user_id o)
            (o_title o) (o_content o) (o_entry_date o) v
            (o_energy_level o) (o_tags o)
  | F_energy_level v =>
      mkOrm (o_id o) (o_created_at o) (o_updated_at o) (o_user_id o)
            (o_title o) (o_content o) (o_entry_date o) (o_mood_rating o)
            v (o_tags o)
  | F_tags v =>
      mkOrm (o_id o) (o_created_at o) (o_updated_at o) (o_user_id o)
            (o_title o) (o_content o) (o_entry_date o) (o_mood_rating o)
            (o_energy_level o) v
  end.

Definition set_updated_at (o : OrmEntry) (now : Z) : OrmEntry :=
  mkOrm (o_id o) (o_created_at o) now (o_user_id o)
        (o_title o) (o_content o) (o_entry_date o) (o_mood_rating o)
        (o_energy_level o) (o_tags o).

(** The UPDATE emitted at commit: [title], [content] and [entry_date] are
    NOT NULL columns. *)
Definition flush (o : OrmEntry) : result JournalEntry :=
  match o_title o, o_content o, o_entry_date o with
  | Some t, Some c, Some d =>
      Ok (mkEntry (o_id o) (o_created_at o) (o_updated_at o) (o_user_id o)
                  t c d (o_mood_rating o) (o_energy_level o) (o_tags o))
  | _, _, _ => Raise IntegrityError
  end.

(** The table after [UPDATE ... WHERE id = id row]. *)
Definition write_row (db : Store) (row : JournalEntry) : Store :=
  map (fun r => if String.eqb (id r) (id row) then row else r) db.

Definition update_entry (db : Store) (now : Z) (uid eid : string)
    (update_data : JournalEntryUpdate)
  : Store * result (option JournalEntry) :=
  match get_entry db uid eid with
  | Raise e => (db, Raise e)
  | Ok None => (db, Ok None)
  | Ok (Some entry) =>
      let update_dict := model_dump_exclude_unset update_data in
      let obj := fold_left setattr update_dict (load entry) in
      let obj := set_updated_at obj now in
      match flush obj with
      | Raise e => (db, Raise e)
      | Ok row => (write_row db row, Ok (Some row))
      end
  end.

(** The table after [DELETE ... WHERE id = eid]. *)
Definition delete_row (db : Store) (eid : string) : Store :=
  filter (fun r => negb (String.eqb (id r) eid)) db.

Definition delete_entry (db : Store) (uid eid : string)
  : Store * result bool :=
  match get_entry db uid eid with
  | Raise e => (db, Raise e)
  | Ok None => (db, Ok false)
  | Ok (Some entry) => (delete_row db (id entry), Ok true)
  end.

(** ** Query builder *)

(** ORDER BY as the listing uses it: none yet, or [desc(entry_date)]. *)
Inductive Order := Unordered | ByEntryDateDesc.

(** A [select(JournalEntry)] statement under construction; the WHERE
    clauses accumulate as a conjunction. *)
Record Select := mkSelect {
  sel_where : list (JournalEntry -> bool);
  sel_order : Order;
  sel_offset : option Z;
  sel_limit : option Z
}.

Definition select_JournalEntry : Select := mkSelect [] Unordered None None.

Definition where_ (q : Select) (p : JournalEntry -> bool) : Select :=
  mkSelect (sel_where q ++ [p]) (sel_order q) (sel_offset q) (sel_limit q).
Definition order_by (q : Select) (o : Order) : Select :=
  mkSelect (sel_where q) o (sel_offset q) (sel_limit q).
Definition offset (q : Select) (n : Z) : Select :=
  mkSelect (sel_where q) (sel_order q) (Some n) (sel_limit q).
Definition limit (q : Select) (n : Z) : Select :=
  mkSelect (sel_where q) (sel_order q) (sel_offset q) (Some n).

(** ORDER BY keeps rows with equal keys in storage order: a stable
    insertion sort. *)
Fixpoint insert_by (before : date -> date -> bool) (e : JournalEntry)
    (l : list JournalEntry) : list JournalEntry :=
  match l with
  | [] => [e]
  | x :: r =>
      if before (entry_date x) (entry_date e) then x :: insert_by before e r
      else e :: l
  end.

Definition sort_by (before : date -> date -> bool) (l : list JournalEntry)
  : list JournalEntry :=
  fold_right (insert_by before) [] l.

Definition apply_order (o : Order) (rows : list JournalEntry)
  : list JournalEntry :=
  match o with
  | Unordered => rows
  | ByEntryDateDesc => sort_by (fun x e => date_ltb e x) rows
  end.

(** OFFSET and LIMIT as the configured database (SQLite) reads them: a
    negative OFFSET counts as 0, a negative LIMIT is no limit. *)
Definition apply_offset (n : option Z) (rows : list JournalEntry)
  : list JournalEntry :=
  match n with
  | None => rows
  | Some k => skipn (Z.to_nat k) rows
  end.

Definition apply_limit (n : option Z) (rows : list JournalEntry)
  : list JournalEntry :=
  match n with
  | None => rows
  | Some k => if k <? 0 then rows else firstn (Z.to_nat k) rows
  end.

Definition satisfies (ps : list (JournalEntry -> bool)) (e : JournalEntry)
  : bool :=
  forallb (fun p => p e) ps.

Definition execute (db : Store) (q : Select) : list JournalEntry :=
  apply_limit (sel_limit q)
    (apply_offset (sel_offset q)
       (apply_order (sel_order q) (filter (satisfies (sel_where q)) db))).

(** *** The LIKE operator *)

(** SQLite's string functions take their arguments as C strings: the text
    ends at its first NUL byte. *)
Fixpoint c_str (s : string) : string :=
  match s with
  | EmptyString => EmptyString
  | String b s' =>
      if Ascii.eqb b zero then EmptyString else String b (c_str s')
  end.

(** The payload bits of a lead byte, 192 or more (the table
    [sqlite3Utf8Trans1]). *)
Definition sqlite3Utf8Trans1 (n : Z) : Z :=
  if n <? 224 then Z.land n 31
  else if n <? 240 then Z.land n 15
  else if n <? 248 then Z.land n 7
  else if n <? 252 then Z.land n 3
  else if n <? 254 then Z.land n 1
  else 0.

(** What a character of two bytes or more is read as: overlong forms,
    surrogates, U+FFFE and U+FFFF all become U+FFFD. *)
Definition utf8_fold (c : Z) : Z :=
  if (c <? 128) || (Z.land c 4294965248 =? 55296)
     || (Z.land c 4294967294 =? 65534)
  then 65533 else c.

(** The characters of a text as LIKE reads them ([sqlite3Utf8Read]): a byte
    below 192 is a character; a byte from 192 on starts one that takes the
    continuation bytes after it, six bits each, in 32-bit arithmetic.
    [pending] is the character under way. *)
Fixpoint utf8_read (pending : option Z) (s : string) : list Z :=
  match s with
  | EmptyString =>
      match pending with Some c => [utf8_fold c] | None => [] end
  | String b s' =>
      let n := byte b in
      let start :=
        if n <? 192 then n :: utf8_read None s'
        else utf8_read (Some (sqlite3Utf8Trans1 n)) s' in
      match pending with
      | Some c =>
          if is_continuation n
          then utf8_read (Some ((Z.shiftl c 6 + Z.land n 63) mod 2 ^ 32)) s'
          else utf8_fold c :: start
      | None => start
      end
  end.

Definition characters (s : string) : list Z := utf8_read None (c_str s).

(** SQLite folds the ASCII letters, and only them, before it compares two
    characters. *)
Definition sqlite3Tolower (c : Z) : Z :=
  if (65 <=? c) && (c <=? 90) then c + 32 else c.

Definition chars_match (c d : Z) : bool :=
  (c =? d)
  || ((c <? 128) && (d <? 128) && (sqlite3Tolower c =? sqlite3Tolower d)).

(** [patternCompare] for LIKE: [%] (37) stands for any run of characters,
    [_] (95) for exactly one, every other character for itself up to
    letter case.  The statement the ORM emits has no ESCAPE clause. *)
Fixpoint patternCompare (pat s : list Z) : bool :=
  match pat with
  | [] => match s with [] => true | _ => false end
  | c :: pat' =>
      if c =? 37 then
        (fix any_run (s : list Z) : bool :=
           patternCompare pat' s
           || match s with
              | [] => false
              | _ :: s' => any_run s'
              end) s
      else
        match s with
        | [] => false
        | d :: s' =>
            if c =? 95 then patternCompare pat' s'
            else chars_match c d && patternCompare pat' s'
        end
  end.

(** [s LIKE pat]. *)
Definition like (pat s : string) : bool :=
  patternCompare (characters pat) (characters s).

(** The column is nullable: NULL LIKE anything is not true. *)
Definition column_like (col : option string) (pat : string) : bool :=
  match col with
  | None => false
  | Some s => like pat s
  end.

(** Python's truthiness of the optional arguments of [get_user_entries]:
    a [date] is always true, a string is true unless it is empty. *)
Definition truthy_date (d : option date) : option date := d.

Definition truthy_str (s : option string) : option string :=
  match s with
  | Some EmptyString => None
  | other => other
  end.

Definition user_is (uid : string) (e : JournalEntry) : bool :=
  String.eqb (user_id e) uid.

(** Lines 102-115 of [get_user_entries]: the statement before OFFSET and
    LIMIT are attached. *)
Definition entries_query (uid : string) (from_date to_date : option date)
    (tag_filter : option string) : Select :=
  let query := where_ select_JournalEntry (user_is uid) in
  let query :=
    match truthy_date from_date with
    | Some d => where_ query (fun e => date_geb (entry_date e) d)
    | None => query
    end in
  let query :=
    match truthy_date to_date with
    | Some d => where_ query (fun e => date_leb (entry_date e) d)
    | None => query
    end in
  let query :=
    match truthy_str tag_filter with
    | Some t =>
        where_ query (fun e => column_like (tags e) ("%" ++ t ++ "%")%string)
    | None => query
    end in
  order_by query ByEntryDateDesc.

(** The rows the statement of [get_user_entries] selects. *)
Definition entries_page (db : Store) (uid : string) (skip lim : Z)
    (from_date to_date : option date) (tag_filter : option string)
  : list JournalEntry :=
  let query := entries_query uid from_date to_date tag_filter in
  let query := limit (offset query skip) lim in
  execute db query.

(** *** What the database driver refuses *)

(** An integer parameter is bound as a 64-bit INTEGER; the driver raises
    [OverflowError] for a Python [int] outside that range. *)
Definition sqlite_int (n : Z) : bool := (- 2 ^ 63 <=? n) && (n <? 2 ^ 63).

(** SQLite's limit on the length of a LIKE pattern, in bytes. *)
Definition SQLITE_MAX_LIKE_PATTERN_LENGTH : Z := 50000.

(** The pattern [%tags%] that a tag filter gives is within that limit. *)
Definition like_pattern_fits (tag_filter : option string) : bool :=
  match truthy_str tag_filter with
  | Some t =>
      Z.of_nat (String.length ("%" ++ t ++ "%"))
      <=? SQLITE_MAX_LIKE_PATTERN_LENGTH
  | None => true
  end.

(** The date clauses of the listing, as one predicate on rows. *)
Definition in_range (from_date to_date : option date) (e : JournalEntry)
  : bool :=
  match from_date with Some d => date_leb d (entry_date e) | None => true end
  && match to_date with Some d => date_leb (entry_date e) d | None => true end.

(** The clauses of WHERE are tested in the order the statement has them:
    LIKE is evaluated on the rows that pass the user and date clauses. *)
Definition like_is_evaluated (db : Store) (uid : string)
    (from_date to_date : option date) : bool :=
  existsb (fun e => user_is uid e && in_range from_date to_date e) db.

(** [JournalingService.get_user_entries].  [session.execute] raises
    [OverflowError] while it binds [skip] or [limit] when one of them is
    no 64-bit integer, and [OperationalError] ("LIKE or GLOB pattern too
    complex") when a row reaches a LIKE whose pattern is over the limit. *)
Definition get_user_entries (db : Store) (uid : string) (skip lim : Z)
    (from_date to_date : option date) (tag_filter : option string)
  : result (list JournalEntry) :=
  let query := entries_query uid from_date to_date tag_filter in
  let query := limit (offset query skip) lim in
  if negb (sqlite_int skip && sqlite_int lim) then Raise OverflowError
  else if negb (like_pattern_fits tag_filter)
          && like_is_evaluated db uid from_date to_date
       then Raise OperationalError
  else Ok (execute db query).

(** ** Statistics aggregator *)

(** COUNT over a column that is never NULL. *)
Definition func_count (rows : list JournalEntry) : Z :=
  Z.of_nat (List.length rows).

(** AVG over a nullable integer column: the running total and the number of
    non-NULL values are accumulated, the result is NULL when that number
    is 0. *)
Definition avg_step (acc : Z * Z) (v : option Z) : Z * Z :=
  match v with
  | None => acc
  | Some x => (fst acc + x, snd acc + 1)
  end.

Definition func_avg (col : list (option Z)) : option Q :=
  let '(total, cnt) := fold_left avg_step col (0, 0) in
  if 0 <? cnt then Some (inject_Z total / inject_Z cnt)%Q else None.

Definition isnot_none {A} (v : option A) : bool :=
  match v with Some _ => true | None => false end.

(** GROUP BY entry_date ORDER BY entry_date: the distinct dates in
    ascending order, each with the rows that carry it. *)
Fixpoint insert_date (d : date) (l : list date) : list date :=
  match l with
  | [] => [d]
  | x :: r =>
      match date_cmp d x with
      | Lt => d :: l
      | Eq => l
      | Gt => x :: insert_date d r
      end
  end.

Definition group_keys (rows : list JournalEntry) : list date :=
  fold_right (fun e acc => insert_date (entry_date e) acc) [] rows.

Definition group_by_entry_date (rows : list JournalEntry)
  : list (date * list JournalEntry) :=
  map (fun d => (d, filter (fun e => date_eqb (entry_date e) d) rows))
      (group_keys rows).

(** The trend query: [(entry_date, avg(mood_rating))] per group. *)
Definition trend_query (db : Store) (uid : string) (thirty_days_ago : date)
  : list (date * option Q) :=
  map (fun g => (fst g, func_avg (map mood_rating (snd g))))
      (group_by_entry_date
         (filter (fun e => user_is uid e
                           && date_geb (entry_date e) thirty_days_ago
                           && isnot_none (mood_rating e)) db)).

Record TrendPoint := mkPoint { tp_date : string; tp_mood : Q }.

Record Stats := mkStats {
  total_entries : Z;
  entries_this_month : Z;
  average_mood_this_month : option Q;
  average_energy_this_month : option Q;
  most_used_tags : list string;
  mood_trend : list TrendPoint
}.

(** [round(x)] to the nearest integer, ties to the even one. *)
Definition round_half_even (q : Q) : Z :=
  let f := Qfloor q in
  match (q - inject_Z f ?= 1 # 2)%Q with
  | Lt => f
  | Gt => f + 1
  | Eq => if Z.even f then f else f + 1
  end.

(** [round(x, 2)] of a float [x]: the multiple of 1/100 nearest to the
    exact value of [x], ties to the even one. *)
Definition round2 (q : Q) : Q :=
  (inject_Z (round_half_even (q * 100)) / 100)%Q.

(** 2 to the power [e], for any integer [e]. *)
Definition pow2 (e : Z) : Q :=
  if 0 <=? e then inject_Z (2 ^ e) else (1 / inject_Z (2 ^ (- e)))%Q.

(** The integer [k] with [2^k <= q < 2^(k+1)], for a positive [q]. *)
Definition ilog2 (q : Q) : Z :=
  let k := Z.log2 (Qnum q) - Z.log2 (Zpos (Qden q)) in
  if Qle_bool (pow2 k) q then k else k - 1.

(** The double nearest to [q], ties to the even significand: 53
    significant bits.  This is what AVG returns for the mean [q] as long
    as the sum of the column is below 2^53 and so exact.  The exponent
    range is left out; an average of 64-bit integers is far inside it. *)
Definition float_of (q : Q) : Q :=
  match (q ?= 0)%Q with
  | Eq => 0%Q
  | Gt => let e := ilog2 q - 52 in
          (inject_Z (round_half_even (q / pow2 e)) * pow2 e)%Q
  | Lt => let e := ilog2 (- q) - 52 in
          (- (inject_Z (round_half_even (- q / pow2 e)) * pow2 e))%Q
  end.

(** [round(float(avg), 2) if avg else None]: [None] and 0 are false.  The
    database hands the average over as a double, and [round] rounds that
    double. *)
Definition rounded_or_none (avg : option Q) : option Q :=
  match avg with
  | None => None
  | Some q => if Qeq_bool q 0 then None else Some (round2 (float_of q))
  end.

(** The loop that builds [mood_trend]; [float(None)] would be a
    [TypeError], which the query's own NOT NULL filter rules out. *)
Fixpoint build_trend (rows : list (date * option Q))
  : option (list TrendPoint) :=
  match rows with
  | [] => Some []
  | (d, avg) :: rest =>
      match avg, build_trend rest with
      | Some q, Some acc => Some (mkPoint (isoformat d) q :: acc)
      | _, _ => None
      end
  end.

(** [n or 0] on an integer. *)
Definition or_0 (n : Z) : Z := if n =? 0 then 0 else n.

Definition month_query (db : Store) (uid : string) (month_start : date)
  : list JournalEntry :=
  filter (fun e => user_is uid e && date_geb (entry_date e) month_start) db.

Definition avg_query (field : JournalEntry -> option Z) (db : Store)
    (uid : string) (month_start : date) : option Q :=
  func_avg
    (map field
       (filter (fun e => user_is uid e
                         && date_geb (entry_date e) month_start
                         && isnot_none (field e)) db)).

Definition get_user_stats (db : Store) (uid : string) (current_date : date)
  : result Stats :=
  let month_start := replace_day current_date 1 in
  let total := func_count (filter (user_is uid) db) in
  let this_month := func_count (month_query db uid month_start) in
  let avg_mood := avg_query mood_rating db uid month_start in
  let avg_energy := avg_query energy_level db uid month_start in
  match sub_days current_date 30 with
  | None => Raise OverflowError
  | Some thirty_days_ago =>
      match build_trend (trend_query db uid thirty_days_ago) with
      | None => Raise TypeError
      | Some trend =>
          Ok {| total_entries := or_0 total;
                entries_this_month := or_0 this_month;
                average_mood_this_month := rounded_or_none avg_mood;
                average_energy_this_month := rounded_or_none avg_energy;
                most_used_tags := [];
                mood_trend := trend |}
      end
  end.

(** ** Notions the properties are stated with *)

(** The arithmetic mean of a non-empty list of integers. *)
Definition mean (vs : list Z) : Q :=
  (inject_Z (fold_right Z.add 0%Z vs) / inject_Z (Z.of_nat (List.length vs)))%Q.

(** The non-null values of a nullable column. *)
Fixpoint non_null (col : list (option Z)) : list Z :=
  match col with
  | [] => []
  | Some v :: r => v :: non_null r
  | None :: r => non_null r
  end.

(** Two bytes are equal up to the case of ASCII letters. *)
Definition to_lower (c : ascii) : ascii :=
  let n := nat_of_ascii c in
  if ((65 <=? n) && (n <=? 90))%nat then ascii_of_nat (n + 32) else c.

Definition char_eq_nocase (c d : ascii) : bool :=
  Ascii.eqb (to_lower c) (to_lower d).

Definition is_percent (c : ascii) : bool := Ascii.eqb c "%".
Definition is_underscore (c : ascii) : bool := Ascii.eqb c "_".

(** [sub] occurs in [s], compared byte by byte with [eqc]. *)
Fixpoint prefix_with (eqc : ascii -> ascii -> bool) (p s : string) : bool :=
  match p with
  | EmptyString => true
  | String c p' =>
      match s with
      | EmptyString => false
      | String d s' => eqc c d && prefix_with eqc p' s'
      end
  end.

Fixpoint substring_with (eqc : ascii -> ascii -> bool) (sub s : string)
  : bool :=
  prefix_with eqc sub s
  || match s with
     | EmptyString => false
     | String _ s' => substring_with eqc sub s'
     end.

Definition is_substring : string -> string -> bool :=
  substring_with Ascii.eqb.
Definition is_substring_nocase : string -> string -> bool :=
  substring_with char_eq_nocase.

Fixpoint wildcard_free (s : string) : bool :=
  match s with
  | EmptyString => true
  | String c s' => negb (is_percent c) && negb (is_underscore c)
                   && wildcard_free s'
  end.

(** Every byte is an ASCII character other than NUL. *)
Fixpoint ascii_text (s : string) : bool :=
  match s with
  | EmptyString => true
  | String c s' => (1 <=? byte c) && (byte c <? 128) && ascii_text s'
  end.

(** No byte is NUL. *)
Fixpoint nul_free (s : string) : bool :=
  match s with
  | EmptyString => true
  | String c s' => negb (Ascii.eqb c zero) && nul_free s'
  end.

(** The values of the bytes of a string. *)
Fixpoint bytes (s : string) : list Z :=
  match s with
  | EmptyString => []
  | String c s' => byte c :: bytes s'
  end.

(** [P] occurs in [S], compared character by character with [eqc]. *)
Fixpoint prefix_of (eqc : Z -> Z -> bool) (P S : list Z) : bool :=
  match P with
  | [] => true
  | c :: P' =>
      match S with
      | [] => false
      | d :: S' => eqc c d && prefix_of eqc P' S'
      end
  end.

Fixpoint occurs_in (eqc : Z -> Z -> bool) (P S : list Z) : bool :=
  prefix_of eqc P S
  || match S with
     | [] => false
     | _ :: S' => occurs_in eqc P S'
     end.

(** A character of a pattern that is no wildcard. *)
Definition literal (c : Z) : Prop := c <> 37 /\ c <> 95.

(** The 256 bytes. *)
Definition all_bytes : list ascii := map ascii_of_nat (seq 0 256).

Definition newest_first (a b : JournalEntry) : Prop :=
  date_le (entry_date b) (entry_date a).

(** The slice [S .. S+L) of a sequence. *)
Definition slice {A} (S L : Z) (l : list A) : list A :=
  firstn (Z.to_nat L) (skipn (Z.to_nat S) l).

(** The tag clause of the listing, as one predicate on rows. *)
Definition tag_clause (tag_filter : option string) (e : JournalEntry) : bool :=
  match truthy_str tag_filter with
  | Some t => column_like (tags e) ("%" ++ t ++ "%")%string
  | None => true
  end.

(** The row carries tags in which [t] occurs, letter case aside. *)
Definition has_tag_nocase (t : string) (e : JournalEntry) : bool :=
  match tags e with
  | Some s => is_substring_nocase t s
  | None => false
  end.

(** The row carries tags in which [t] occurs, character for character. *)
Definition has_tag (t : string) (e : JournalEntry) : bool :=
  match tags e with
  | Some s => is_substring t s
  | None => false
  end.

(** The same two, on the tags read up to their first NUL character. *)
Definition reads_tag_nocase (t : string) (e : JournalEntry) : bool :=
  match tags e with
  | Some s => is_substring_nocase t (c_str s)
  | None => false
  end.

Definition reads_tag (t : string) (e : JournalEntry) : bool :=
  match tags e with
  | Some s => is_substring t (c_str s)
  | None => false
  end.

(** The characters of [t] occur, one after the other, among the characters
    of the row's tags, both as the database reads them; up to the case of
    ASCII letters, and character for character. *)
Definition reads_chars_nocase (t : string) (e : JournalEntry) : bool :=
  match tags e with
  | Some s => occurs_in chars_match (characters t) (characters s)
  | None => false
  end.

Definition reads_chars (t : string) (e : JournalEntry) : bool :=
  match tags e with
  | Some s => occurs_in Z.eqb (characters t) (characters s)
  | None => false
  end.

(** The date lies within the bounds that are present, bounds included. *)
Definition within (from_date to_date : option date) (d : date) : Prop :=
  (forall D1, from_date = Some D1 -> date_le D1 d)
  /\ (forall D2, to_date = Some D2 -> date_le d D2).

(** The listing with nothing cut off by pagination: the rows selected when
    no row is skipped and the limit is the size of the table. *)
Definition list_all (db : Store) (uid : string)
    (from_date to_date : option date) (tag_filter : option string)
  : list JournalEntry :=
  entries_page db uid 0 (Z.of_nat (List.length db))
                   from_date to_date tag_filter.

(** The non-null mood ratings of the user's entries dated [d]. *)
Definition moods_on (db : Store) (uid : string) (d : date) : list Z :=
  non_null
    (map mood_rating
       (filter (fun e => user_is uid e && date_eqb (entry_date e) d) db)).

(** The non-null values of a field over the user's entries dated
    [month_start] or later. *)
Definition values_since (field : JournalEntry -> option Z) (db : Store)
    (uid : string) (month_start : date) : list Z :=
  non_null
    (map field
       (filter (fun e => user_is uid e
                         && date_leb month_start (entry_date e)) db)).

(** The first day of the calendar month that contains [d]. *)
Definition first_of_month (d : date) : date :=
  mkdate (year d) (month d) 1.

(** The point of the trend for date [d]. *)
Definition trend_point (db : Store) (uid : string) (d : date) : TrendPoint :=
  mkPoint (isoformat d) (mean (moods_on db uid d)).

(** The monthly average of the values [vs]: null when there are none,
    otherwise their mean, as a double, rounded to two decimals. *)
Definition expected_average (vs : list Z) : option Q :=
  match vs with
  | [] => None
  | _ :: _ => Some (round2 (float_of (mean vs)))
  end.

(** The rows behind the trend: the user's entries dated [since] or later
    that carry a mood rating. *)
Definition trend_rows (db : Store) (uid : string) (since : date)
  : list JournalEntry :=
  filter (fun e => user_is uid e && date_geb (entry_date e) since
                   && isnot_none (mood_rating e)) db.

Definition mood_only (m : option Z) : JournalEntryUpdate :=
  mkUpdate None None None (Some m) None None.

Definition no_fields : JournalEntryUpdate :=
  mkUpdate None None None None None None.

(** What a field of the entry is after an update that may or may not have
    supplied it. *)
Definition supplied_or {A} (supplied : option A) (prior : A) : A :=
  match supplied with Some v => v | None => prior end.

(** Small tables used to run the operations on concrete data. *)
Module Sample.

Local Open Scope string_scope.

Definition jan5 : JournalEntry :=
  mkEntry "e-1" 100 100 "alice" "Monday" "slept well" (mkdate 2024 1 5)
          (Some 8) None (Some "work,urgent").
Definition jan20 : JournalEntry :=
  mkEntry "e-2" 200 200 "alice" "Saturday" "long day" (mkdate 2024 1 20)
          (Some 4) (Some 3) (Some "homework").
Definition bobs : JournalEntry :=
  mkEntry "e-3" 300 300 "bob" "Notes" "nothing new" (mkdate 2024 1 20)
          None (Some 6) None.
Definition mar1 : JournalEntry :=
  mkEntry "e-4" 400 400 "alice" "Plans" "spring" (mkdate 2024 3 1)
          (Some 5) None (Some "garden").

Definition db3 : Store := [jan5; jan20; bobs].
Definition db4 : Store := [jan5; jan20; bobs; mar1].

Definition request : JournalEntryCreate :=
  mkCreate "Plans" "spring" (mkdate 2024 3 1) (Some 5) None (Some "garden").

(** Tags with a NUL character in them, and two tags that are the
    characters U+FFFF and U+FFFE in UTF-8. *)
Definition after_nul : JournalEntry :=
  mkEntry "e-5" 500 500 "alice" "Raw" "bytes" (mkdate 2024 1 7)
          None None (Some (String "a" (String zero "work"))).
Definition u_ffff : string :=
  String "239"%char (String "191"%char (String "191"%char EmptyString)).
Definition u_fffe : string :=
  String "239"%char (String "191"%char (String "190"%char EmptyString)).
Definition noncharacter : JournalEntry :=
  mkEntry "e-6" 600 600 "alice" "Raw" "bytes" (mkdate 2024 1 8)
          None None (Some u_ffff).

(** A tag filter of 49999 bytes: its LIKE pattern has 50001. *)
Definition long_filter : string :=
  string_of_list_ascii (repeat "a"%char (Z.to_nat 49999)).

End Sample.

(** ** HTTP boundary ([api/v1/journaling.py], [api/deps.py]) *)

(** What a handler's [except Exception as e] can catch: an exception of
    the service, or pydantic's [ValidationError] from [model_validate]. *)
Inductive Cause := ServiceError (e : exn) | ValidationError.

(** The [detail] of an [HTTPException]: a literal, or the f-string
    [f"<what>{str(e)}"] kept as its prefix and the exception. *)
Inductive Detail := Text (s : string) | Failed (what : string) (e : Cause).

Record HTTPException := mkHTTP { status_code : Z; detail : Detail }.

(** What a handler does: return a body under a status code, or raise. *)
Inductive http (A : Type) : Type :=
| Returns (status : Z) (body : A)
| Raises (e : HTTPException).
Arguments Returns {A} status body.
Arguments Raises {A} e.

(** [schemas.JournalEntryResponse]: the base fields, [id], both
    timestamps and [user_id]. *)
Record JournalEntryResponse := mkResponse {
  r_title : string;
  r_content : string;
  r_entry_date : date;
  r_mood_rating : option Z;
  r_energy_level : option Z;
  r_tags : option string;
  r_id : string;
  r_created_at : Z;
  r_updated_at : Z;
  r_user_id : string
}.

(** The field constraints of [JournalEntryBase], which the response schema
    inherits. *)
Definition response_ok (e : JournalEntry) : bool :=
  title_ok (title e) && content_ok (content e)
  && rating_ok (mood_rating e) && rating_ok (energy_level e)
  && tags_ok (tags e).

Definition response_of (e : JournalEntry) : JournalEntryResponse :=
  {| r_title := title e; r_content := content e;
     r_entry_date := entry_date e; r_mood_rating := mood_rating e;
     r_energy_level := energy_level e; r_tags := tags e;
     r_id := id e; r_created_at := created_at e;
     r_updated_at := updated_at e; r_user_id := user_id e |}.

(** [JournalEntryResponse.model_validate(entry)]; [None] stands for the
    [ValidationError]. *)
Definition model_validate (e : JournalEntry) : option JournalEntryResponse :=
  if response_ok e then Some (response_of e) else None.

(** [[JournalEntryResponse.model_validate(entry) for entry in entries]]. *)
Fixpoint model_validate_all (entries : list JournalEntry)
  : option (list JournalEntryResponse) :=
  match entries with
  | [] => Some []
  | e :: rest =>
      match model_validate e, model_validate_all rest with
      | Some r, Some rs => Some (r :: rs)
      | _, _ => None
      end
  end.

(** Every row passes the response schema. *)
Definition schema_ok_store (db : Store) : Prop :=
  Forall (fun e => response_ok e = true) db.

Definition HTTP_200_OK : Z := 200.
Definition HTTP_201_CREATED : Z := 201.
Definition HTTP_204_NO_CONTENT : Z := 204.
Definition HTTP_400_BAD_REQUEST : Z := 400.
Definition HTTP_404_NOT_FOUND : Z := 404.
Definition HTTP_500_INTERNAL_SERVER_ERROR : Z := 500.

Definition not_found : HTTPException :=
  mkHTTP HTTP_404_NOT_FOUND (Text "Journal entry not found").

Definition server_error (what : string) (e : Cause) : HTTPException :=
  mkHTTP HTTP_500_INTERNAL_SERVER_ERROR (Failed what e).

Section Routes.

(** [uuid.UUID(s)] of the standard library does not raise [ValueError]. *)
Variable uuid_parses : string -> bool.

(** [deps.validate_uuid]. *)
Definition validate_uuid (uuid_str : string) : http string :=
  if uuid_parses uuid_str then Returns HTTP_200_OK uuid_str
  else Raises (mkHTTP HTTP_400_BAD_REQUEST (Text "Invalid UUID format")).

(** POST /journal/entries. *)
Definition create_journal_entry (db : Store) (new_id : string) (now : Z)
    (entry_data : JournalEntryCreate) (current_user_id : string)
  : Store * http JournalEntryResponse :=
  let what := "Failed to create journal entry: "%string in
  match create_entry db new_id now current_user_id entry_data with
  | (db', Raise e) => (db', Raises (server_error what (ServiceError e)))
  | (db', Ok entry) =>
      match model_validate entry with
      | None => (db', Raises (server_error what ValidationError))
      | Some r => (db', Returns HTTP_201_CREATED r)
      end
  end.

(** GET /journal/entries. *)
Definition get_journal_entries (db : Store) (skip lim : Z)
    (from_date to_date : option date) (tag_filter : option string)
    (current_user_id : string) : http (list JournalEntryResponse) :=
  let what := "Failed to retrieve journal entries: "%string in
  match get_user_entries db current_user_id skip lim from_date to_date
                         tag_filter with
  | Raise e => Raises (server_error what (ServiceError e))
  | Ok entries =>
      match model_validate_all entries with
      | None => Raises (server_error what ValidationError)
      | Some rs => Returns HTTP_200_OK rs
      end
  end.

(** GET /journal/entries/{entry_id}. *)
Definition get_journal_entry (db : Store) (entry_id : string)
    (current_user_id : string) : http JournalEntryResponse :=
  let what := "Failed to retrieve journal entry: "%string in
  match validate_uuid entry_id with
  | Raises err => Raises err
  | Returns _ entry_uuid =>
      match get_entry db current_user_id entry_uuid with
      | Raise e => Raises (server_error what (ServiceError e))
      | Ok None => Raises not_found
      | Ok (Some entry) =>
          match model_validate entry with
          | None => Raises (server_error what ValidationError)
          | Some r => Returns HTTP_200_OK r
          end
      end
  end.

(** PUT /journal/entries/{entry_id}. *)
Definition update_journal_entry (db : Store) (now : Z) (entry_id : string)
    (update_data : JournalEntryUpdate) (current_user_id : string)
  : Store * http JournalEntryResponse :=
  let what := "Failed to update journal entry: "%string in
  match validate_uuid entry_id with
  | Raises err => (db, Raises err)
  | Returns _ entry_uuid =>
      match update_entry db now current_user_id entry_uuid update_data with
      | (db', Raise e) => (db', Raises (server_error what (ServiceError e)))
      | (db', Ok None) => (db', Raises not_found)
      | (db', Ok (Some updated_entry)) =>
          match model_validate updated_entry with
          | None => (db', Raises (server_error what ValidationError))
          | Some r => (db', Returns HTTP_200_OK r)
          end
      end
  end.

(** DELETE /journal/entries/{entry_id}; the body of the 204 is empty. *)
Definition delete_journal_entry (db : Store) (entry_id : string)
    (current_user_id : string) : Store * http unit :=
  let what := "Failed to delete journal entry: "%string in
  match validate_uuid entry_id with
  | Raises err => (db, Raises err)
  | Returns _ entry_uuid =>
      match delete_entry db current_user_id entry_uuid with
      | (db', Raise e) => (db', Raises (server_error what (ServiceError e)))
      | (db', Ok false) => (db', Raises not_found)
      | (db', Ok true) => (db', Returns HTTP_204_NO_CONTENT tt)
      end
  end.

(** GET /journal/stats; the dictionary of the service always fits
    [JournalStatsResponse]. *)
Definition get_journal_stats (db : Store) (current_date : date)
    (current_user_id : string) : http Stats :=
  let what := "Failed to retrieve journal statistics: "%string in
  match get_user_stats db current_user_id current_date with
  | Raise e => Raises (server_error what (ServiceError e))
  | Ok stats => Returns HTTP_200_OK stats
  end.

End Routes.

(** ** Pagination envelope ([schemas/base.py]) *)

Record PaginatedResponse (A : Type) := mkPaginated {
  pr_items : list A;
  pr_total : Z;
  pr_skip : Z;
  pr_limit : Z;
  pr_has_next : bool
}.
Arguments mkPaginated {A} _ _ _ _ _.
Arguments pr_items {A} _.
Arguments pr_total {A} _.
Arguments pr_skip {A} _.
Arguments pr_limit {A} _.
Arguments pr_has_next {A} _.

(** [PaginatedResponse.create]. *)
Definition PaginatedResponse_create {A} (items : list A)
    (total skip lim : Z) : PaginatedResponse A :=
  mkPaginated items total skip lim (skip + lim <? total).

(** ** Assessment stub ([services/assessment.py]) *)

Record AssessmentOutcome := mkOutcome {
  total_score : Z;
  severity_level : string;
  recommendations : list string
}.

(** Python's [sum] over a list of integers. *)
Definition py_sum (xs : list Z) : Z := fold_left Z.add xs 0.

(** [AssessmentService.submit_assessment]. *)
Definition submit_assessment (user_id0 assessment_type : string)
    (responses : list Z) : AssessmentOutcome :=
  {| total_score := py_sum responses;
     severity_level := "mild";
     recommendations :=
       ["Consider speaking with a mental health professional"%string] |}.

(** The bounds [schemas.AssessmentResponse] puts on one answer. *)
Definition response_value_ok (v : Z) : bool := (0 <=? v) && (v <=? 3).

(** ** Further notions *)

(** The user's rows, in storage order. *)
Definition entries_of (db : Store) (uid : string) : list JournalEntry :=
  filter (user_is uid) db.

(** A request supplies Python's [None] for a NOT NULL column. *)
Definition nulls_required (u : JournalEntryUpdate) : bool :=
  match u_title u, u_content u, u_entry_date u with
  | Some None, _, _ => true
  | _, Some None, _ => true
  | _, _, Some None => true
  | _, _, _ => false
  end.

(** A rational lies on the rating scale. *)
Definition on_scale (q : Q) : Prop := (1 <= q /\ q <= 10)%Q.

(** A small table with identifiers in UUID form, used to run the
    handlers; [looks_like_uuid] stands in for the library's parser
    there. *)
Module SampleHTTP.

Local Open Scope string_scope.

Definition looks_like_uuid (s : string) : bool :=
  (String.length s =? 36)%nat.

Definition id_own : string := "0b4f6c1e-8d2a-4f3b-9c7e-5a1d2e3f4a5b".
Definition id_foreign : string := "7e1c9a52-3b6d-4e8f-a1c4-9d0b2f6e8a13".
Definition id_new : string := "c2d7e4f0-5a19-4b6c-8e3d-1f0a9b8c7d6e".

Definition own : JournalEntry :=
  mkEntry id_own 100 100 "alice" "Monday" "slept well" (mkdate 2024 1 5)
          (Some 8) None (Some "work,urgent").
Definition foreign : JournalEntry :=
  mkEntry id_foreign 300 300 "bob" "Notes" "nothing new" (mkdate 2024 1 20)
          None (Some 6) None.

Definition table : Store := [own; foreign].

End SampleHTTP.

(** * Properties *)

(** ** Entry store *)

Section EntryStore.

Implicit Types (db : Store) (r row : JournalEntry) (uid eid : string).

Lemma filter_none {A} (p : A -> bool) (l : list A) :
  (forall x, In x l -> p x = false) -> filter p l = [].
Proof.
  induction l as [|a l IH]; intros H; simpl; [reflexivity|].
  rewrite (H a (or_introl eq_refl)). apply IH.
  intros x Hx. apply H. now right.
Qed.

Lemma filter_by_key db row :
  pk_unique db -> In row db ->
  filter (fun e => String.eqb (id e) (id row)) db = [row].
Proof.
  unfold pk_unique. induction db as [|a db IH]; simpl; intros Hnd Hin.
  - contradiction.
  - inversion Hnd as [|? ? Hnotin Hnd']; subst.
    destruct Hin as [-> | Hin].
    + rewrite String.eqb_refl. f_equal.
      apply filter_none. intros x Hx.
      apply String.eqb_neq. intros Heq. apply Hnotin.
      rewrite <- Heq. now apply in_map.
    + destruct (String.eqb (id a) (id row)) eqn:E.
      * apply String.eqb_eq in E. exfalso. apply Hnotin.
        rewrite E. now apply in_map.
      * now apply IH.
Qed.

Lemma filter_conj {A} (p q : A -> bool) (l : list A) :
  filter (fun x => p x && q x) l = filter q (filter p l).
Proof.
  induction l as [|a l IH]; simpl; [reflexivity|].
  destruct (p a); simpl; [destruct (q a)|]; now rewrite IH.
Qed.

Lemma get_entry_found db row :
  pk_unique db -> In row db ->
  get_entry db (user_id row) (id row) = Ok (Some row).
Proof.
  intros Hpk Hin. unfold get_entry.
  rewrite (filter_conj (fun e => String.eqb (id e) (id row))).
  rewrite filter_by_key by assumption.
  simpl. now rewrite String.eqb_refl.
Qed.

Lemma get_entry_absent db uid eid :
  (forall r, In r db -> id r = eid -> user_id r <> uid) ->
  get_entry db uid eid = Ok None.
Proof.
  intros H. unfold get_entry. rewrite filter_none; [reflexivity|].
  intros x Hx. destruct (String.eqb (id x) eid) eqn:E; [|reflexivity].
  apply String.eqb_eq in E. simpl. apply String.eqb_neq. now apply H.
Qed.

Lemma get_entry_other_owner db row uid :
  pk_unique db -> In row db -> user_id row <> uid ->
  get_entry db uid (id row) = Ok None.
Proof.
  intros Hpk Hin Hne. unfold get_entry.
  rewrite (filter_conj (fun e => String.eqb (id e) (id row))).
  rewrite filter_by_key by assumption. simpl.
  apply String.eqb_neq in Hne. now rewrite Hne.
Qed.

Lemma scalar_one_inv {A} (l : list A) (x : A) :
  scalar_one_or_none l = Ok (Some x) -> l = [x].
Proof.
  destruct l as [|a [|b l]]; simpl; intros H; try discriminate.
  now inversion H.
Qed.

Lemma get_entry_Some db uid eid row :
  get_entry db uid eid = Ok (Some row) ->
  In row db /\ id row = eid /\ user_id row = uid.
Proof.
  unfold get_entry. intros H. apply scalar_one_inv in H.
  assert (Hin : In row
    (filter (fun e => String.eqb (id e) eid && String.eqb (user_id e) uid) db))
    by (rewrite H; now left).
  apply filter_In in Hin. destruct Hin as [Hin Hb].
  apply andb_true_iff in Hb. destruct Hb as [H1 H2].
  apply String.eqb_eq in H1, H2. auto.
Qed.

Lemma delete_row_In db eid r :
  In r (delete_row db eid) <-> In r db /\ id r <> eid.
Proof.
  unfold delete_row. rewrite filter_In, negb_true_iff. 
  now rewrite String.eqb_neq.
Qed.

Lemma id_in_false db eid :
  id_in db eid = false -> forall r, In r db -> id r <> eid.
Proof.
  unfold id_in. intros H r Hin Heq.
  assert (existsb (fun e => String.eqb (id e) eid) db = true).
  { apply existsb_exists. exists r. split; [assumption|].
    now apply String.eqb_eq. }
  congruence.
Qed.

Lemma pk_unique_app db row :
  pk_unique db -> (forall r, In r db -> id r <> id row) ->
  pk_unique (db ++ [row]).
Proof.
  unfold pk_unique. intros Hnd Hfresh. rewrite map_app. simpl.
  apply NoDup_app; [assumption | repeat constructor; intros [] | ].
  intros x Hx [<- | []]. apply in_map_iff in Hx.
  destruct Hx as [r [Hr Hin]]. now apply (Hfresh r).
Qed.

Lemma write_row_ids db row : map id (write_row db row) = map id db.
Proof.
  unfold write_row. rewrite map_map. apply map_ext_in.
  intros a _. destruct (String.eqb (id a) (id row)) eqn:E; [|reflexivity].
  apply String.eqb_eq in E. now symmetry.
Qed.

Lemma write_row_In db row prior :
  In prior db -> id prior = id row -> In row (write_row db row).
Proof.
  intros Hin Hid. unfold write_row. apply in_map_iff.
  exists prior. split; [|assumption].
  apply String.eqb_eq in Hid. now rewrite Hid.
Qed.

(** The object after the [setattr] loop, field by field. *)
Lemma setattr_loop (u : JournalEntryUpdate) (o : OrmEntry) :
  fold_left setattr (model_dump_exclude_unset u) o =
  mkOrm (o_id o) (o_created_at o) (o_updated_at o) (o_user_id o)
        (supplied_or (u_title u) (o_title o))
        (supplied_or (u_content u) (o_content o))
        (supplied_or (u_entry_date u) (o_entry_date o))
        (supplied_or (u_mood_rating u) (o_mood_rating o))
        (supplied_or (u_energy_level u) (o_energy_level o))
        (supplied_or (u_tags u) (o_tags o)).
Proof.
  destruct o, u as [[?|] [?|] [?|] [?|] [?|] [?|]]; reflexivity.
Qed.

(** When [update_entry] hands back an entry, that entry is the prior one
    with the supplied fields replaced and [updated_at] set to the clock. *)
Lemma update_entry_Some db now uid eid upd prior db' e' :
  get_entry db uid eid = Ok (Some prior) ->
  update_entry db now uid eid upd = (db', Ok (Some e')) ->
  db' = write_row db e'
  /\ id e' = id prior /\ user_id e' = user_id prior
  /\ created_at e' = created_at prior /\ updated_at e' = now
  /\ Some (title e') = supplied_or (u_title upd) (Some (title prior))
  /\ Some (content e') = supplied_or (u_content upd) (Some (content prior))
  /\ Some (entry_date e')
     = supplied_or (u_entry_date upd) (Some (entry_date prior))
  /\ mood_rating e' = supplied_or (u_mood_rating upd) (mood_rating prior)
  /\ energy_level e' = supplied_or (u_energy_level upd) (energy_level prior)
  /\ tags e' = supplied_or (u_tags upd) (tags prior).
Proof.
  intros Hget. unfold update_entry. rewrite Hget, setattr_loop.
  unfold flush, set_updated_at, load; simpl.
  destruct (supplied_or (u_title upd) (Some (title prior))) eqn:Et;
    [|intros H; discriminate].
  destruct (supplied_or (u_content upd) (Some (content prior))) eqn:Ec;
    [|intros H; discriminate].
  destruct (supplied_or (u_entry_date upd) (Some (entry_date prior))) eqn:Ed;
    [|intros H; discriminate].
  intros H. inversion H; subst; simpl. repeat split; reflexivity.
Qed.

(** An update that leaves the three NOT NULL columns alone, or gives them
    a value, goes through. *)
Lemma update_entry_succeeds db now uid eid upd prior :
  get_entry db uid eid = Ok (Some prior) ->
  u_title upd <> Some None -> u_content upd <> Some None ->
  u_entry_date upd <> Some None ->
  exists e', update_entry db now uid eid upd = (write_row db e', Ok (Some e')).
Proof.
  intros Hget Ht Hc Hd. unfold update_entry.
  rewrite Hget, setattr_loop. unfold flush, set_updated_at, load; simpl.
  destruct (u_title upd) as [[t|]|]; try congruence;
  destruct (u_content upd) as [[c|]|]; try congruence;
  destruct (u_entry_date upd) as [[d|]|]; try congruence;
  simpl; eexists; reflexivity.
Qed.

(** The primary key survives every operation of the store. *)
Lemma create_entry_pk db new_id now uid data :
  pk_unique db -> pk_unique (fst (create_entry db new_id now uid data)).
Proof.
  intros Hpk. unfold create_entry.
  destruct (id_in db new_id) eqn:E; simpl; [assumption|].
  apply pk_unique_app; [assumption|]. simpl. now apply id_in_false.
Qed.

Lemma update_entry_pk db now uid eid upd :
  pk_unique db -> pk_unique (fst (update_entry db now uid eid upd)).
Proof.
  intros Hpk. unfold update_entry.
  destruct (get_entry db uid eid) as [[entry|]|]; simpl; try assumption.
  destruct (flush _); simpl; [|assumption].
  unfold pk_unique. now rewrite write_row_ids.
Qed.

Lemma delete_row_pk db eid : pk_unique db -> pk_unique (delete_row db eid).
Proof.
  unfold pk_unique, delete_row. induction db as [|a db IH]; simpl; intros H.
  - constructor.
  - inversion H as [|? ? Hnotin Hnd]; subst.
    destruct (negb (String.eqb (id a) eid)); simpl; [|now apply IH].
    constructor; [|now apply IH].
    intros Hin. apply Hnotin. apply in_map_iff in Hin.
    destruct Hin as [r [Hr Hin]]. apply filter_In in Hin.
    rewrite <- Hr. apply in_map. tauto.
Qed.

Lemma delete_entry_pk db uid eid :
  pk_unique db -> pk_unique (fst (delete_entry db uid eid)).
Proof.
  intros Hpk. unfold delete_entry.
  destruct (get_entry db uid eid) as [[entry|]|]; simpl; try assumption.
  now apply delete_row_pk.
Qed.

End EntryStore.

Lemma sample_db3_pk : pk_unique Sample.db3.
Proof.
  unfold pk_unique; simpl.
  repeat constructor; simpl; intuition discriminate.
Qed.

Lemma sample_db3_no_e9 :
  forall r, In r Sample.db3 -> id r <> "e-9"%string.
Proof.
  intros r [<- | [<- | [<- | []]]]; discriminate.
Qed.

(** C1.  An entry id that exists but belongs to another user is treated
    exactly as an id that does not exist: [get_entry] and [update_entry]
    return [None], [delete_entry] returns [False], and the table is left as
    it was in both cases. *)
Theorem wrong_owner_same_as_missing
    (db : Store) (now : Z) (uid : string) (upd : JournalEntryUpdate)
    (row : JournalEntry) (missing : string) :
  pk_unique db ->
  In row db -> user_id row <> uid ->
  (forall r, In r db -> id r <> missing) ->
  get_entry db uid (id row) = Ok None
  /\ get_entry db uid missing = Ok None
  /\ update_entry db now uid (id row) upd = (db, Ok None)
  /\ update_entry db now uid missing upd = (db, Ok None)
  /\ delete_entry db uid (id row) = (db, Ok false)
  /\ delete_entry db uid missing = (db, Ok false).
Proof.
  intros Hpk Hin Hother Hmiss.
  assert (G1 : get_entry db uid (id row) = Ok None)
    by now apply get_entry_other_owner.
  assert (G2 : get_entry db uid missing = Ok None).
  { apply get_entry_absent. intros r Hr Heq. now apply Hmiss in Hr. }
  unfold update_entry, delete_entry. rewrite G1, G2. repeat split.
Qed.

Lemma wrong_owner_same_as_missing_witness :
  pk_unique Sample.db3
  /\ In Sample.bobs Sample.db3
  /\ user_id Sample.bobs <> "alice"%string
  /\ (forall r, In r Sample.db3 -> id r <> "e-9"%string)
  /\ get_entry Sample.db3 "alice" "e-3" = Ok None
  /\ get_entry Sample.db3 "alice" "e-9" = Ok None
  /\ update_entry Sample.db3 500 "alice" "e-3" (mood_only (Some 1))
     = (Sample.db3, Ok None)
  /\ update_entry Sample.db3 500 "alice" "e-9" (mood_only (Some 1))
     = (Sample.db3, Ok None)
  /\ delete_entry Sample.db3 "alice" "e-3" = (Sample.db3, Ok false)
  /\ delete_entry Sample.db3 "alice" "e-9" = (Sample.db3, Ok false).
Proof.
  split; [exact sample_db3_pk|].
  split; [simpl; tauto|].
  split; [discriminate|].
  split; [exact sample_db3_no_e9|].
  apply (wrong_owner_same_as_missing Sample.db3 500 "alice"
           (mood_only (Some 1)) Sample.bobs "e-9").
  - exact sample_db3_pk.
  - simpl; tauto.
  - discriminate.
  - exact sample_db3_no_e9.
Defined.

(** C8.  A create whose fresh identifier is not yet in the table succeeds;
    the entry it returns belongs to the creating user and carries the
    request's fields, and [get_entry] with that user and the returned id on
    the resulting table returns the very same entry. *)
Theorem create_then_get
    (db : Store) (new_id : string) (now : Z) (uid : string)
    (data : JournalEntryCreate) :
  pk_unique db ->
  id_in db new_id = false ->
  exists db' e,
    create_entry db new_id now uid data = (db', Ok e)
    /\ user_id e = uid
    /\ get_entry db' uid (id e) = Ok (Some e)
    /\ title e = c_title data /\ content e = c_content data
    /\ entry_date e = c_entry_date data
    /\ mood_rating e = c_mood_rating data
    /\ energy_level e = c_energy_level data
    /\ tags e = c_tags data.
Proof.
  intros Hpk Hfresh. unfold create_entry. rewrite Hfresh.
  eexists; eexists. split; [reflexivity|].
  split; [reflexivity|]. split; [|repeat split].
  match goal with |- get_entry (db ++ [?e]) _ _ = _ =>
    change uid with (user_id e); apply get_entry_found
  end.
  - apply pk_unique_app; [assumption|]. simpl. now apply id_in_false.
  - apply in_or_app. right. now left.
Qed.

Lemma create_then_get_witness :
  pk_unique Sample.db3
  /\ id_in Sample.db3 "e-4" = false
  /\ exists db' e,
       create_entry Sample.db3 "e-4" 400 "alice" Sample.request = (db', Ok e)
       /\ user_id e = "alice"%string
       /\ get_entry db' "alice" (id e) = Ok (Some e)
       /\ title e = c_title Sample.request
       /\ content e = c_content Sample.request
       /\ entry_date e = c_entry_date Sample.request
       /\ mood_rating e = c_mood_rating Sample.request
       /\ energy_level e = c_energy_level Sample.request
       /\ tags e = c_tags Sample.request.
Proof.
  split; [exact sample_db3_pk|].
  split; [reflexivity|].
  apply (create_then_get Sample.db3 "e-4" 400 "alice" Sample.request).
  - exact sample_db3_pk.
  - reflexivity.
Defined.

(** C9.  [delete_entry] returns [False], without raising and without
    touching the table, when no entry with the id is owned by the user
    (no such id, or another owner).  When it returns [True] the table has
    lost every row with that id and nothing else, so a [get_entry] that
    follows returns [None].  An entry the user owns is deleted. *)
Theorem delete_entry_spec (db : Store) (uid eid : string) :
  ((forall r, In r db -> id r = eid -> user_id r <> uid) ->
   delete_entry db uid eid = (db, Ok false))
  /\ (forall db',
        delete_entry db uid eid = (db', Ok true) ->
        (forall r, In r db' <-> In r db /\ id r <> eid)
        /\ get_entry db' uid eid = Ok None)
  /\ (forall row,
        pk_unique db -> In row db -> id row = eid -> user_id row = uid ->
        delete_entry db uid eid = (delete_row db eid, Ok true)).
Proof.
  split; [|split].
  - intros H. unfold delete_entry. now rewrite get_entry_absent.
  - intros db'. unfold delete_entry.
    destruct (get_entry db uid eid) as [[entry|]|] eqn:G;
      intros H; inversion H; subst.
    apply get_entry_Some in G. destruct G as (_ & Hid & _).
    rewrite Hid. split.
    + intros r. apply delete_row_In.
    + apply get_entry_absent. intros r Hr Heq.
      apply delete_row_In in Hr. tauto.
  - intros row Hpk Hin <- <-. unfold delete_entry.
    now rewrite get_entry_found.
Qed.

Lemma delete_entry_spec_witness :
  delete_entry Sample.db3 "alice" "e-3" = (Sample.db3, Ok false)
  /\ delete_entry Sample.db3 "alice" "e-1"
     = (delete_row Sample.db3 "e-1", Ok true)
  /\ get_entry (delete_row Sample.db3 "e-1") "alice" "e-1" = Ok None.
Proof.
  destruct (delete_entry_spec Sample.db3 "alice" "e-3") as [Hfalse _].
  destruct (delete_entry_spec Sample.db3 "alice" "e-1") as (_ & Hgone & Htrue).
  assert (Hdel : delete_entry Sample.db3 "alice" "e-1"
                 = (delete_row Sample.db3 "e-1", Ok true)).
  { apply (Htrue Sample.jan5).
    - exact sample_db3_pk.
    - simpl; tauto.
    - reflexivity.
    - reflexivity. }
  split; [|split].
  - apply Hfalse. intros r [<- | [<- | [<- | []]]]; discriminate.
  - exact Hdel.
  - exact (proj2 (Hgone _ Hdel)).
Defined.

(** Writing a row leaves the lookup of every other identifier as it was. *)
Lemma get_entry_write_row_other (db : Store) (row : JournalEntry)
    (uid eid : string) :
  id row <> eid -> get_entry (write_row db row) uid eid = get_entry db uid eid.
Proof.
  intros Hne. unfold get_entry, write_row. f_equal.
  induction db as [|a db IH]; simpl; [reflexivity|].
  rewrite IH. destruct (String.eqb (id a) (id row)) eqn:E; [|reflexivity].
  apply String.eqb_eq in E. apply String.eqb_neq in Hne.
  now rewrite E, Hne.
Qed.

Lemma get_after_write (db : Store) (prior e' : JournalEntry) :
  pk_unique db -> In prior db -> id e' = id prior ->
  get_entry (write_row db e') (user_id e') (id e') = Ok (Some e').
Proof.
  intros Hpk Hin Hid. apply get_entry_found.
  - unfold pk_unique. now rewrite write_row_ids.
  - now apply write_row_In with prior.
Qed.

(** C3.  For an entry the user owns, an update that supplies only
    [mood_rating] succeeds and changes that field alone: title, content,
    entry date, energy level and tags keep their prior values, and
    [updated_at] becomes the clock reading, which is not before the prior
    [updated_at] when the clock does not run backwards.  In general,
    whenever an update returns an entry, each field holds the supplied value
    if the request supplied one and its prior value otherwise, and
    [updated_at] is the clock reading whether or not any value changed.
    The returned entry is the one the table then holds. *)
Theorem partial_update_frame
    (db : Store) (now : Z) (uid eid : string) (prior : JournalEntry)
    (m : option Z) (upd : JournalEntryUpdate) :
  pk_unique db ->
  get_entry db uid eid = Ok (Some prior) ->
  updated_at prior <= now ->
  (exists e',
      update_entry db now uid eid (mood_only m)
      = (write_row db e', Ok (Some e'))
      /\ mood_rating e' = m
      /\ title e' = title prior /\ content e' = content prior
      /\ entry_date e' = entry_date prior
      /\ energy_level e' = energy_level prior /\ tags e' = tags prior
      /\ updated_at e' = now /\ updated_at prior <= updated_at e'
      /\ get_entry (write_row db e') uid eid = Ok (Some e'))
  /\ (forall db' e',
        update_entry db now uid eid upd = (db', Ok (Some e')) ->
        Some (title e') = supplied_or (u_title upd) (Some (title prior))
        /\ Some (content e')
           = supplied_or (u_content upd) (Some (content prior))
        /\ Some (entry_date e')
           = supplied_or (u_entry_date upd) (Some (entry_date prior))
        /\ mood_rating e' = supplied_or (u_mood_rating upd) (mood_rating prior)
        /\ energy_level e'
           = supplied_or (u_energy_level upd) (energy_level prior)
        /\ tags e' = supplied_or (u_tags upd) (tags prior)
        /\ updated_at e' = now /\ updated_at prior <= updated_at e'
        /\ get_entry db' uid eid = Ok (Some e')).
Proof.
  intros Hpk Hget Hclock.
  destruct (get_entry_Some _ _ _ _ Hget) as (Hin & Hid & Huid).
  assert (Hstored : forall db' e' u,
    update_entry db now uid eid u = (db', Ok (Some e')) ->
    get_entry db' uid eid = Ok (Some e')).
  { intros db' e' u Hu.
    destruct (update_entry_Some _ _ _ _ _ _ _ _ Hget Hu)
      as (-> & Hid' & Huid' & _).
    rewrite <- Hid, <- Hid', <- Huid, <- Huid'.
    now apply get_after_write with prior. }
  split.
  - destruct (update_entry_succeeds db now uid eid (mood_only m) prior Hget)
      as [e' He']; try discriminate.
    exists e'. split; [exact He'|].
    pose proof (Hstored _ _ _ He') as Hs.
    destruct (update_entry_Some _ _ _ _ _ _ _ _ Hget He')
      as (_ & _ & _ & _ & Hup & Ht & Hc & Hd & Hm & Hen & Htg).
    simpl in *. inversion Ht. inversion Hc. inversion Hd.
    repeat split; try assumption. lia.
  - intros db' e' Hu.
    pose proof (Hstored _ _ _ Hu) as Hs.
    destruct (update_entry_Some _ _ _ _ _ _ _ _ Hget Hu)
      as (_ & _ & _ & _ & Hup & Ht & Hc & Hd & Hm & Hen & Htg).
    repeat split; try assumption. lia.
Qed.

Lemma partial_update_frame_witness :
  pk_unique Sample.db3
  /\ get_entry Sample.db3 "alice" "e-1" = Ok (Some Sample.jan5)
  /\ updated_at Sample.jan5 <= 500
  /\ exists e',
       update_entry Sample.db3 500 "alice" "e-1" (mood_only (Some 3))
       = (write_row Sample.db3 e', Ok (Some e'))
       /\ mood_rating e' = Some 3
       /\ title e' = title Sample.jan5 /\ content e' = content Sample.jan5
       /\ entry_date e' = entry_date Sample.jan5
       /\ energy_level e' = energy_level Sample.jan5
       /\ tags e' = tags Sample.jan5
       /\ updated_at e' = 500 /\ updated_at Sample.jan5 <= updated_at e'
       /\ get_entry (write_row Sample.db3 e') "alice" "e-1" = Ok (Some e').
Proof.
  split; [exact sample_db3_pk|].
  split; [reflexivity|].
  split; [simpl; lia|].
  apply (partial_update_frame Sample.db3 500 "alice" "e-1" Sample.jan5
           (Some 3) no_fields).
  - exact sample_db3_pk.
  - reflexivity.
  - simpl; lia.
Defined.

(** C10.  For an entry the user owns, in a table with distinct
    identifiers, an update that supplies no field at all does not fail: it
    returns the entry with title, content, entry date, mood rating, energy
    level and tags as they were, and with [updated_at] set to the clock
    reading.  The returned entry is the one the table then holds under
    that identifier: the refreshed [updated_at] is stored.  The table keeps
    its identifiers, and the lookup of every other identifier gives what
    it gave before. *)
Theorem empty_update_succeeds
    (db : Store) (now : Z) (uid eid : string) (prior : JournalEntry) :
  pk_unique db ->
  get_entry db uid eid = Ok (Some prior) ->
  exists e',
    update_entry db now uid eid no_fields = (write_row db e', Ok (Some e'))
    /\ title e' = title prior /\ content e' = content prior
    /\ entry_date e' = entry_date prior
    /\ mood_rating e' = mood_rating prior
    /\ energy_level e' = energy_level prior /\ tags e' = tags prior
    /\ updated_at e' = now
    /\ id e' = id prior /\ user_id e' = user_id prior
    /\ created_at e' = created_at prior
    /\ get_entry (write_row db e') uid eid = Ok (Some e')
    /\ map id (write_row db e') = map id db
    /\ (forall uid' eid',
          eid' <> eid ->
          get_entry (write_row db e') uid' eid' = get_entry db uid' eid').
Proof.
  intros Hpk Hget.
  destruct (get_entry_Some _ _ _ _ Hget) as (Hin & Hid & Huid).
  unfold update_entry. rewrite Hget. simpl.
  eexists. split; [reflexivity|]. simpl.
  repeat (split; [reflexivity|]).
  split; [|split].
  - rewrite <- Hid, <- Huid.
    apply (get_after_write db prior
             (mkEntry (id prior) (created_at prior) now (user_id prior)
                      (title prior) (content prior) (entry_date prior)
                      (mood_rating prior) (energy_level prior) (tags prior)));
      [assumption | assumption | reflexivity].
  - apply write_row_ids.
  - intros uid' eid' Hne. apply get_entry_write_row_other.
    simpl. congruence.
Qed.

Lemma empty_update_succeeds_witness :
  pk_unique Sample.db3
  /\ get_entry Sample.db3 "alice" "e-2" = Ok (Some Sample.jan20)
  /\ exists e',
       update_entry Sample.db3 900 "alice" "e-2" no_fields
       = (write_row Sample.db3 e', Ok (Some e'))
       /\ title e' = title Sample.jan20 /\ content e' = content Sample.jan20
       /\ entry_date e' = entry_date Sample.jan20
       /\ mood_rating e' = mood_rating Sample.jan20
       /\ energy_level e' = energy_level Sample.jan20
       /\ tags e' = tags Sample.jan20
       /\ updated_at e' = 900
       /\ id e' = id Sample.jan20 /\ user_id e' = user_id Sample.jan20
       /\ created_at e' = created_at Sample.jan20
       /\ get_entry (write_row Sample.db3 e') "alice" "e-2" = Ok (Some e')
       /\ map id (write_row Sample.db3 e') = map id Sample.db3
       /\ (forall uid' eid',
             eid' <> "e-2"%string ->
             get_entry (write_row Sample.db3 e') uid' eid'
             = get_entry Sample.db3 uid' eid').
Proof.
  split; [exact sample_db3_pk|]. split; [reflexivity|].
  apply (empty_update_succeeds Sample.db3 900 "alice" "e-2" Sample.jan20).
  - exact sample_db3_pk.
  - reflexivity.
Defined.

(** ** Order on dates *)

Section DateOrder.

Implicit Types a b c : date.

Ltac date_order :=
  unfold date_le, date_lt, date_geb, date_leb, date_ltb, date_eqb, date_cmp;
  repeat match goal with d : date |- _ => destruct d end;
  simpl;
  repeat match goal with
         | |- context [Z.compare ?x ?y] => destruct (Z.compare_spec x y)
         | H : context [Z.compare ?x ?y] |- _ => destruct (Z.compare_spec x y)
         end;
  subst; try reflexivity; try discriminate; try lia; try congruence.

Lemma date_cmp_eq a b : date_cmp a b = Eq <-> a = b.
Proof.
  split.
  - date_order.
  - intros ->. destruct b as [y m d]. unfold date_cmp; simpl.
    now rewrite !Z.compare_refl.
Qed.

Lemma date_eqb_eq a b : date_eqb a b = true <-> a = b.
Proof.
  rewrite <- date_cmp_eq. unfold date_eqb.
  destruct (date_cmp a b); split; congruence.
Qed.

Lemma date_eqb_refl a : date_eqb a a = true.
Proof. now apply date_eqb_eq. Qed.

Lemma date_cmp_antisym a b : date_cmp b a = CompOpp (date_cmp a b).
Proof.
  destruct a as [y m d], b as [y' m' d']. unfold date_cmp; simpl.
  rewrite (Z.compare_antisym y y'), (Z.compare_antisym m m'),
          (Z.compare_antisym d d').
  destruct (y ?= y'); simpl; try reflexivity.
  destruct (m ?= m'); simpl; reflexivity.
Qed.

Lemma date_leb_refl a : date_leb a a = true.
Proof.
  unfold date_leb. now rewrite (proj2 (date_cmp_eq a a) eq_refl).
Qed.

Lemma date_leb_trans a b c :
  date_leb a b = true -> date_leb b c = true -> date_leb a c = true.
Proof. date_order. Qed.

Lemma date_ltb_trans a b c :
  date_ltb a b = true -> date_ltb b c = true -> date_ltb a c = true.
Proof. date_order. Qed.

Lemma date_ltb_leb a b : date_ltb a b = true -> date_leb a b = true.
Proof.
  unfold date_ltb, date_leb. destruct (date_cmp a b); congruence.
Qed.

Lemma date_ltb_false a b : date_ltb a b = false -> date_leb b a = true.
Proof.
  unfold date_ltb, date_leb. rewrite (date_cmp_antisym a b).
  destruct (date_cmp a b); simpl; congruence.
Qed.

Lemma date_leb_false a b : date_leb a b = false -> date_ltb b a = true.
Proof.
  unfold date_ltb, date_leb. rewrite (date_cmp_antisym a b).
  destruct (date_cmp a b); simpl; congruence.
Qed.

Lemma date_leb_antisym a b :
  date_leb a b = true -> date_leb b a = true -> a = b.
Proof.
  unfold date_leb. rewrite (date_cmp_antisym a b). intros H1 H2.
  apply date_cmp_eq. destruct (date_cmp a b); simpl in *; congruence.
Qed.

Lemma date_ltb_irrefl a : date_ltb a a = false.
Proof.
  unfold date_ltb. now rewrite (proj2 (date_cmp_eq a a) eq_refl).
Qed.

End DateOrder.

(** ** Ordinals and the calendar *)

Ltac euclid := Z.to_euclidean_division_equations; lia.

Ltac months m :=
  let H := fresh "Hmonths" in
  assert (m = 1 \/ m = 2 \/ m = 3 \/ m = 4 \/ m = 5 \/ m = 6 \/ m = 7
          \/ m = 8 \/ m = 9 \/ m = 10 \/ m = 11 \/ m = 12) as H by lia;
  destruct H as [H|[H|[H|[H|[H|[H|[H|[H|[H|[H|[H|H]]]]]]]]]]].

(** Evaluates the arithmetic on literals that the case analyses leave
    behind. *)
Ltac closed_arith :=
  repeat match goal with
  | |- context [Z.sub (Zpos ?a) (Zpos ?b)] =>
      let v := eval vm_compute in (Z.sub (Zpos a) (Zpos b)) in
      change (Z.sub (Zpos a) (Zpos b)) with v
  | |- context [Z.ltb (Zpos ?a) ?b] =>
      match b with Zpos _ => idtac | Z0 => idtac end;
      let v := eval vm_compute in (Z.ltb (Zpos a) b) in
      change (Z.ltb (Zpos a) b) with v
  end.

Section Calendar.

Implicit Types (a b d : date) (y m n : Z).

Lemma days_before_year_next y y' :
  1 <= y -> y < y' ->
  _days_before_year y + (if _is_leap y then 366 else 365)
  <= _days_before_year y'.
Proof.
  intros. unfold _days_before_year, _is_leap.
  destruct (Z.eqb_spec (y mod 4) 0), (Z.eqb_spec (y mod 100) 0),
           (Z.eqb_spec (y mod 400) 0); simpl; euclid.
Qed.

Lemma day_of_year_bounds y m dd :
  1 <= m <= 12 -> 1 <= dd <= _days_in_month y m ->
  1 <= _days_before_month y m + dd <= (if _is_leap y then 366 else 365).
Proof.
  intros Hm. unfold _days_in_month, _days_before_month.
  months m; subst m; destruct (_is_leap y); cbn -[Z.add Z.le Z.lt]; lia.
Qed.

Lemma day_of_year_mono y m dd m' dd' :
  1 <= m <= 12 -> 1 <= dd <= _days_in_month y m ->
  1 <= m' <= 12 -> 1 <= dd' <= _days_in_month y m' ->
  m < m' ->
  _days_before_month y m + dd < _days_before_month y m' + dd'.
Proof.
  intros Hm Hd Hm' Hd' Hlt. revert Hd Hd'.
  unfold _days_in_month, _days_before_month.
  months m; subst m; months m'; subst m'; try lia;
    destruct (_is_leap y); cbn -[Z.add Z.le Z.lt]; lia.
Qed.

(** On dates the constructor accepts, the order of the triples is the
    order of the ordinals. *)
Lemma toordinal_compare a b :
  valid_date a -> valid_date b ->
  date_cmp a b = (toordinal a ?= toordinal b).
Proof.
  destruct a as [y m dd], b as [y' m' dd'].
  unfold valid_date, date_cmp, toordinal, _ymd2ord. cbn [year month day].
  intros (Hy & Hm & Hd) (Hy' & Hm' & Hd').
  pose proof (day_of_year_bounds y m dd Hm Hd) as B.
  pose proof (day_of_year_bounds y' m' dd' Hm' Hd') as B'.
  symmetry.
  destruct (Z.compare_spec y y') as [-> | Hlt | Hgt].
  - destruct (Z.compare_spec m m') as [-> | Hlt | Hgt].
    + destruct (Z.compare_spec dd dd');
        [apply Z.compare_eq_iff | apply Z.compare_lt_iff
         | apply Z.compare_gt_iff]; lia.
    + apply Z.compare_lt_iff.
      pose proof (day_of_year_mono y' m dd m' dd' Hm Hd Hm' Hd' Hlt). lia.
    + apply Z.compare_gt_iff.
      pose proof (day_of_year_mono y' m' dd' m dd Hm' Hd' Hm Hd Hgt). lia.
  - apply Z.compare_lt_iff.
    pose proof (days_before_year_next y y' ltac:(lia) Hlt). lia.
  - apply Z.compare_gt_iff.
    pose proof (days_before_year_next y' y ltac:(lia) Hgt). lia.
Qed.

Lemma date_le_ordinal a b :
  valid_date a -> valid_date b ->
  (date_le a b <-> toordinal a <= toordinal b).
Proof.
  intros Ha Hb. unfold date_le, date_leb.
  rewrite (toordinal_compare a b Ha Hb).
  destruct (Z.compare_spec (toordinal a) (toordinal b));
    split; intros; try lia; try reflexivity; discriminate.
Qed.

Lemma toordinal_range d : valid_date d -> 1 <= toordinal d <= _MAXORDINAL.
Proof.
  destruct d as [y m dd]. unfold valid_date, toordinal, _ymd2ord.
  cbn [year month day]. intros (Hy & Hm & Hd).
  pose proof (day_of_year_bounds y m dd Hm Hd) as B.
  pose proof (days_before_year_next y 10000 ltac:(lia) ltac:(lia)) as N.
  change (_days_before_year 10000) with _MAXORDINAL in N.
  assert (0 <= _days_before_year y) by (unfold _days_before_year; euclid).
  lia.
Qed.

(** The year [400 a + 100 b + 4 c + e + 1], counted in whole cycles. *)
Lemma leap_decompose c400 c100 c4 c1 :
  0 <= c400 -> 0 <= c100 <= 3 -> 0 <= c4 <= 24 -> 0 <= c1 <= 3 ->
  _is_leap (c400 * 400 + 1 + c100 * 100 + c4 * 4 + c1)
  = (c1 =? 3) && (negb (c4 =? 24) || (c100 =? 3)).
Proof.
  intros. unfold _is_leap.
  destruct
    (Z.eqb_spec ((c400 * 400 + 1 + c100 * 100 + c4 * 4 + c1) mod 4) 0),
    (Z.eqb_spec ((c400 * 400 + 1 + c100 * 100 + c4 * 4 + c1) mod 100) 0),
    (Z.eqb_spec ((c400 * 400 + 1 + c100 * 100 + c4 * 4 + c1) mod 400) 0),
    (Z.eqb_spec c1 3), (Z.eqb_spec c4 24), (Z.eqb_spec c100 3);
    simpl; try reflexivity; exfalso; euclid.
Qed.

Lemma days_before_year_decompose c400 c100 c4 c1 :
  0 <= c400 -> 0 <= c100 <= 3 -> 0 <= c4 <= 24 -> 0 <= c1 <= 3 ->
  _days_before_year (c400 * 400 + 1 + c100 * 100 + c4 * 4 + c1)
  = 146097 * c400 + 36524 * c100 + 1461 * c4 + 365 * c1.
Proof.
  intros. unfold _days_before_year. cbv zeta. euclid.
Qed.

(** [fromordinal] yields a date the constructor accepts and is a right
    inverse of [toordinal]. *)
Lemma fromordinal_toordinal n :
  1 <= n <= _MAXORDINAL ->
  valid_date (fromordinal n) /\ toordinal (fromordinal n) = n.
Proof.
  intros Hn.
  unfold fromordinal, _ord2ymd, _MAXORDINAL, _DI400Y, _DI100Y, _DI4Y in *.
  cbv zeta.
  set (n0 := n - 1).
  set (n400 := n0 / 146097). set (r400 := n0 mod 146097).
  set (n100 := r400 / 36524). set (r100 := r400 mod 36524).
  set (n4 := r100 / 1461). set (r4 := r100 mod 1461).
  set (n1 := r4 / 365). set (r1 := r4 mod 365).
  assert (H400 : n0 = 146097 * n400 + r400 /\ 0 <= r400 < 146097)
    by (subst n400 r400; euclid).
  assert (H100 : r400 = 36524 * n100 + r100 /\ 0 <= r100 < 36524)
    by (subst n100 r100; euclid).
  assert (H4 : r100 = 1461 * n4 + r4 /\ 0 <= r4 < 1461)
    by (subst n4 r4; euclid).
  assert (H1 : r4 = 365 * n1 + r1 /\ 0 <= r1 < 365)
    by (subst n1 r1; euclid).
  assert (Hn0 : n0 = n - 1) by reflexivity.
  clearbody n0 n400 r400 n100 r100 n4 r4 n1 r1.
  assert (Hb : 0 <= n400 <= 24 /\ 0 <= n100 <= 4 /\ 0 <= n4 <= 24
               /\ 0 <= n1 <= 4) by lia.
  destruct (Z.eqb_spec n1 4) as [E1|E1];
    [|destruct (Z.eqb_spec n100 4) as [E100|E100]]; simpl orb; cbv iota.
  - (* the last day of a leap year *)
    replace (n400 * 400 + 1 + n100 * 100 + n4 * 4 + n1 - 1)
      with (n400 * 400 + 1 + n100 * 100 + n4 * 4 + 3) by lia.
    unfold valid_date, toordinal, _ymd2ord, _days_before_month,
      _days_in_month.
    cbn [year month day].
    rewrite leap_decompose, days_before_year_decompose by lia.
    assert (n4 <> 24) by lia.
    destruct (Z.eqb_spec n4 24); [contradiction|].
    cbn -[Z.add Z.sub Z.mul]. lia.
  - (* the last day of a 400-year cycle *)
    replace (n400 * 400 + 1 + n100 * 100 + n4 * 4 + n1 - 1)
      with (n400 * 400 + 1 + 3 * 100 + 24 * 4 + 3) by lia.
    unfold valid_date, toordinal, _ymd2ord, _days_before_month,
      _days_in_month.
    cbn [year month day].
    rewrite leap_decompose, days_before_year_decompose by lia.
    cbn -[Z.add Z.sub Z.mul]. lia.
  - rewrite Z.shiftr_div_pow2 by lia. change (2 ^ 5) with 32.
    set (m := (r1 + 50) / 32).
    assert (Hm : 32 * m <= r1 + 50 < 32 * m + 32) by (subst m; euclid).
    clearbody m.
    unfold valid_date, toordinal, _ymd2ord, _days_before_month,
      _days_in_month.
    set (L := (n1 =? 3) && (negb (n4 =? 24) || (n100 =? 3))).
    assert (HL : _is_leap (n400 * 400 + 1 + n100 * 100 + n4 * 4 + n1) = L)
      by (apply leap_decompose; lia).
    assert (HY : _days_before_year
                   (n400 * 400 + 1 + n100 * 100 + n4 * 4 + n1)
                 = 146097 * n400 + 36524 * n100 + 1461 * n4 + 365 * n1)
      by (apply days_before_year_decompose; lia).
    clearbody L.
    assert (Hyear : n400 * 400 + 1 + n100 * 100 + n4 * 4 + n1 <= 9999)
      by lia.
    months m; subst m; destruct L; closed_arith;
      cbn -[Z.add Z.mul Z.opp Z.sub Z.ltb]; closed_arith;
      match goal with
      | |- context [?x <? ?z] => destruct (Z.ltb_spec x z)
      end;
      cbn [year month day]; rewrite ?HL, ?HY; closed_arith;
      cbn -[Z.add Z.mul Z.opp Z.sub Z.ltb]; lia.
Qed.

(** [d - timedelta(days=k)] is the date whose ordinal is [k] less. *)
Lemma sub_days_ordinal d k s :
  sub_days d k = Some s ->
  valid_date s /\ toordinal s = toordinal d - k.
Proof.
  unfold sub_days.
  destruct (Z.ltb_spec 0 (toordinal d + - k)); [|discriminate].
  destruct (Z.leb_spec (toordinal d + - k) _MAXORDINAL); [|discriminate].
  simpl. intros E. inversion E; subst.
  destruct (fromordinal_toordinal (toordinal d + - k)) as [Hv Ho]; [lia|].
  split; [assumption | lia].
Qed.

Lemma sub_days_defined d k :
  valid_date d -> 0 <= k < toordinal d -> exists s, sub_days d k = Some s.
Proof.
  intros Hv Hk. pose proof (toordinal_range d Hv) as R.
  unfold sub_days.
  destruct (Z.ltb_spec 0 (toordinal d + - k)); [|lia].
  destruct (Z.leb_spec (toordinal d + - k) _MAXORDINAL); [|lia].
  simpl. eexists. reflexivity.
Qed.

(** The window of the trend, counted in days. *)
Lemma since_window as_of since d :
  sub_days as_of 30 = Some since -> valid_date d ->
  (date_le since d <-> toordinal as_of - 30 <= toordinal d).
Proof.
  intros Hs Hd. apply sub_days_ordinal in Hs. destruct Hs as [Hv Ho].
  rewrite (date_le_ordinal since d Hv Hd). lia.
Qed.

(** The first day of a month precedes every day of that month. *)
Lemma first_of_month_le d :
  valid_date d ->
  valid_date (first_of_month d) /\ date_le (first_of_month d) d.
Proof.
  destruct d as [y m dd]. unfold valid_date, first_of_month.
  cbn [year month day]. intros (Hy & Hm & Hd). split.
  - split; [assumption|]. split; [assumption|].
    unfold _days_in_month in *.
    months m; subst m; destruct (_is_leap y); cbn in *; lia.
  - unfold date_le, date_leb, date_cmp. cbn [year month day].
    rewrite !Z.compare_refl.
    destruct (Z.compare_spec 1 dd); try reflexivity. lia.
Qed.

End Calendar.

(** ** Query builder *)

Section QueryBuilder.

Implicit Types (db rows : list JournalEntry) (e : JournalEntry).

Lemma insert_by_perm before e rows :
  Permutation (insert_by before e rows) (e :: rows).
Proof.
  induction rows as [|x r IH]; simpl; [reflexivity|].
  destruct (before (entry_date x) (entry_date e)); [|reflexivity].
  rewrite IH. apply perm_swap.
Qed.

Lemma sort_by_perm before rows : Permutation (sort_by before rows) rows.
Proof.
  induction rows as [|x r IH]; simpl; [reflexivity|].
  rewrite insert_by_perm. now apply perm_skip.
Qed.

Lemma sort_by_length before rows :
  List.length (sort_by before rows) = List.length rows.
Proof. apply Permutation_length, sort_by_perm. Qed.

Lemma insert_desc_sorted e rows :
  StronglySorted newest_first rows ->
  StronglySorted newest_first
    (insert_by (fun x y => date_ltb y x) e rows).
Proof.
  induction rows as [|x r IH]; simpl; intros Hs.
  - repeat constructor.
  - inversion Hs as [|? ? Hr Hall]; subst.
    destruct (date_ltb (entry_date e) (entry_date x)) eqn:E.
    + constructor; [now apply IH|].
      apply Forall_forall. intros y Hy.
      apply (Permutation_in _ (insert_by_perm _ e r)) in Hy.
      destruct Hy as [<- | Hy].
      * now apply date_ltb_leb.
      * rewrite Forall_forall in Hall. now apply Hall.
    + apply date_ltb_false in E.
      constructor; [assumption|].
      constructor; [exact E|].
      rewrite Forall_forall in Hall |- *. intros y Hy.
      unfold newest_first, date_le in *.
      eapply date_leb_trans; [apply Hall, Hy | exact E].
Qed.

Lemma sort_desc_sorted rows :
  StronglySorted newest_first (sort_by (fun x y => date_ltb y x) rows).
Proof.
  induction rows as [|x r IH]; simpl; [constructor|].
  now apply insert_desc_sorted.
Qed.

Lemma in_firstn {A} n (l : list A) (x : A) : In x (firstn n l) -> In x l.
Proof.
  revert l. induction n as [|n IH]; intros [|a l]; simpl; try tauto.
  intros [-> | H]; [now left | right; now apply IH].
Qed.

Lemma in_skipn {A} n (l : list A) (x : A) : In x (skipn n l) -> In x l.
Proof.
  revert l. induction n as [|n IH]; intros [|a l]; simpl; try tauto.
  intros H. right. now apply IH.
Qed.

Lemma StronglySorted_skipn {A} (R : A -> A -> Prop) n (l : list A) :
  StronglySorted R l -> StronglySorted R (skipn n l).
Proof.
  revert l. induction n as [|n IH]; intros l Hs; simpl; [assumption|].
  destruct l as [|a l]; [constructor|].
  inversion Hs; subst. now apply IH.
Qed.

Lemma StronglySorted_firstn {A} (R : A -> A -> Prop) n (l : list A) :
  StronglySorted R l -> StronglySorted R (firstn n l).
Proof.
  revert l. induction n as [|n IH]; intros l Hs; simpl; [constructor|].
  destruct l as [|a l]; [constructor|].
  inversion Hs as [|? ? Hl Hall]; subst.
  constructor; [now apply IH|].
  rewrite Forall_forall in Hall |- *. intros y Hy.
  apply Hall. revert Hy. apply in_firstn.
Qed.

Lemma in_slice {A} (S L : Z) (l : list A) (x : A) :
  In x (slice S L l) -> In x l.
Proof.
  unfold slice. intros H.
  apply in_firstn in H. revert H. apply in_skipn.
Qed.

(** The WHERE clauses the listing accumulates, as one predicate. *)
Lemma entries_query_where uid from_date to_date tag_filter e :
  satisfies (sel_where (entries_query uid from_date to_date tag_filter)) e
  = user_is uid e && in_range from_date to_date e && tag_clause tag_filter e.
Proof.
  unfold entries_query, tag_clause, in_range, truthy_date, date_geb.
  destruct from_date, to_date, (truthy_str tag_filter); simpl;
    rewrite ?andb_true_r, ?andb_assoc; reflexivity.
Qed.

Lemma execute_entries_query db uid from_date to_date tag_filter :
  execute db (entries_query uid from_date to_date tag_filter)
  = sort_by (fun x y => date_ltb y x)
      (filter (fun e => user_is uid e && in_range from_date to_date e
                        && tag_clause tag_filter e) db).
Proof.
  unfold execute.
  replace (sel_order (entries_query uid from_date to_date tag_filter))
    with ByEntryDateDesc.
  2:{ unfold entries_query, truthy_date.
      now destruct from_date, to_date, (truthy_str tag_filter). }
  replace (sel_offset (entries_query uid from_date to_date tag_filter))
    with (@None Z).
  2:{ unfold entries_query, truthy_date.
      now destruct from_date, to_date, (truthy_str tag_filter). }
  replace (sel_limit (entries_query uid from_date to_date tag_filter))
    with (@None Z).
  2:{ unfold entries_query, truthy_date.
      now destruct from_date, to_date, (truthy_str tag_filter). }
  simpl. f_equal. apply filter_ext. intros e. apply entries_query_where.
Qed.

Lemma entries_page_unfold db uid skip lim from_date to_date tag_filter :
  entries_page db uid skip lim from_date to_date tag_filter
  = apply_limit (Some lim)
      (apply_offset (Some skip)
         (execute db (entries_query uid from_date to_date tag_filter))).
Proof.
  unfold entries_page, execute, entries_query, truthy_date.
  now destruct from_date, to_date, (truthy_str tag_filter).
Qed.

Lemma entries_page_slice db uid skip lim from_date to_date tag_filter :
  0 <= lim ->
  entries_page db uid skip lim from_date to_date tag_filter
  = slice skip lim
      (execute db (entries_query uid from_date to_date tag_filter)).
Proof.
  intros Hl. rewrite entries_page_unfold. unfold apply_limit, apply_offset.
  destruct (Z.ltb_spec lim 0); [lia | reflexivity].
Qed.

Lemma list_all_execute db uid from_date to_date tag_filter :
  list_all db uid from_date to_date tag_filter
  = execute db (entries_query uid from_date to_date tag_filter).
Proof.
  unfold list_all. rewrite entries_page_slice by lia.
  unfold slice. simpl. rewrite Nat2Z.id. apply firstn_all2.
  rewrite execute_entries_query, sort_by_length.
  apply filter_length_le.
Qed.

Lemma list_all_perm db uid from_date to_date tag_filter :
  Permutation
    (list_all db uid from_date to_date tag_filter)
    (filter (fun e => user_is uid e && in_range from_date to_date e
                      && tag_clause tag_filter e) db).
Proof.
  rewrite list_all_execute, execute_entries_query. apply sort_by_perm.
Qed.

Lemma list_all_sorted db uid from_date to_date tag_filter :
  StronglySorted newest_first
    (list_all db uid from_date to_date tag_filter).
Proof.
  rewrite list_all_execute, execute_entries_query. apply sort_desc_sorted.
Qed.

Lemma list_all_In db uid from_date to_date tag_filter e :
  In e (list_all db uid from_date to_date tag_filter)
  <-> In e db /\ user_id e = uid /\ in_range from_date to_date e = true
      /\ tag_clause tag_filter e = true.
Proof.
  split.
  - intros H. apply (Permutation_in _ (list_all_perm _ _ _ _ _)) in H.
    apply filter_In in H. destruct H as [Hin Hb].
    apply andb_true_iff in Hb. destruct Hb as [Hb Ht].
    apply andb_true_iff in Hb. destruct Hb as [Hu Hr].
    apply String.eqb_eq in Hu. auto.
  - intros (Hin & Hu & Hr & Ht).
    apply (Permutation_in _ (Permutation_sym (list_all_perm _ _ _ _ _))).
    apply filter_In. split; [assumption|].
    unfold user_is. apply String.eqb_eq in Hu. now rewrite Hu, Hr, Ht.
Qed.

Lemma list_all_length db uid from_date to_date tag_filter :
  (List.length (list_all db uid from_date to_date tag_filter)
   <= List.length db)%nat.
Proof.
  rewrite (Permutation_length (list_all_perm _ _ _ _ _)).
  apply filter_length_le.
Qed.

Lemma sqlite_int_iff (n : Z) :
  sqlite_int n = true <-> - 2 ^ 63 <= n < 2 ^ 63.
Proof. unfold sqlite_int. rewrite andb_true_iff. lia. Qed.

(** Inside the limits of the driver, [get_user_entries] returns the rows
    its statement selects. *)
Lemma get_user_entries_Ok db uid skip lim from_date to_date tag_filter :
  - 2 ^ 63 <= skip < 2 ^ 63 -> - 2 ^ 63 <= lim < 2 ^ 63 ->
  like_pattern_fits tag_filter = true ->
  get_user_entries db uid skip lim from_date to_date tag_filter
  = Ok (entries_page db uid skip lim from_date to_date tag_filter).
Proof.
  intros Hs Hl Hp. apply sqlite_int_iff in Hs, Hl.
  unfold get_user_entries. now rewrite Hs, Hl, Hp.
Qed.

(** Whatever it returns is those rows. *)
Lemma get_user_entries_inv db uid skip lim from_date to_date tag_filter l :
  get_user_entries db uid skip lim from_date to_date tag_filter = Ok l ->
  l = entries_page db uid skip lim from_date to_date tag_filter.
Proof.
  unfold get_user_entries.
  destruct (negb (sqlite_int skip && sqlite_int lim)); [discriminate|].
  destruct (negb (like_pattern_fits tag_filter)
            && like_is_evaluated db uid from_date to_date); [discriminate|].
  intros H. inversion H. reflexivity.
Qed.

(** A limit that reaches the end of the listing cuts nothing off. *)
Lemma entries_page_uncut db uid L from_date to_date tag_filter :
  Z.of_nat (List.length (list_all db uid from_date to_date tag_filter)) <= L ->
  entries_page db uid 0 L from_date to_date tag_filter
  = list_all db uid from_date to_date tag_filter.
Proof.
  intros HL. rewrite entries_page_slice by lia.
  rewrite <- list_all_execute. unfold slice. simpl skipn.
  apply firstn_all2. lia.
Qed.

End QueryBuilder.

Lemma in_range_within (from_date to_date : option date) (e : JournalEntry) :
  in_range from_date to_date e = true
  <-> within from_date to_date (entry_date e).
Proof.
  unfold in_range, within, date_le.
  destruct from_date as [D1|], to_date as [D2|];
    rewrite ?andb_true_iff; split.
  - intros [H1 H2]. split; intros D HD; inversion HD; now subst.
  - intros [H1 H2]. split; [now apply H1 | now apply H2].
  - intros [H1 _]. split; intros D HD; inversion HD; now subst.
  - intros [H1 _]. split; [now apply H1 | reflexivity].
  - intros [_ H2]. split; intros D HD; inversion HD; now subst.
  - intros [_ H2]. split; [reflexivity | now apply H2].
  - intros _. split; intros D HD; discriminate.
  - intros _. split; reflexivity.
Qed.

(** C4, as the code has it.  For [0 <= skip < 2^63], [1 <= limit <= 1000]
    and a tag filter, if any, whose LIKE pattern is within the 50000 bytes
    the database allows, [get_user_entries] returns; the listing has at
    most [limit] entries and is the slice [skip .. skip+limit) of the
    ordered sequence the same filters give when pagination cuts nothing
    off. *)
Theorem pagination_is_slice
    (db : Store) (uid : string) (S L : Z)
    (from_date to_date : option date) (tag_filter : option string) :
  0 <= S < 2 ^ 63 -> 1 <= L <= 1000 ->
  like_pattern_fits tag_filter = true ->
  let unpaginated := list_all db uid from_date to_date tag_filter in
  exists page,
    get_user_entries db uid S L from_date to_date tag_filter = Ok page
    /\ Z.of_nat (List.length page) <= L
    /\ page = slice S L unpaginated
    /\ unpaginated
       = execute db (entries_query uid from_date to_date tag_filter).
Proof.
  intros HS HL Hp unpaginated. subst unpaginated.
  exists (entries_page db uid S L from_date to_date tag_filter).
  split; [apply get_user_entries_Ok; (assumption || lia)|].
  rewrite list_all_execute, entries_page_slice by lia.
  split; [|split; reflexivity].
  unfold slice.
  pose proof (firstn_le_length (Z.to_nat L)
    (skipn (Z.to_nat S)
       (execute db (entries_query uid from_date to_date tag_filter)))).
  lia.
Qed.

Lemma pagination_is_slice_witness :
  0 <= 1 < 2 ^ 63 /\ 1 <= 1 <= 1000
  /\ like_pattern_fits None = true
  /\ exists page,
       get_user_entries Sample.db4 "alice" 1 1 None None None = Ok page
       /\ Z.of_nat (List.length page) <= 1
       /\ page = slice 1 1 (list_all Sample.db4 "alice" None None None)
       /\ list_all Sample.db4 "alice" None None None
          = execute Sample.db4 (entries_query "alice" None None None).
Proof.
  split; [lia|]. split; [lia|]. split; [reflexivity|].
  apply (pagination_is_slice Sample.db4 "alice" 1 1 None None None);
    [lia | lia | reflexivity].
Defined.

(** C4 as stated fails.  With [skip = 2^63] the call returns no sequence:
    the driver cannot bind the number and raises [OverflowError], where the
    slice of the three entries from that position on is the empty one.  With
    a tag filter
    of 49999 bytes it returns none either: the database refuses the
    pattern. *)
Lemma pagination_outside_the_driver :
  0 <= 2 ^ 63 /\ 1 <= 1 <= 1000
  /\ get_user_entries Sample.db4 "alice" (2 ^ 63) 1 None None None
     = Raise OverflowError
  /\ list_all Sample.db4 "alice" None None None
     = [Sample.mar1; Sample.jan20; Sample.jan5]
  /\ Z.of_nat (String.length Sample.long_filter) = 49999
  /\ get_user_entries Sample.db4 "alice" 0 1 None None
       (Some Sample.long_filter)
     = Raise OperationalError.
Proof.
  split; [lia|]. split; [lia|].
  split; [reflexivity|]. split; [vm_compute; reflexivity|].
  split; vm_compute; reflexivity.
Qed.

(** C5.  With date bounds and no tag filter, the listing is exactly the
    user's entries whose [entry_date] lies within the bounds, both bounds
    included and each one applied on its own when the other is absent,
    ordered by [entry_date] descending.  [get_user_entries] returns all of
    it when it skips nothing and its limit reaches the end, and in general
    the slice that [skip] and [limit] select, for every non-negative
    [skip] and [limit] below 2^63. *)
Theorem date_range_listing
    (db : Store) (uid : string) (from_date to_date : option date) :
  let listing := list_all db uid from_date to_date None in
  (forall e, In e listing
             <-> In e db /\ user_id e = uid
                 /\ within from_date to_date (entry_date e))
  /\ Permutation listing
       (filter (fun e => user_is uid e && in_range from_date to_date e) db)
  /\ StronglySorted newest_first listing
  /\ (forall L, Z.of_nat (List.length listing) <= L < 2 ^ 63 ->
        get_user_entries db uid 0 L from_date to_date None = Ok listing)
  /\ (forall S L, 0 <= S < 2 ^ 63 -> 0 <= L < 2 ^ 63 ->
        get_user_entries db uid S L from_date to_date None
        = Ok (slice S L listing)).
Proof.
  intros listing. subst listing. split; [|split; [|split; [|split]]].
  - intros e. rewrite list_all_In, in_range_within.
    unfold tag_clause; simpl. tauto.
  - rewrite list_all_perm.
    erewrite filter_ext; [reflexivity|].
    intros e. unfold tag_clause. simpl. now rewrite andb_true_r.
  - apply list_all_sorted.
  - intros L HL. rewrite get_user_entries_Ok by (reflexivity || lia).
    f_equal. apply entries_page_uncut. lia.
  - intros S L HS HL. rewrite get_user_entries_Ok by (reflexivity || lia).
    f_equal. rewrite list_all_execute. apply entries_page_slice. lia.
Qed.

Lemma date_range_listing_witness :
  (forall e,
      In e (list_all Sample.db4 "alice"
              (Some (mkdate 2024 1 5)) (Some (mkdate 2024 1 20)) None)
      <-> In e Sample.db4 /\ user_id e = "alice"%string
          /\ within (Some (mkdate 2024 1 5)) (Some (mkdate 2024 1 20))
                    (entry_date e))
  /\ get_user_entries Sample.db4 "alice" 0 100
       (Some (mkdate 2024 1 5)) (Some (mkdate 2024 1 20)) None
     = Ok [Sample.jan20; Sample.jan5]
  /\ get_user_entries Sample.db4 "alice" 1 100
       (Some (mkdate 2024 1 5)) (Some (mkdate 2024 1 20)) None
     = Ok (slice 1 100 [Sample.jan20; Sample.jan5]).
Proof.
  destruct (date_range_listing Sample.db4 "alice"
              (Some (mkdate 2024 1 5)) (Some (mkdate 2024 1 20)))
    as (Hexact & _ & _ & Hall & Hpage).
  split; [exact Hexact|].
  split.
  - apply (Hall 100). vm_compute. split; [discriminate | reflexivity].
  - apply (Hpage 1 100); lia.
Defined.

(** ** The LIKE operator and the tag filter *)

Section Like.

Implicit Types (p s t : string) (c d : ascii) (P S T : list Z).

Lemma patternCompare_percent P S :
  patternCompare (37 :: P) S
  = patternCompare P S
    || match S with
       | [] => false
       | _ :: S' => patternCompare (37 :: P) S'
       end.
Proof. destruct S; reflexivity. Qed.

Lemma patternCompare_literal (c : Z) P S :
  c <> 37 -> c <> 95 ->
  patternCompare (c :: P) S
  = match S with
    | [] => false
    | d :: S' => chars_match c d && patternCompare P S'
    end.
Proof.
  intros Hp Hu. simpl.
  destruct (Z.eqb_spec c 37); [contradiction|].
  destruct S; [reflexivity|].
  destruct (Z.eqb_spec c 95); [contradiction | reflexivity].
Qed.

Lemma patternCompare_percent_only S : patternCompare [37] S = true.
Proof.
  induction S as [|d S IH]; [reflexivity|].
  rewrite patternCompare_percent, IH. apply orb_true_r.
Qed.

Lemma patternCompare_percent_more P S :
  patternCompare P S = true -> patternCompare (37 :: P) S = true.
Proof. intros H. rewrite patternCompare_percent, H. reflexivity. Qed.

Lemma patternCompare_literal_prefix P S :
  Forall literal P ->
  patternCompare (P ++ [37]) S = prefix_of chars_match P S.
Proof.
  revert S. induction P as [|c P IH]; intros S Hw.
  - apply patternCompare_percent_only.
  - inversion Hw as [|? ? [Hp Hu] Hw']; subst.
    simpl app. rewrite patternCompare_literal by assumption.
    destruct S as [|d S]; simpl; [reflexivity|]. now rewrite IH.
Qed.

Lemma patternCompare_contains T S :
  Forall literal T ->
  patternCompare (37 :: T ++ [37]) S = occurs_in chars_match T S.
Proof.
  intros Hw. induction S as [|d S IH].
  - rewrite patternCompare_percent, patternCompare_literal_prefix
      by assumption.
    simpl. now rewrite orb_false_r.
  - rewrite patternCompare_percent, patternCompare_literal_prefix
      by assumption.
    simpl occurs_in. now rewrite IH.
Qed.

Lemma chars_match_refl (c : Z) : chars_match c c = true.
Proof. unfold chars_match. now rewrite Z.eqb_refl. Qed.

Lemma patternCompare_literal_any P S :
  prefix_of Z.eqb P S = true -> patternCompare (P ++ [37]) S = true.
Proof.
  revert S. induction P as [|c P IH]; intros S.
  - intros _. apply patternCompare_percent_only.
  - destruct S as [|d S]; simpl prefix_of; [discriminate|].
    rewrite andb_true_iff. intros [Hc Hp].
    apply Z.eqb_eq in Hc. subst d. specialize (IH S Hp).
    simpl app. destruct (Z.eqb_spec c 37) as [->|N37].
    + rewrite patternCompare_percent. apply orb_true_iff. right.
      now apply patternCompare_percent_more.
    + simpl. destruct (Z.eqb_spec c 37); [contradiction|].
      destruct (c =? 95); [assumption|].
      now rewrite chars_match_refl, IH.
Qed.

Lemma patternCompare_contains_exact T S :
  occurs_in Z.eqb T S = true -> patternCompare (37 :: T ++ [37]) S = true.
Proof.
  induction S as [|d S IH]; simpl occurs_in;
    rewrite patternCompare_percent, !orb_true_iff.
  - intros [H | H]; [left; now apply patternCompare_literal_any
                    | discriminate].
  - intros [H | H]; [left; now apply patternCompare_literal_any
                    | right; now apply IH].
Qed.

(** *** Bytes *)

Lemma byte_inj c d : byte c = byte d -> c = d.
Proof.
  unfold byte. intros H. assert (E : nat_of_ascii c = nat_of_ascii d) by lia.
  apply (f_equal ascii_of_nat) in E. now rewrite !ascii_nat_embedding in E.
Qed.

Lemma ascii_text_cons c t :
  ascii_text (String c t) = true ->
  1 <= byte c < 128 /\ ascii_text t = true.
Proof. simpl. rewrite !andb_true_iff, Z.leb_le, Z.ltb_lt. tauto. Qed.

(** *** Bytes and characters *)

Lemma utf8_fold_high (c : Z) : 128 <= utf8_fold c.
Proof.
  unfold utf8_fold. destruct (Z.ltb_spec c 128); simpl; [lia|].
  destruct (_ || _); lia.
Qed.

Section Correspondence.

Variable eqZ : Z -> Z -> bool.
Variable eqA : ascii -> ascii -> bool.
Hypothesis eq_low : forall a b,
  byte a < 128 -> byte b < 192 -> eqZ (byte a) (byte b) = eqA a b.
Hypothesis eqZ_high : forall a X,
  byte a < 128 -> 128 <= X -> eqZ (byte a) X = false.
Hypothesis eqA_high : forall a b,
  byte a < 128 -> 128 <= byte b -> eqA a b = false.

(** A character under way comes out as a value of 128 or more. *)
Lemma utf8_read_pending (acc : Z) s :
  exists X rest, utf8_read (Some acc) s = X :: rest /\ 128 <= X.
Proof.
  revert acc. induction s as [|b s IH]; intros acc.
  - simpl. eexists _, _. split; [reflexivity | apply utf8_fold_high].
  - simpl. destruct (is_continuation (byte b)); [apply IH|].
    eexists _, _. split; [reflexivity | apply utf8_fold_high].
Qed.

Lemma prefix_of_bytes c t s :
  byte c < 128 -> ascii_text t = true ->
  prefix_of eqZ (bytes (String c t)) (utf8_read None s)
  = prefix_with eqA (String c t) s.
Proof.
  revert c s. induction t as [|c' t IH]; intros c s Hc Ht.
  - destruct s as [|b s]; [reflexivity|].
    simpl. destruct (Z.ltb_spec (byte b) 192).
    + simpl. now rewrite eq_low by assumption.
    + destruct (utf8_read_pending (sqlite3Utf8Trans1 (byte b)) s)
        as (X & rest & -> & HX).
      rewrite eqZ_high, eqA_high by lia. reflexivity.
  - apply ascii_text_cons in Ht. destruct Ht as [Hc' Ht].
    destruct s as [|b s]; [reflexivity|].
    change (bytes (String c (String c' t)))
      with (byte c :: bytes (String c' t)).
    cbn [prefix_with utf8_read].
    destruct (Z.ltb_spec (byte b) 192).
    + cbn [prefix_of]. rewrite eq_low by assumption.
      rewrite (IH c' s) by (assumption || lia). reflexivity.
    + destruct (utf8_read_pending (sqlite3Utf8Trans1 (byte b)) s)
        as (X & rest & -> & HX).
      cbn [prefix_of]. rewrite eqZ_high, eqA_high by lia. reflexivity.
Qed.

Lemma occurs_in_bytes c t s :
  byte c < 128 -> ascii_text t = true ->
  occurs_in eqZ (bytes (String c t)) (utf8_read None s)
  = substring_with eqA (String c t) s
  /\ forall acc,
       occurs_in eqZ (bytes (String c t)) (utf8_read (Some acc) s)
       = substring_with eqA (String c t) s.
Proof.
  intros Hc Ht. induction s as [|b s [IH1 IH2]].
  - split; [reflexivity|]. intros acc. simpl.
    rewrite eqZ_high by (assumption || apply utf8_fold_high). reflexivity.
  - assert (H1 : occurs_in eqZ (bytes (String c t))
                   (utf8_read None (String b s))
                 = substring_with eqA (String c t) (String b s)).
    { cbn [substring_with].
      rewrite <- (prefix_of_bytes c t (String b s)) by assumption.
      cbn [utf8_read]. destruct (Z.ltb_spec (byte b) 192).
      - cbn [occurs_in]. now rewrite IH1.
      - destruct (utf8_read_pending (sqlite3Utf8Trans1 (byte b)) s)
          as (X & rest & E & HX).
        rewrite <- (IH2 (sqlite3Utf8Trans1 (byte b))). rewrite E.
        cbn [occurs_in bytes prefix_of]. rewrite eqZ_high by lia.
        reflexivity. }
    split; [exact H1|]. intros acc.
    cbn [utf8_read]. destruct (is_continuation (byte b)) eqn:C.
    + rewrite IH2. cbn [substring_with prefix_with].
      unfold is_continuation in C. apply andb_true_iff in C.
      rewrite eqA_high by lia. reflexivity.
    + change (if byte b <? 192 then byte b :: utf8_read None s
              else utf8_read (Some (sqlite3Utf8Trans1 (byte b))) s)
        with (utf8_read None (String b s)).
      cbn [occurs_in bytes prefix_of].
      rewrite eqZ_high by (assumption || apply utf8_fold_high).
      exact H1.
Qed.

End Correspondence.

Lemma all_bytes_In (a : ascii) : In a all_bytes.
Proof.
  unfold all_bytes. apply in_map_iff. exists (nat_of_ascii a).
  split; [apply ascii_nat_embedding|].
  apply in_seq. pose proof (nat_ascii_bounded a). lia.
Qed.

Lemma for_all_bytes (P : ascii -> ascii -> bool) :
  forallb (fun a => forallb (P a) all_bytes) all_bytes = true ->
  forall a b, P a b = true.
Proof.
  intros H a b. rewrite forallb_forall in H.
  specialize (H a (all_bytes_In a)). rewrite forallb_forall in H.
  apply H, all_bytes_In.
Qed.

Lemma chars_match_bytes a b :
  byte a < 128 -> chars_match (byte a) (byte b) = char_eq_nocase a b.
Proof.
  intros Ha.
  pose proof (for_all_bytes
    (fun a b => implb (byte a <? 128)
                  (Bool.eqb (chars_match (byte a) (byte b))
                            (char_eq_nocase a b)))
    ltac:(vm_compute; reflexivity) a b) as H.
  cbv beta in H. apply Z.ltb_lt in Ha. rewrite Ha in H. simpl in H.
  now apply Bool.eqb_prop.
Qed.

Lemma chars_match_high a (X : Z) :
  byte a < 128 -> 128 <= X -> chars_match (byte a) X = false.
Proof.
  intros Ha HX. unfold chars_match.
  destruct (Z.eqb_spec (byte a) X); [lia|].
  destruct (Z.ltb_spec X 128); [lia|]. now rewrite andb_false_r.
Qed.

Lemma char_eq_nocase_high a b :
  byte a < 128 -> 128 <= byte b -> char_eq_nocase a b = false.
Proof.
  intros Ha Hb. rewrite <- chars_match_bytes by assumption.
  now apply chars_match_high.
Qed.

Lemma eqb_bytes a b : Z.eqb (byte a) (byte b) = Ascii.eqb a b.
Proof.
  destruct (Ascii.eqb_spec a b) as [->|N]; [apply Z.eqb_refl|].
  apply Z.eqb_neq. intros E. now apply byte_inj in E.
Qed.

Lemma like_percent_all (s : string) : like ("%" ++ "%" ++ "%") s = true.
Proof.
  unfold like. change (characters ("%" ++ "%" ++ "%")) with [37; 37; 37].
  apply patternCompare_percent_more, patternCompare_percent_more,
    patternCompare_percent_only.
Qed.

Lemma c_str_nul_free_app t u :
  nul_free t = true -> c_str (t ++ u) = (t ++ c_str u)%string.
Proof.
  induction t as [|c t IH]; simpl; [reflexivity|].
  rewrite andb_true_iff, negb_true_iff. intros [Hc Ht].
  now rewrite Hc, IH.
Qed.

Lemma c_str_nul_free s : nul_free s = true -> c_str s = s.
Proof.
  induction s as [|c s IH]; simpl; [reflexivity|].
  rewrite andb_true_iff, negb_true_iff. intros [Hc Hs].
  now rewrite Hc, IH.
Qed.

(** A [%] after a text is read as a character of its own. *)
Lemma utf8_read_app_percent pending t :
  utf8_read pending (t ++ "%") = utf8_read pending t ++ [37].
Proof.
  revert pending. induction t as [|b t IH]; intros pending.
  - destruct pending; reflexivity.
  - simpl append. cbn [utf8_read].
    destruct pending as [c|].
    + destruct (is_continuation (byte b)); [apply IH|].
      destruct (byte b <? 192); simpl; now rewrite IH.
    + destruct (byte b <? 192); simpl; now rewrite IH.
Qed.

Lemma characters_pattern_nul_free t :
  nul_free t = true ->
  characters ("%" ++ t ++ "%") = 37 :: characters t ++ [37].
Proof.
  intros H. unfold characters.
  change ("%" ++ t ++ "%")%string with (String "%" (t ++ "%")).
  change (c_str (String "%" (t ++ "%")))
    with (String "%" (c_str (t ++ "%"))).
  rewrite c_str_nul_free_app, (c_str_nul_free t) by assumption.
  change (c_str "%") with "%"%string.
  change (utf8_read None (String "%" (t ++ "%")))
    with (37 :: utf8_read None (t ++ "%")).
  now rewrite utf8_read_app_percent.
Qed.

(** A text without the bytes [%] and [_] has no wildcard among its
    characters. *)
Lemma wildcard_free_characters pending t :
  wildcard_free t = true -> Forall literal (utf8_read pending t).
Proof.
  assert (Hhigh : forall X, 128 <= X -> literal X)
    by (intros X HX; unfold literal; lia).
  revert pending. induction t as [|b t IH]; intros pending Hw.
  - destruct pending; simpl; repeat constructor;
      apply Hhigh, utf8_fold_high.
  - simpl in Hw. rewrite !andb_true_iff, !negb_true_iff in Hw.
    destruct Hw as [[Hp Hu] Ht].
    assert (Hb : literal (byte b)).
    { unfold is_percent, is_underscore in *. split; intros E.
      - change 37 with (byte "%") in E. apply byte_inj in E. subst.
        discriminate.
      - change 95 with (byte "_") in E. apply byte_inj in E. subst.
        discriminate. }
    assert (Hstart : Forall literal
      (if byte b <? 192 then byte b :: utf8_read None t
       else utf8_read (Some (sqlite3Utf8Trans1 (byte b))) t)).
    { destruct (byte b <? 192); [constructor|]; auto. }
    cbn [utf8_read]. destruct pending as [c|]; [|exact Hstart].
    destruct (is_continuation (byte b)); [now apply IH|].
    constructor; [apply Hhigh, utf8_fold_high | exact Hstart].
Qed.

Lemma like_contains_characters t s :
  wildcard_free t = true -> nul_free t = true ->
  like ("%" ++ t ++ "%") s
  = occurs_in chars_match (characters t) (characters s).
Proof.
  intros Hw Hn. unfold like. rewrite characters_pattern_nul_free by assumption.
  apply patternCompare_contains. unfold characters.
  rewrite c_str_nul_free by assumption.
  now apply wildcard_free_characters.
Qed.

Lemma like_contains_characters_exact t s :
  nul_free t = true ->
  occurs_in Z.eqb (characters t) (characters s) = true ->
  like ("%" ++ t ++ "%") s = true.
Proof.
  intros Hn H. unfold like. rewrite characters_pattern_nul_free by assumption.
  now apply patternCompare_contains_exact.
Qed.

Lemma ascii_text_nul_free t : ascii_text t = true -> nul_free t = true.
Proof.
  induction t as [|c t IH]; intros H; [reflexivity|].
  apply ascii_text_cons in H. destruct H as [Hc Ht].
  simpl. rewrite (IH Ht), andb_true_r. apply negb_true_iff.
  destruct (Ascii.eqb_spec c zero) as [->|]; [|reflexivity].
  change (byte zero) with 0 in Hc. lia.
Qed.

Lemma characters_ascii t : ascii_text t = true -> characters t = bytes t.
Proof.
  intros H. unfold characters.
  rewrite c_str_nul_free by now apply ascii_text_nul_free.
  induction t as [|c t IH]; [reflexivity|].
  apply ascii_text_cons in H. destruct H as [Hc Ht].
  simpl. destruct (Z.ltb_spec (byte c) 192); [|lia]. now rewrite IH.
Qed.

(** For a filter of ASCII characters, its characters occur among those of
    the text exactly when its bytes occur among the bytes. *)
Lemma occurs_ascii_nocase t s :
  t <> EmptyString -> ascii_text t = true ->
  occurs_in chars_match (characters t) (characters s)
  = is_substring_nocase t (c_str s).
Proof.
  intros Hne Ha. rewrite characters_ascii by assumption.
  destruct t as [|c t]; [congruence|].
  apply ascii_text_cons in Ha. destruct Ha as [Hc Ha].
  unfold characters, is_substring_nocase.
  apply (occurs_in_bytes chars_match char_eq_nocase
           (fun a b Ha' _ => chars_match_bytes a b Ha')
           chars_match_high char_eq_nocase_high);
    [lia | assumption].
Qed.

Lemma occurs_ascii_exact t s :
  t <> EmptyString -> ascii_text t = true ->
  occurs_in Z.eqb (characters t) (characters s) = is_substring t (c_str s).
Proof.
  intros Hne Ha. rewrite characters_ascii by assumption.
  destruct t as [|c t]; [congruence|].
  apply ascii_text_cons in Ha. destruct Ha as [Hc Ha].
  unfold characters, is_substring.
  assert (H2 : forall a X, byte a < 128 -> 128 <= X ->
                           Z.eqb (byte a) X = false)
    by (intros a X Ha' HX; apply Z.eqb_neq; lia).
  assert (H3 : forall a b, byte a < 128 -> 128 <= byte b ->
                           Ascii.eqb a b = false)
    by (intros a b Ha' Hb; rewrite <- eqb_bytes; apply Z.eqb_neq; lia).
  apply (occurs_in_bytes Z.eqb Ascii.eqb
           (fun a b _ _ => eqb_bytes a b) H2 H3);
    [lia | assumption].
Qed.

Lemma length_append s t :
  String.length (s ++ t) = (String.length s + String.length t)%nat.
Proof. induction s as [|c s IH]; simpl; [reflexivity | now rewrite IH]. Qed.

(** A filter of at most 49998 bytes gives a pattern within the limit. *)
Lemma like_pattern_fits_short t :
  Z.of_nat (String.length t) <= 49998 -> like_pattern_fits (Some t) = true.
Proof.
  intros H. unfold like_pattern_fits, SQLITE_MAX_LIKE_PATTERN_LENGTH.
  destruct t as [|c t]; [reflexivity|]. cbn [truthy_str].
  rewrite !length_append. apply Z.leb_le.
  change (String.length "%") with 1%nat. lia.
Qed.

Lemma char_eq_nocase_of_eq c d :
  Ascii.eqb c d = true -> char_eq_nocase c d = true.
Proof.
  intros H. apply Ascii.eqb_eq in H. subst. unfold char_eq_nocase.
  apply Ascii.eqb_refl.
Qed.

Lemma prefix_with_weaken p s :
  prefix_with Ascii.eqb p s = true -> prefix_with char_eq_nocase p s = true.
Proof.
  revert s. induction p as [|c p IH]; intros [|d s]; simpl; try congruence.
  rewrite !andb_true_iff. intros [H1 H2].
  split; [now apply char_eq_nocase_of_eq | now apply IH].
Qed.

(** An exact occurrence is an occurrence up to letter case. *)
Lemma is_substring_nocase_of_exact t s :
  is_substring t s = true -> is_substring_nocase t s = true.
Proof.
  unfold is_substring, is_substring_nocase.
  induction s as [|d s IH]; simpl; rewrite !orb_true_iff.
  - intros [H | H]; [left; now apply prefix_with_weaken | discriminate].
  - intros [H | H]; [left; now apply prefix_with_weaken | right; now apply IH].
Qed.

(** The tag clause for a filter without NUL and without wildcards. *)
Lemma tag_clause_nocase t (e : JournalEntry) :
  t <> EmptyString -> wildcard_free t = true -> nul_free t = true ->
  tag_clause (Some t) e = reads_chars_nocase t e.
Proof.
  intros Hne Hw Hn. unfold tag_clause, reads_chars_nocase, column_like.
  destruct t as [|c t]; [congruence|]. cbn [truthy_str].
  destruct (tags e) as [s|]; [|reflexivity].
  now apply like_contains_characters.
Qed.

(** The tag clause never fails on an exact occurrence of the filter,
    wildcards or not. *)
Lemma tag_clause_exact t (e : JournalEntry) :
  t <> EmptyString -> nul_free t = true ->
  reads_chars t e = true -> tag_clause (Some t) e = true.
Proof.
  intros Hne Hn. unfold tag_clause, reads_chars, column_like.
  destruct t as [|c t]; [congruence|]. cbn [truthy_str].
  destruct (tags e) as [s|]; [|discriminate].
  now apply like_contains_characters_exact.
Qed.

Lemma reads_chars_nocase_ascii t (e : JournalEntry) :
  t <> EmptyString -> ascii_text t = true ->
  reads_chars_nocase t e = reads_tag_nocase t e.
Proof.
  intros Hne Ha. unfold reads_chars_nocase, reads_tag_nocase.
  destruct (tags e) as [s|]; [|reflexivity].
  now apply occurs_ascii_nocase.
Qed.

Lemma reads_chars_ascii t (e : JournalEntry) :
  t <> EmptyString -> ascii_text t = true ->
  reads_chars t e = reads_tag t e.
Proof.
  intros Hne Ha. unfold reads_chars, reads_tag.
  destruct (tags e) as [s|]; [|reflexivity].
  now apply occurs_ascii_exact.
Qed.

Lemma reads_tag_nocase_nul_free t (e : JournalEntry) :
  (forall s, tags e = Some s -> nul_free s = true) ->
  reads_tag_nocase t e = has_tag_nocase t e.
Proof.
  intros H. unfold reads_tag_nocase, has_tag_nocase.
  destruct (tags e) as [s|]; [|reflexivity].
  now rewrite c_str_nul_free by now apply H.
Qed.

Lemma reads_tag_nul_free t (e : JournalEntry) :
  (forall s, tags e = Some s -> nul_free s = true) ->
  reads_tag t e = has_tag t e.
Proof.
  intros H. unfold reads_tag, has_tag.
  destruct (tags e) as [s|]; [|reflexivity].
  now rewrite c_str_nul_free by now apply H.
Qed.

End Like.

(** C7, as the code has it.  For a non-empty tag filter of at most 49998
    bytes that contains no NUL, no [%] and no [_], the listing is exactly
    the user's entries, within the date bounds, among whose [tags], read
    up to their first NUL character if they have one, the characters of
    the filter occur one after the other, where two characters are the
    same when the database reads them as equal or as an ASCII letter in
    its two cases.  For a filter of ASCII characters that is: whose tags
    contain the filter as a substring up to the case of ASCII letters.
    [get_user_entries] returns all of the listing when it skips nothing
    and its limit reaches the end, and in general the slice that a
    non-negative [skip] and [limit] below 2^63 select.  Tags without a NUL
    are read to their end, and an exact occurrence is one up to letter
    case.  The filter "work" matches the tags "work,urgent" and the tags
    "homework". *)
Theorem tag_filter_listing
    (db : Store) (uid : string) (from_date to_date : option date)
    (t : string) :
  t <> EmptyString -> wildcard_free t = true -> nul_free t = true ->
  Z.of_nat (String.length t) <= 49998 ->
  let listing := list_all db uid from_date to_date (Some t) in
  (forall e, In e listing
             <-> In e db /\ user_id e = uid
                 /\ within from_date to_date (entry_date e)
                 /\ reads_chars_nocase t e = true)
  /\ Permutation listing
       (filter (fun e => user_is uid e && in_range from_date to_date e
                         && reads_chars_nocase t e) db)
  /\ (forall L, Z.of_nat (List.length listing) <= L < 2 ^ 63 ->
        get_user_entries db uid 0 L from_date to_date (Some t) = Ok listing)
  /\ (forall S L, 0 <= S < 2 ^ 63 -> 0 <= L < 2 ^ 63 ->
        get_user_entries db uid S L from_date to_date (Some t)
        = Ok (slice S L listing))
  /\ (ascii_text t = true ->
      forall e, reads_chars_nocase t e = reads_tag_nocase t e)
  /\ (forall e, (forall s, tags e = Some s -> nul_free s = true) ->
                reads_tag_nocase t e = has_tag_nocase t e)
  /\ (forall e, has_tag t e = true -> has_tag_nocase t e = true)
  /\ column_like (Some "work,urgent"%string) ("%" ++ "work" ++ "%") = true
  /\ column_like (Some "homework"%string) ("%" ++ "work" ++ "%") = true.
Proof.
  intros Hne Hw Hn Hlen listing. subst listing.
  pose proof (like_pattern_fits_short t Hlen) as Hfits.
  split; [|split; [|split; [|split; [|split; [|split; [|split]]]]]].
  - intros e. rewrite list_all_In, in_range_within.
    now rewrite tag_clause_nocase.
  - rewrite list_all_perm.
    erewrite filter_ext; [reflexivity|].
    intros e. now rewrite tag_clause_nocase.
  - intros L HL. rewrite get_user_entries_Ok by (assumption || lia).
    f_equal. apply entries_page_uncut. lia.
  - intros S L HS HL. rewrite get_user_entries_Ok by (assumption || lia).
    f_equal. rewrite list_all_execute. apply entries_page_slice. lia.
  - intros Ha e. now apply reads_chars_nocase_ascii.
  - intros e. apply reads_tag_nocase_nul_free.
  - intros e. unfold has_tag, has_tag_nocase.
    destruct (tags e); [apply is_substring_nocase_of_exact | congruence].
  - split; vm_compute; reflexivity.
Qed.

Lemma tag_filter_listing_witness :
  "work"%string <> EmptyString
  /\ wildcard_free "work" = true
  /\ nul_free "work" = true
  /\ Z.of_nat (String.length "work") <= 49998
  /\ (forall e,
        In e (list_all Sample.db4 "alice" None None (Some "work"%string))
        <-> In e Sample.db4 /\ user_id e = "alice"%string
            /\ within None None (entry_date e)
            /\ reads_chars_nocase "work" e = true)
  /\ get_user_entries Sample.db4 "alice" 0 100 None None
       (Some "work"%string)
     = Ok [Sample.jan20; Sample.jan5].
Proof.
  split; [discriminate|]. split; [reflexivity|]. split; [reflexivity|].
  split; [simpl; lia|].
  destruct (tag_filter_listing Sample.db4 "alice" None None "work")
    as (Hexact & _ & Hall & _);
    [discriminate | reflexivity | reflexivity | simpl; lia |].
  split; [exact Hexact|].
  apply (Hall 100). vm_compute. split; [discriminate | reflexivity].
Defined.

(** C7 as stated fails, in five ways.  The filter "HOME" is not a substring
    of the tags "homework", and the filter "u_g" is not a substring of
    "work,urgent", yet both entries are listed.  The entry whose tags are
    "a", NUL, "work" contains "work" and is not listed.  The entry tagged
    with the character U+FFFF is listed for the filter U+FFFE, which the
    database reads as the same character.  And with a filter of 49999
    bytes, which no entry contains, the call does not return the empty
    listing: the database refuses the pattern. *)
Lemma tag_filter_not_exact_substring :
  get_user_entries Sample.db4 "alice" 0 100 None None (Some "HOME"%string)
  = Ok [Sample.jan20]
  /\ has_tag "HOME" Sample.jan20 = false
  /\ get_user_entries Sample.db4 "alice" 0 100 None None (Some "u_g"%string)
     = Ok [Sample.jan5]
  /\ has_tag "u_g" Sample.jan5 = false
  /\ get_user_entries [Sample.after_nul] "alice" 0 100 None None
       (Some "work"%string)
     = Ok []
  /\ has_tag "work" Sample.after_nul = true
  /\ get_user_entries [Sample.noncharacter] "alice" 0 100 None None
       (Some Sample.u_fffe)
     = Ok [Sample.noncharacter]
  /\ has_tag Sample.u_fffe Sample.noncharacter = false
  /\ has_tag_nocase Sample.u_fffe Sample.noncharacter = false
  /\ Z.of_nat (String.length Sample.long_filter) = 49999
  /\ wildcard_free Sample.long_filter = true
  /\ nul_free Sample.long_filter = true
  /\ get_user_entries Sample.db4 "alice" 0 100 None None
       (Some Sample.long_filter)
     = Raise OperationalError.
Proof.
  do 12 (split; [vm_compute; reflexivity|]). vm_compute. reflexivity.
Qed.

(** ** Statistics aggregator *)

Section Aggregates.

Implicit Types (db rows : list JournalEntry) (e : JournalEntry) (d : date).

Lemma avg_step_fold (col : list (option Z)) (total cnt : Z) :
  fold_left avg_step col (total, cnt)
  = (total + fold_right Z.add 0 (non_null col),
     cnt + Z.of_nat (List.length (non_null col))).
Proof.
  revert total cnt. induction col as [|[v|] col IH]; intros total cnt.
  - simpl. f_equal; lia.
  - cbn [fold_left avg_step non_null fst snd]. rewrite IH.
    cbn [fold_right List.length]. f_equal; lia.
  - cbn [fold_left avg_step non_null]. apply IH.
Qed.

(** AVG is the arithmetic mean of the non-null values, and NULL when there
    are none. *)
Lemma func_avg_mean (col : list (option Z)) :
  func_avg col
  = match non_null col with
    | [] => None
    | _ :: _ => Some (mean (non_null col))
    end.
Proof.
  unfold func_avg. rewrite avg_step_fold, !Z.add_0_l.
  destruct (non_null col) as [|v vs] eqn:E.
  - reflexivity.
  - destruct (Z.ltb_spec 0 (Z.of_nat (List.length (v :: vs)))) as [_|H].
    + reflexivity.
    + simpl List.length in H. lia.
Qed.

Lemma non_null_isnot_none (field : JournalEntry -> option Z)
    (p : JournalEntry -> bool) rows :
  non_null (map field (filter (fun e => p e && isnot_none (field e)) rows))
  = non_null (map field (filter p rows)).
Proof.
  induction rows as [|e rows IH]; simpl; [reflexivity|].
  destruct (p e); simpl; [|assumption].
  destruct (field e) eqn:F; simpl; rewrite ?F, IH; reflexivity.
Qed.

Lemma avg_query_mean (field : JournalEntry -> option Z) db uid month_start :
  avg_query field db uid month_start
  = match values_since field db uid month_start with
    | [] => None
    | _ :: _ => Some (mean (values_since field db uid month_start))
    end.
Proof.
  unfold avg_query, values_since, date_geb.
  rewrite func_avg_mean.
  now rewrite (non_null_isnot_none field
    (fun e => user_is uid e && date_leb month_start (entry_date e))).
Qed.

(** *** Grouping by date *)

Lemma insert_date_In d x (l : list date) :
  In x (insert_date d l) <-> x = d \/ In x l.
Proof.
  induction l as [|y l IH]; simpl.
  - intuition.
  - destruct (date_cmp d y) eqn:C; simpl.
    + apply date_cmp_eq in C. subst. intuition.
    + intuition.
    + rewrite IH. intuition.
Qed.

Lemma insert_date_sorted d (l : list date) :
  StronglySorted date_lt l -> StronglySorted date_lt (insert_date d l).
Proof.
  induction l as [|y l IH]; simpl; intros Hs.
  - repeat constructor.
  - inversion Hs as [|? ? Hl Hall]; subst.
    destruct (date_cmp d y) eqn:C.
    + assumption.
    + constructor; [assumption|].
      assert (Hdy : date_lt d y) by (unfold date_lt, date_ltb; now rewrite C).
      constructor; [assumption|].
      rewrite Forall_forall in Hall |- *. intros z Hz.
      unfold date_lt in *. eapply date_ltb_trans; [exact Hdy | now apply Hall].
    + constructor; [now apply IH|].
      rewrite Forall_forall in Hall |- *. intros z Hz.
      apply insert_date_In in Hz. destruct Hz as [-> | Hz]; [|now apply Hall].
      unfold date_lt, date_ltb. rewrite (date_cmp_antisym d y), C.
      reflexivity.
Qed.

Lemma group_keys_In rows d :
  In d (group_keys rows) <-> exists e, In e rows /\ entry_date e = d.
Proof.
  unfold group_keys. induction rows as [|a rows IH]; simpl.
  - split; [tauto | intros [e [[] _]]].
  - rewrite insert_date_In, IH. split.
    + intros [-> | [e [Hin He]]]; [exists a; auto | exists e; auto].
    + intros [e [[<- | Hin] He]]; [left; now symmetry | right; exists e; auto].
Qed.

Lemma group_keys_sorted rows : StronglySorted date_lt (group_keys rows).
Proof.
  unfold group_keys. induction rows as [|a rows IH]; simpl.
  - constructor.
  - now apply insert_date_sorted.
Qed.

Lemma build_trend_map (dates : list date) (avg : date -> option Q)
    (pt : date -> TrendPoint) :
  (forall d, In d dates ->
     exists q, avg d = Some q /\ pt d = mkPoint (isoformat d) q) ->
  build_trend (map (fun d => (d, avg d)) dates) = Some (map pt dates).
Proof.
  induction dates as [|d dates IH]; intros H; simpl; [reflexivity|].
  destruct (H d (or_introl eq_refl)) as [q [Hq Hp]].
  rewrite Hq, IH, Hp; [reflexivity|].
  intros d' Hd'. apply H. now right.
Qed.

Lemma non_null_nonempty (field : JournalEntry -> option Z) rows e :
  In e rows -> field e <> None -> non_null (map field rows) <> [].
Proof.
  induction rows as [|a rows IH]; simpl; intros Hin Hf; [contradiction|].
  destruct (field a) eqn:F; [discriminate|].
  destruct Hin as [-> | Hin]; [congruence | now apply IH].
Qed.

Lemma isnot_none_true {A} (v : option A) : isnot_none v = true <-> v <> None.
Proof. destruct v; simpl; split; congruence. Qed.

(** The rows of one group of the trend query carry the non-null moods of
    the user's entries of that date. *)
Lemma trend_group_moods db uid since d :
  date_le since d ->
  non_null
    (map mood_rating
       (filter (fun e => date_eqb (entry_date e) d)
          (filter (fun e => user_is uid e && date_geb (entry_date e) since
                            && isnot_none (mood_rating e)) db)))
  = moods_on db uid d.
Proof.
  intros Hle. unfold moods_on.
  rewrite <- (non_null_isnot_none mood_rating
    (fun e => user_is uid e && date_eqb (entry_date e) d)).
  f_equal. f_equal. rewrite <- filter_conj. apply filter_ext. intros e.
  destruct (date_eqb (entry_date e) d) eqn:E.
  - apply date_eqb_eq in E. rewrite E. unfold date_geb.
    unfold date_le in Hle. rewrite Hle.
    now rewrite !andb_true_r.
  - now rewrite !andb_false_r, andb_false_l.
Qed.

End Aggregates.

Section Statistics.

Implicit Types (db rows : list JournalEntry) (e : JournalEntry) (d : date).

Lemma trend_query_built db uid since :
  build_trend (trend_query db uid since)
  = Some (map (trend_point db uid) (group_keys (trend_rows db uid since))).
Proof.
  unfold trend_query, group_by_entry_date. fold (trend_rows db uid since).
  rewrite map_map. cbn [fst snd].
  apply (build_trend_map _
    (fun d => func_avg (map mood_rating
       (filter (fun e => date_eqb (entry_date e) d)
               (trend_rows db uid since))))).
  intros d Hd. apply group_keys_In in Hd. destruct Hd as [e [Hin Hd]].
  apply filter_In in Hin. destruct Hin as [Hin Hb].
  apply andb_true_iff in Hb. destruct Hb as [Hb Hm].
  apply andb_true_iff in Hb. destruct Hb as [Hu Hs].
  assert (Hle : date_le since d) by (now rewrite <- Hd).
  exists (mean (moods_on db uid d)). split; [|reflexivity].
  rewrite func_avg_mean. unfold trend_rows.
  rewrite trend_group_moods by assumption.
  destruct (moods_on db uid d) eqn:E; [|reflexivity].
  exfalso. revert E. unfold moods_on. apply non_null_nonempty with e.
  - apply filter_In. split; [assumption|].
    rewrite Hu, Hd. now rewrite date_eqb_refl.
  - now apply isnot_none_true.
Qed.

Lemma trend_rows_In db uid since e :
  In e (trend_rows db uid since)
  <-> In e db /\ user_id e = uid /\ date_le since (entry_date e)
      /\ mood_rating e <> None.
Proof.
  unfold trend_rows. rewrite filter_In, !andb_true_iff.
  unfold user_is, date_geb, date_le.
  rewrite String.eqb_eq, isnot_none_true. tauto.
Qed.

Lemma or_0_id (n : Z) : or_0 n = n.
Proof. unfold or_0. destruct (Z.eqb_spec n 0); congruence. Qed.

(** [get_user_stats] returns whenever the date 30 days back exists. *)
Lemma get_user_stats_Ok db uid as_of since :
  sub_days as_of 30 = Some since ->
  get_user_stats db uid as_of
  = Ok {| total_entries := func_count (filter (user_is uid) db);
          entries_this_month :=
            func_count (month_query db uid (first_of_month as_of));
          average_mood_this_month :=
            rounded_or_none
              (avg_query mood_rating db uid (first_of_month as_of));
          average_energy_this_month :=
            rounded_or_none
              (avg_query energy_level db uid (first_of_month as_of));
          most_used_tags := [];
          mood_trend :=
            map (trend_point db uid)
                (group_keys (trend_rows db uid since)) |}.
Proof.
  intros Hs. unfold get_user_stats. rewrite Hs, trend_query_built.
  now rewrite !or_0_id.
Qed.

(** *** Rounding *)

Lemma round_half_even_near (q : Q) :
  (Qabs (inject_Z (round_half_even q) - q) <= 1 # 2)%Q.
Proof.
  unfold round_half_even.
  pose proof (Qfloor_le q) as Hlo.
  pose proof (Qlt_floor q) as Hhi.
  rewrite inject_Z_plus in Hhi. change (inject_Z 1) with 1%Q in Hhi.
  apply Qabs_Qle_condition.
  destruct (q - inject_Z (Qfloor q) ?= 1 # 2)%Q eqn:C.
  - apply Qeq_alt in C. destruct (Z.even (Qfloor q));
      rewrite ?inject_Z_plus; change (inject_Z 1) with 1%Q; split; lra.
  - apply Qlt_alt in C. split; lra.
  - apply Qgt_alt in C. rewrite inject_Z_plus.
    change (inject_Z 1) with 1%Q. split; lra.
Qed.

Lemma round2_near (q : Q) : (Qabs (round2 q - q) <= 1 # 200)%Q.
Proof.
  unfold round2.
  pose proof (round_half_even_near (q * 100)) as H.
  apply Qabs_Qle_condition in H. apply Qabs_Qle_condition.
  set (k := inject_Z (round_half_even (q * 100))) in *.
  assert (E : (k / 100 == k * (1 # 100))%Q) by (unfold Qdiv; reflexivity).
  rewrite E. split; lra.
Qed.

(** *** Ratings of a valid table *)

Lemma values_since_ok (field : JournalEntry -> option Z) db uid month_start :
  (forall e, valid_entry e = true -> rating_ok (field e) = true) ->
  valid_store db ->
  Forall (fun v => 1 <= v <= 10) (values_since field db uid month_start).
Proof.
  intros Hf Hv. unfold values_since.
  induction Hv as [|e db He Hdb IH]; simpl; [constructor|].
  destruct (user_is uid e && date_leb month_start (entry_date e));
    [|assumption].
  simpl. specialize (Hf e He). destruct (field e) as [v|]; [|assumption].
  constructor; [|assumption].
  simpl in Hf. apply andb_true_iff in Hf. lia.
Qed.

Lemma sum_ge_length (vs : list Z) :
  Forall (fun v => 1 <= v <= 10) vs ->
  Z.of_nat (List.length vs) <= fold_right Z.add 0 vs.
Proof.
  induction 1 as [|v vs Hv _ IH]; simpl List.length; simpl fold_right; lia.
Qed.

Lemma mean_positive (vs : list Z) :
  vs <> [] -> Forall (fun v => 1 <= v <= 10) vs -> (0 < mean vs)%Q.
Proof.
  intros Hne Hall. unfold mean.
  pose proof (sum_ge_length vs Hall) as Hsum.
  assert (Hlen : 0 < Z.of_nat (List.length vs)).
  { destruct vs; [congruence | simpl List.length; lia]. }
  apply Qlt_shift_div_l.
  - replace 0%Q with (inject_Z 0) by reflexivity.
    rewrite <- Zlt_Qlt. exact Hlen.
  - rewrite Qmult_0_l. replace 0%Q with (inject_Z 0) by reflexivity.
    rewrite <- Zlt_Qlt. lia.
Qed.

Lemma sum_le_ten (vs : list Z) :
  Forall (fun v => 1 <= v <= 10) vs ->
  fold_right Z.add 0 vs <= 10 * Z.of_nat (List.length vs).
Proof.
  induction 1 as [|v vs Hv _ IH]; simpl List.length; simpl fold_right; lia.
Qed.

Lemma mean_on_scale (vs : list Z) :
  vs <> [] -> Forall (fun v => 1 <= v <= 10) vs -> on_scale (mean vs).
Proof.
  intros Hne Hall. unfold on_scale, mean.
  pose proof (sum_ge_length vs Hall) as Hlo.
  pose proof (sum_le_ten vs Hall) as Hhi.
  assert (Hlen : 0 < Z.of_nat (List.length vs)).
  { destruct vs; [congruence | simpl List.length; lia]. }
  assert (Hpos : (0 < inject_Z (Z.of_nat (List.length vs)))%Q).
  { replace 0%Q with (inject_Z 0) by reflexivity. now rewrite <- Zlt_Qlt. }
  split.
  - apply Qle_shift_div_l; [assumption|]. rewrite Qmult_1_l.
    now rewrite <- Zle_Qle.
  - apply Qle_shift_div_r; [assumption|].
    replace 10%Q with (inject_Z 10) by reflexivity.
    rewrite <- inject_Z_mult, <- Zle_Qle. assumption.
Qed.

(** Rounding to hundredths does not leave the scale. *)
Lemma round2_on_scale (q : Q) : on_scale q -> on_scale (round2 q).
Proof.
  unfold on_scale. intros [Hlo Hhi].
  pose proof (round2_near q) as Hn. apply Qabs_Qle_condition in Hn.
  unfold round2 in *.
  set (k := round_half_even (q * 100)) in *.
  assert (E : (inject_Z k / 100 == inject_Z k * (1 # 100))%Q)
    by (unfold Qdiv; reflexivity).
  rewrite E in Hn |- *.
  assert (H1 : (199 # 200 <= inject_Z k * (1 # 100))%Q) by lra.
  assert (H2 : (inject_Z k * (1 # 100) <= 2001 # 200)%Q) by lra.
  unfold Qle in H1, H2 |- *. simpl in *. split; lia.
Qed.

Lemma round_half_even_ge (a : Z) (q : Q) :
  (inject_Z a <= q)%Q -> a <= round_half_even q.
Proof.
  intros H. apply Qfloor_resp_le in H. rewrite Qfloor_Z in H.
  unfold round_half_even.
  destruct (q - inject_Z (Qfloor q) ?= 1 # 2)%Q; [destruct (Z.even _)| |]; lia.
Qed.

Lemma round_half_even_le (q : Q) (b : Z) :
  (q <= inject_Z b)%Q -> round_half_even q <= b.
Proof.
  intros H. pose proof (Qfloor_resp_le _ _ H) as Hf. rewrite Qfloor_Z in Hf.
  pose proof (Qfloor_le q) as Hlo.
  assert (Hcase : Qfloor q < b \/ (q - inject_Z (Qfloor q) == 0)%Q).
  { destruct (Z.eq_dec (Qfloor q) b) as [E|N]; [right | left; lia].
    rewrite E in *. lra. }
  unfold round_half_even.
  destruct (q - inject_Z (Qfloor q) ?= 1 # 2)%Q eqn:C.
  - apply Qeq_alt in C. destruct Hcase as [Hc|Hc]; [destruct (Z.even _); lia|].
    rewrite Hc in C. discriminate.
  - lia.
  - apply Qgt_alt in C. destruct Hcase as [Hc|Hc]; [lia|].
    rewrite Hc in C. exfalso. revert C. apply Qle_not_lt. discriminate.
Qed.

Lemma float_of_pos (q : Q) :
  (0 < q)%Q ->
  float_of q
  = (inject_Z (round_half_even (q / pow2 (ilog2 q - 52)))
     * pow2 (ilog2 q - 52))%Q.
Proof.
  intros H. unfold float_of. apply Qgt_alt in H. now rewrite H.
Qed.

Lemma ilog2_on_scale (q : Q) : on_scale q -> ilog2 q <= 4.
Proof.
  intros [Hlo Hhi]. unfold ilog2.
  assert (Hk : Z.log2 (Qnum q) - Z.log2 (Zpos (Qden q)) <= 4).
  { destruct q as [n d]. cbn [Qnum Qden]. unfold Qle in Hhi, Hlo.
    cbn in Hhi, Hlo.
    assert (Hn : n <= Zpos d * 2 ^ 4) by lia.
    apply Z.log2_le_mono in Hn.
    rewrite Z.log2_mul_pow2 in Hn by lia. lia. }
  destruct (Qle_bool _ _); lia.
Qed.

Lemma pow2_neg (e : Z) :
  e < 0 -> pow2 e = (1 / inject_Z (2 ^ (- e)))%Q.
Proof. intros H. unfold pow2. destruct (Z.leb_spec 0 e); [lia | reflexivity]. Qed.

(** Taken to the nearest double, a value on the scale 1..10 stays on it
    and moves by at most 2^-49. *)
Lemma float_of_on_scale (q : Q) :
  on_scale q ->
  on_scale (float_of q) /\ (Qabs (float_of q - q) <= 1 # 2 ^ 49)%Q.
Proof.
  intros Hq. pose proof (ilog2_on_scale q Hq) as He.
  destruct Hq as [Hlo Hhi].
  rewrite float_of_pos by lra.
  set (e := ilog2 q - 52) in *.
  assert (Hneg : e <= -48) by (subst e; lia).
  rewrite pow2_neg by lia.
  set (P := 2 ^ (- e)).
  assert (HP : 2 ^ 48 <= P) by (subst P; apply Z.pow_le_mono_r; lia).
  assert (HPq : (inject_Z (2 ^ 48) <= inject_Z P)%Q) by (now rewrite <- Zle_Qle).
  assert (HP0 : (0 < inject_Z P)%Q).
  { replace 0%Q with (inject_Z 0) by reflexivity. rewrite <- Zlt_Qlt. lia. }
  assert (Ex : (q / (1 / inject_Z P) == q * inject_Z P)%Q).
  { field. lra. }
  set (x := (q / (1 / inject_Z P))%Q) in *.
  pose proof (round_half_even_near x) as Hn.
  apply Qabs_Qle_condition in Hn.
  assert (H1 : P <= round_half_even x).
  { apply round_half_even_ge. rewrite Ex. nra. }
  assert (H10 : round_half_even x <= 10 * P).
  { apply round_half_even_le. rewrite Ex, inject_Z_mult.
    change (inject_Z 10) with 10%Q. nra. }
  rewrite Zle_Qle in H1, H10. rewrite inject_Z_mult in H10.
  change (inject_Z 10) with 10%Q in H10.
  set (m := inject_Z (round_half_even x)) in *.
  assert (Em : (m * (1 / inject_Z P) == m / inject_Z P)%Q) by (field; lra).
  split.
  - unfold on_scale. rewrite Em. split.
    + apply Qle_shift_div_l; lra.
    + apply Qle_shift_div_r; lra.
  - apply Qabs_Qle_condition. rewrite Em.
    assert (Eq1 : (m / inject_Z P - q == (m - x) / inject_Z P)%Q).
    { rewrite Ex. field. lra. }
    rewrite Eq1.
    assert (Hc : (inject_Z (2 ^ 48) == 281474976710656)%Q) by reflexivity.
    change (1 # 2 ^ 49)%Q with (1 # 562949953421312)%Q.
    rewrite Hc in HPq. fold m in Hn.
    split.
    + apply Qle_shift_div_l; [lra|]. lra.
    + apply Qle_shift_div_r; [lra|]. lra.
Qed.

Lemma round2_float_of_mean (s n : Z) :
  0 < n <= 2 ^ 40 ->
  on_scale (inject_Z s / inject_Z n) ->
  (Qabs (round2 (float_of (inject_Z s / inject_Z n))
         - inject_Z s / inject_Z n) <= 1 # 200)%Q.
Proof.
  intros Hn Hs.
  destruct (float_of_on_scale _ Hs) as [_ Hx].
  set (M := (inject_Z s / inject_Z n)%Q) in *.
  set (x := float_of M) in *.
  unfold round2.
  pose proof (round_half_even_near (x * 100)) as Hk.
  set (k := round_half_even (x * 100)) in *.
  apply Qabs_Qle_condition in Hx, Hk. apply Qabs_Qle_condition.
  change (1 # 2 ^ 49)%Q with (1 # 562949953421312)%Q in Hx.
  assert (HN0 : (0 < inject_Z n)%Q).
  { replace 0%Q with (inject_Z 0) by reflexivity. rewrite <- Zlt_Qlt. lia. }
  assert (HN : (inject_Z n <= 1099511627776)%Q).
  { change 1099511627776%Q with (inject_Z (2 ^ 40)). rewrite <- Zle_Qle. lia. }
  assert (EM : (M * inject_Z n == inject_Z s)%Q).
  { unfold M. field. lra. }
  assert (E : (inject_Z k / 100 == inject_Z k * (1 # 100))%Q)
    by (unfold Qdiv; reflexivity).
  rewrite E.
  assert (Hup : 2 * k * n <= 200 * s + n \/ 200 * s + n + 1 <= 2 * k * n)
    by lia.
  assert (Hdn : 200 * s <= 2 * k * n + n \/ 2 * k * n + n + 1 <= 200 * s)
    by lia.
  rewrite !Zle_Qle in Hup, Hdn.
  rewrite !inject_Z_plus, !inject_Z_mult in Hup, Hdn.
  change (inject_Z 2) with 2%Q in *. change (inject_Z 200) with 200%Q in *.
  change (inject_Z 1) with 1%Q in *.
  set (K := inject_Z k) in *. set (N := inject_Z n) in *.
  set (T := inject_Z s) in *.
  clearbody K N T x M. clear E Hs Hn.
  split.
  - destruct Hdn as [H|H].
    + assert (H' : (0 <= N * (2 * K + 1 - 200 * M))%Q) by lra.
      destruct (Qlt_le_dec (2 * K + 1 - 200 * M) 0) as [C|C]; [|lra].
      exfalso. nra.
    + exfalso.
      assert (H' : (1 <= N * (200 * M - 2 * K - 1))%Q) by lra.
      assert (H2 : (200 * M - 2 * K - 1 <= 200 # 562949953421312)%Q) by lra.
      assert (H3 : (N * (200 * M - 2 * K - 1)
                    <= N * (200 # 562949953421312))%Q) by nra.
      lra.
  - destruct Hup as [H|H].
    + assert (H' : (0 <= N * (200 * M + 1 - 2 * K))%Q) by lra.
      destruct (Qlt_le_dec (200 * M + 1 - 2 * K) 0) as [C|C]; [|lra].
      exfalso. nra.
    + exfalso.
      assert (H' : (1 <= N * (2 * K - 200 * M - 1))%Q) by lra.
      assert (H2 : (2 * K - 200 * M - 1 <= 200 # 562949953421312)%Q) by lra.
      assert (H3 : (N * (2 * K - 200 * M - 1)
                    <= N * (200 # 562949953421312))%Q) by nra.
      lra.
Qed.

Lemma float_of_stays_on_scale (q : Q) : on_scale q -> on_scale (float_of q).
Proof. intros H. now destruct (float_of_on_scale q H). Qed.

(** The monthly average of up to 2^40 ratings is a hundredth nearest to
    their mean: between the mean and the double that is rounded there is
    no room for a tie. *)
Lemma round2_float_of_mean_near (vs : list Z) :
  vs <> [] -> Forall (fun v => 1 <= v <= 10) vs ->
  Z.of_nat (List.length vs) <= 2 ^ 40 ->
  (Qabs (round2 (float_of (mean vs)) - mean vs) <= 1 # 200)%Q.
Proof.
  intros Hne Hall Hlen. unfold mean. apply round2_float_of_mean.
  - destruct vs; [congruence | simpl List.length in *; lia].
  - now apply mean_on_scale.
Qed.

Lemma rounded_average (field : JournalEntry -> option Z) db uid month_start :
  (forall e, valid_entry e = true -> rating_ok (field e) = true) ->
  valid_store db ->
  rounded_or_none (avg_query field db uid month_start)
  = expected_average (values_since field db uid month_start).
Proof.
  intros Hf Hv. rewrite avg_query_mean.
  pose proof (values_since_ok field db uid month_start Hf Hv) as Hall.
  destruct (values_since field db uid month_start) as [|v vs] eqn:E;
    [reflexivity|].
  simpl. destruct (Qeq_bool (mean (v :: vs)) 0) eqn:Z0; [|reflexivity].
  apply Qeq_bool_iff in Z0.
  assert (Hpos : (0 < mean (v :: vs))%Q)
    by (apply mean_positive; [discriminate | assumption]).
  rewrite Z0 in Hpos. exfalso. revert Hpos. apply Qlt_irrefl.
Qed.

Lemma valid_entry_mood e :
  valid_entry e = true -> rating_ok (mood_rating e) = true.
Proof. unfold valid_entry. rewrite andb_true_iff. tauto. Qed.

Lemma valid_entry_energy e :
  valid_entry e = true -> rating_ok (energy_level e) = true.
Proof. unfold valid_entry. rewrite andb_true_iff. tauto. Qed.

End Statistics.

Lemma sample_db4_valid : valid_store Sample.db4.
Proof. repeat constructor. Qed.

(** C6.  On a table whose ratings lie in 1..10, and for every date [as_of]
    from 0001-01-31 on, [get_user_stats] returns.  With [month_start] the
    first day of the calendar month that contains [as_of], its
    [average_mood_this_month] is null when the user has no entry dated
    [month_start] or later that carries a mood rating; otherwise it is the
    arithmetic mean of those ratings rounded to two decimals, as [round]
    does it on the double the database returns: a multiple of 1/100 on the
    scale 1..10 which, for up to 2^40 ratings, is within 1/200 of the mean.
    The same holds for [average_energy_this_month] and the energy levels.
    The double is within 2^-49 of the mean, and the rounded value within
    1/200 of the double. *)
Theorem monthly_averages
    (db : Store) (uid : string) (as_of : date) :
  valid_store db ->
  valid_date as_of -> 30 < toordinal as_of ->
  exists st month_start,
    get_user_stats db uid as_of = Ok st
    /\ (year month_start = year as_of /\ month month_start = month as_of
        /\ day month_start = 1 /\ valid_date month_start
        /\ date_le month_start as_of)
    /\ (let moods := values_since mood_rating db uid month_start in
        (moods = [] -> average_mood_this_month st = None)
        /\ (moods <> [] ->
            exists r,
              average_mood_this_month st = Some r
              /\ r = round2 (float_of (mean moods))
              /\ (exists k : Z, r = (inject_Z k / 100)%Q)
              /\ on_scale r
              /\ (Z.of_nat (List.length moods) <= 2 ^ 40 ->
                  (Qabs (r - mean moods) <= 1 # 200)%Q)))
    /\ (let levels := values_since energy_level db uid month_start in
        (levels = [] -> average_energy_this_month st = None)
        /\ (levels <> [] ->
            exists r,
              average_energy_this_month st = Some r
              /\ r = round2 (float_of (mean levels))
              /\ (exists k : Z, r = (inject_Z k / 100)%Q)
              /\ on_scale r
              /\ (Z.of_nat (List.length levels) <= 2 ^ 40 ->
                  (Qabs (r - mean levels) <= 1 # 200)%Q)))
    /\ (forall q : Q,
          on_scale q ->
          (Qabs (float_of q - q) <= 1 # 2 ^ 49)%Q
          /\ (Qabs (round2 (float_of q) - float_of q) <= 1 # 200)%Q).
Proof.
  intros Hv Hd Ho.
  destruct (sub_days_defined as_of 30 Hd ltac:(lia)) as [since Hs].
  eexists. exists (first_of_month as_of).
  split; [apply (get_user_stats_Ok _ _ _ _ Hs)|].
  split.
  { destruct (first_of_month_le as_of Hd) as [Hfv Hfl].
    split; [reflexivity|]. split; [reflexivity|]. split; [reflexivity|].
    split; assumption. }
  cbn [average_mood_this_month average_energy_this_month].
  assert (Hfield : forall field,
    (forall e, valid_entry e = true -> rating_ok (field e) = true) ->
    let vs := values_since field db uid (first_of_month as_of) in
    (vs = [] ->
     rounded_or_none (avg_query field db uid (first_of_month as_of)) = None)
    /\ (vs <> [] ->
        exists r,
          rounded_or_none (avg_query field db uid (first_of_month as_of))
          = Some r
          /\ r = round2 (float_of (mean vs))
          /\ (exists k : Z, r = (inject_Z k / 100)%Q)
          /\ on_scale r
          /\ (Z.of_nat (List.length vs) <= 2 ^ 40 ->
              (Qabs (r - mean vs) <= 1 # 200)%Q))).
  { intros field Hf vs. subst vs.
    rewrite (rounded_average field db uid _ Hf Hv).
    pose proof (values_since_ok field db uid (first_of_month as_of) Hf Hv)
      as Hall.
    destruct (values_since field db uid (first_of_month as_of))
      as [|v vs] eqn:E.
    - split; [reflexivity | congruence].
    - split; [discriminate|]. intros Hne.
      eexists. split; [reflexivity|]. split; [reflexivity|].
      split; [eexists; reflexivity|].
      split.
      + apply round2_on_scale, float_of_stays_on_scale, mean_on_scale;
          assumption.
      + intros Hlen. now apply round2_float_of_mean_near. }
  split; [apply Hfield, valid_entry_mood|].
  split; [apply Hfield, valid_entry_energy|].
  intros q Hq. split; [apply (float_of_on_scale q Hq) | apply round2_near].
Qed.

Lemma sample_as_of_valid : valid_date (mkdate 2024 1 31).
Proof. unfold valid_date; cbn; lia. Qed.

Lemma monthly_averages_witness :
  valid_store Sample.db4
  /\ valid_date (mkdate 2024 1 31)
  /\ 30 < toordinal (mkdate 2024 1 31)
  /\ exists st,
       get_user_stats Sample.db4 "alice" (mkdate 2024 1 31) = Ok st
       /\ average_mood_this_month st = Some (567 # 100)%Q
       /\ average_energy_this_month st = Some (300 # 100)%Q.
Proof.
  split; [exact sample_db4_valid|].
  split; [exact sample_as_of_valid|].
  split; [reflexivity|].
  destruct (monthly_averages Sample.db4 "alice" (mkdate 2024 1 31)
              sample_db4_valid sample_as_of_valid eq_refl)
    as (st & month_start & Hst & _).
  exists st. split; [exact Hst|].
  vm_compute in Hst. inversion Hst. split; reflexivity.
Defined.

(** What the trend query selects.  For every date [as_of] from 0001-01-31
    on, [get_user_stats] returns, and with [since] the date 30 days before
    [as_of] its [mood_trend] has one point per date on which the user has
    an entry with a mood rating and an [entry_date] on or after [since]:
    the query bounds the dates from below only.  The point of a date
    carries the date in ISO format and the arithmetic mean of the mood
    ratings of the user's entries of that date; dates without such an entry
    have no point; the points are in ascending order of date. *)
Theorem mood_trend_spec
    (db : Store) (uid : string) (as_of : date) :
  valid_date as_of -> 30 < toordinal as_of ->
  exists st since dates,
    get_user_stats db uid as_of = Ok st
    /\ (sub_days as_of 30 = Some since
        /\ toordinal since = toordinal as_of - 30
        /\ forall d, valid_date d ->
             (date_le since d <-> toordinal as_of - 30 <= toordinal d))
    /\ mood_trend st = map (trend_point db uid) dates
    /\ StronglySorted date_lt dates
    /\ (forall d,
          In d dates
          <-> exists e, In e db /\ user_id e = uid /\ entry_date e = d
                        /\ mood_rating e <> None /\ date_le since d)
    /\ (forall d,
          In d dates ->
          moods_on db uid d <> []
          /\ trend_point db uid d
             = mkPoint (isoformat d) (mean (moods_on db uid d))).
Proof.
  intros Hv Ho.
  destruct (sub_days_defined as_of 30 Hv ltac:(lia)) as [since Hs].
  eexists. exists since, (group_keys (trend_rows db uid since)).
  split; [apply (get_user_stats_Ok _ _ _ _ Hs)|].
  split.
  { split; [assumption|]. split.
    - now destruct (sub_days_ordinal _ _ _ Hs).
    - intros d Hd. now apply since_window. }
  split; [reflexivity|].
  split; [apply group_keys_sorted|].
  assert (Hkeys : forall d,
    In d (group_keys (trend_rows db uid since))
    <-> exists e, In e db /\ user_id e = uid /\ entry_date e = d
                  /\ mood_rating e <> None /\ date_le since d).
  { intros d. rewrite group_keys_In. split.
    - intros [e [Hin Hd]]. apply trend_rows_In in Hin.
      exists e. rewrite <- Hd. tauto.
    - intros [e (Hin & Hu & Hd & Hm & Hle)]. exists e.
      split; [|assumption]. apply trend_rows_In. rewrite Hd. tauto. }
  split; [exact Hkeys|].
  intros d Hd. split; [|reflexivity].
  apply Hkeys in Hd. destruct Hd as [e (Hin & Hu & Hd & Hm & Hle)].
  unfold moods_on. apply non_null_nonempty with e; [|assumption].
  apply filter_In. split; [assumption|].
  unfold user_is. apply String.eqb_eq in Hu. rewrite Hu, Hd.
  now rewrite date_eqb_refl.
Qed.

Lemma mood_trend_spec_witness :
  valid_date (mkdate 2024 1 31)
  /\ 30 < toordinal (mkdate 2024 1 31)
  /\ exists st,
       get_user_stats Sample.db3 "alice" (mkdate 2024 1 31) = Ok st
       /\ mood_trend st
          = [mkPoint "2024-01-05" 8; mkPoint "2024-01-20" 4].
Proof.
  split; [exact sample_as_of_valid|].
  split; [reflexivity|].
  destruct (mood_trend_spec Sample.db3 "alice" (mkdate 2024 1 31)
              sample_as_of_valid eq_refl)
    as (st & since & dates & Hst & _).
  exists st. split; [exact Hst|].
  vm_compute in Hst. inversion Hst. reflexivity.
Defined.

(** C2.  The trend is to cover the window [as_of - 30 days, as_of], "the
    last 30 days" in the words of the code's own comment, and no entry
    dated outside it may contribute a point.  The code breaks this: for
    [as_of] = 2024-01-31 the entry dated 2024-03-01, after [as_of], gives
    the third point of the trend. *)
Lemma mood_trend_counts_later_entries :
  exists st,
    get_user_stats Sample.db4 "alice" (mkdate 2024 1 31) = Ok st
    /\ mood_trend st
       = [mkPoint "2024-01-05" 8; mkPoint "2024-01-20" 4;
          mkPoint "2024-03-01" 5]
    /\ In Sample.mar1 Sample.db4
    /\ isoformat (entry_date Sample.mar1) = "2024-03-01"%string
    /\ date_lt (mkdate 2024 1 31) (entry_date Sample.mar1).
Proof.
  eexists. split; [vm_compute; reflexivity|].
  split; [reflexivity|]. split; [simpl; tauto|].
  split; reflexivity.
Qed.

(** ** The ratings invariant, and the scenarios of the specification *)

Section Invariants.

Implicit Types (db : Store) (e : JournalEntry).

(** Requests that pass the schema keep the ratings of the table in
    1..10. *)
Lemma create_entry_valid db new_id now uid data :
  valid_store db -> valid_create data = true ->
  valid_store (fst (create_entry db new_id now uid data)).
Proof.
  intros Hv Hc. unfold create_entry.
  destruct (id_in db new_id); simpl; [assumption|].
  apply Forall_app. split; [assumption|].
  constructor; [|constructor].
  unfold valid_create in Hc. unfold valid_entry; simpl.
  repeat (apply andb_true_iff in Hc; destruct Hc as [Hc ?]).
  now apply andb_true_iff.
Qed.

Lemma write_row_valid db row :
  valid_store db -> valid_entry row = true -> valid_store (write_row db row).
Proof.
  intros Hv Hr. unfold write_row, valid_store.
  apply Forall_map. apply Forall_impl with (2 := Hv).
  intros a Ha. now destruct (String.eqb (id a) (id row)).
Qed.

Lemma update_entry_valid db now uid eid upd :
  valid_store db -> valid_update upd = true ->
  valid_store (fst (update_entry db now uid eid upd)).
Proof.
  intros Hv Hu. unfold update_entry.
  destruct (get_entry db uid eid) as [[prior|]|] eqn:G; simpl;
    try assumption.
  destruct (flush _) as [row|] eqn:F; simpl; [|assumption].
  apply write_row_valid; [assumption|].
  apply get_entry_Some in G. destruct G as (Hin & _ & _).
  assert (Hp : valid_entry prior = true).
  { unfold valid_store in Hv. rewrite Forall_forall in Hv. now apply Hv. }
  rewrite setattr_loop in F. unfold flush, set_updated_at, load in F.
  simpl in F.
  destruct (supplied_or (u_title upd) (Some (title prior))); [|discriminate].
  destruct (supplied_or (u_content upd) (Some (content prior)));
    [|discriminate].
  destruct (supplied_or (u_entry_date upd) (Some (entry_date prior)));
    [|discriminate].
  inversion F; subst; clear F.
  unfold valid_entry in *; simpl.
  unfold valid_update in Hu.
  repeat (apply andb_true_iff in Hu; destruct Hu as [Hu ?]).
  apply andb_true_iff in Hp. destruct Hp as [Hpm Hpe].
  apply andb_true_iff. split.
  - destruct (u_mood_rating upd); simpl; assumption.
  - destruct (u_energy_level upd); simpl; assumption.
Qed.

Lemma delete_entry_valid db uid eid :
  valid_store db -> valid_store (fst (delete_entry db uid eid)).
Proof.
  intros Hv. unfold delete_entry.
  destruct (get_entry db uid eid) as [[entry|]|]; simpl; try assumption.
  unfold delete_row, valid_store in *. rewrite Forall_forall in *.
  intros x Hx. apply filter_In in Hx. now apply Hv.
Qed.

End Invariants.

(** The statistics of a user without entries. *)
Example stats_of_no_entries :
  get_user_stats Sample.db3 "carol" (mkdate 2024 1 31)
  = Ok (mkStats 0 0 None None [] []).
Proof. reflexivity. Qed.

(** Entries of 2024-01-05 (mood 8) and 2024-01-20 (mood 4), seen from
    2024-01-31. *)
Example stats_of_january :
  get_user_stats [Sample.jan5; Sample.jan20] "alice" (mkdate 2024 1 31)
  = Ok (mkStats 2 2 (Some (600 # 100)%Q) (Some (300 # 100)%Q) []
          [mkPoint "2024-01-05" 8; mkPoint "2024-01-20" 4]).
Proof. vm_compute. reflexivity. Qed.

(** A null title passes the update schema and fails at the NOT NULL
    column; the table keeps its rows. *)
Example update_with_null_title :
  update_entry Sample.db3 500 "alice" "e-1"
    (mkUpdate (Some None) None None None None None)
  = (Sample.db3, Raise IntegrityError).
Proof. reflexivity. Qed.

(** * Further properties of the service *)

(** ** What the store operations leave alone *)

Section StoreFrames.

Implicit Types (db : Store) (r row e : JournalEntry) (uid eid : string).

Lemma get_entry_app_other db e uid eid :
  id e <> eid -> get_entry (db ++ [e]) uid eid = get_entry db uid eid.
Proof.
  intros Hne. unfold get_entry. rewrite filter_app. simpl.
  apply String.eqb_neq in Hne. rewrite Hne. simpl.
  now rewrite app_nil_r.
Qed.

Lemma get_entry_delete_row_other db eid0 uid eid :
  eid0 <> eid ->
  get_entry (delete_row db eid0) uid eid = get_entry db uid eid.
Proof.
  intros Hne. unfold get_entry, delete_row. f_equal.
  induction db as [|a db IH]; simpl; [reflexivity|].
  destruct (String.eqb (id a) eid0) eqn:E; simpl.
  - apply String.eqb_eq in E. apply String.eqb_neq in Hne.
    now rewrite E, Hne.
  - now rewrite IH.
Qed.

Lemma id_in_true db row : In row db -> id_in db (id row) = true.
Proof.
  intros Hin. unfold id_in. apply existsb_exists. exists row.
  split; [assumption | apply String.eqb_refl].
Qed.


(** Under the primary key a lookup by id sees at most one row. *)
Lemma filter_by_id_short db eid :
  pk_unique db ->
  filter (fun e => String.eqb (id e) eid) db = []
  \/ exists row, In row db /\ id row = eid
                 /\ filter (fun e => String.eqb (id e) eid) db = [row].
Proof.
  intros Hpk. destruct (id_in db eid) eqn:E.
  - right. unfold id_in in E. apply existsb_exists in E.
    destruct E as [row [Hin Hid]]. apply String.eqb_eq in Hid.
    exists row. split; [assumption|]. split; [assumption|].
    rewrite <- Hid. now apply filter_by_key.
  - left. apply filter_none. intros x Hx. apply String.eqb_neq.
    now apply (id_in_false db eid E).
Qed.

Lemma get_entry_total db uid eid :
  pk_unique db -> exists found, get_entry db uid eid = Ok found.
Proof.
  intros Hpk. unfold get_entry.
  rewrite (filter_conj (fun e => String.eqb (id e) eid)).
  destruct (filter_by_id_short db eid Hpk) as [-> | (row & _ & _ & ->)].
  - exists None. reflexivity.
  - simpl. destruct (String.eqb (user_id row) uid); eexists; reflexivity.
Qed.

Lemma write_row_same db prior row :
  pk_unique db -> In prior db -> id row = id prior ->
  user_id row = user_id prior -> created_at row = created_at prior ->
  map user_id (write_row db row) = map user_id db
  /\ map created_at (write_row db row) = map created_at db.
Proof.
  intros Hpk Hin Hid Hu Hc. unfold write_row. rewrite !map_map.
  split; apply map_ext_in; intros a Ha;
    destruct (String.eqb (id a) (id row)) eqn:E; try reflexivity;
    apply String.eqb_eq in E;
    assert (a = prior)
      by (pose proof (filter_by_key db prior Hpk Hin) as F;
          assert (Hf : In a (filter (fun e => String.eqb (id e) (id prior)) db))
            by (apply filter_In; split;
                [assumption | apply String.eqb_eq; congruence]);
          rewrite F in Hf; destruct Hf as [<- | []]; reflexivity);
    subst a; assumption.
Qed.

Lemma delete_row_length db row :
  pk_unique db -> In row db ->
  List.length db = S (List.length (delete_row db (id row))).
Proof.
  intros Hpk Hin.
  pose proof (filter_length (fun e => String.eqb (id e) (id row)) db) as L.
  rewrite (filter_by_key db row Hpk Hin) in L. simpl in L.
  unfold delete_row. lia.
Qed.

End StoreFrames.

(** X1.  A create whose identifier is already in the table raises
    [IntegrityError] and leaves the table as it was; one whose identifier
    is new appends a single row after the existing ones.  In both cases the
    lookup of any other identifier, by any user, gives what it gave
    before. *)
Theorem create_entry_frame
    (db : Store) (new_id : string) (now : Z) (uid : string)
    (data : JournalEntryCreate) :
  (id_in db new_id = true ->
   create_entry db new_id now uid data = (db, Raise IntegrityError))
  /\ (id_in db new_id = false ->
      exists e, create_entry db new_id now uid data = (db ++ [e], Ok e)
                /\ id e = new_id /\ created_at e = now /\ updated_at e = now)
  /\ (forall uid' eid',
        eid' <> new_id ->
        get_entry (fst (create_entry db new_id now uid data)) uid' eid'
        = get_entry db uid' eid').
Proof.
  unfold create_entry. split; [|split].
  - intros ->. reflexivity.
  - intros ->. eexists. split; [reflexivity|]. repeat split.
  - intros uid' eid' Hne. destruct (id_in db new_id); simpl; [reflexivity|].
    apply get_entry_app_other. simpl. congruence.
Qed.

Lemma create_entry_frame_witness :
  id_in Sample.db3 "e-2" = true
  /\ create_entry Sample.db3 "e-2" 400 "bob" Sample.request
     = (Sample.db3, Raise IntegrityError)
  /\ id_in Sample.db3 "e-4" = false
  /\ (exists e,
        create_entry Sample.db3 "e-4" 400 "bob" Sample.request
        = (Sample.db3 ++ [e], Ok e)
        /\ id e = "e-4"%string /\ created_at e = 400 /\ updated_at e = 400)
  /\ get_entry (fst (create_entry Sample.db3 "e-4" 400 "bob" Sample.request))
       "alice" "e-1"
     = get_entry Sample.db3 "alice" "e-1".
Proof.
  destruct (create_entry_frame Sample.db3 "e-2" 400 "bob" Sample.request)
    as (Hdup & _ & _).
  destruct (create_entry_frame Sample.db3 "e-4" 400 "bob" Sample.request)
    as (_ & Hnew & Hother).
  split; [reflexivity|]. split; [apply Hdup; reflexivity|].
  split; [reflexivity|]. split; [apply Hnew; reflexivity|].
  apply Hother. discriminate.
Defined.

(** X2.  An update, whatever its outcome, leaves the table with the same
    identifiers, owners and creation times in the same order, and the
    lookup of any identifier other than the one addressed gives what it
    gave before: ownership and identity cannot be changed through an
    update. *)
Theorem update_entry_frame
    (db : Store) (now : Z) (uid eid : string) (upd : JournalEntryUpdate) :
  pk_unique db ->
  let db' := fst (update_entry db now uid eid upd) in
  map id db' = map id db
  /\ map user_id db' = map user_id db
  /\ map created_at db' = map created_at db
  /\ (forall uid' eid',
        eid' <> eid -> get_entry db' uid' eid' = get_entry db uid' eid').
Proof.
  intros Hpk db'. subst db'.
  destruct (update_entry db now uid eid upd) as [db' res] eqn:U. simpl.
  destruct (get_entry db uid eid) as [[prior|]|] eqn:G.
  - destruct res as [[e'|]|].
    + destruct (update_entry_Some _ _ _ _ _ _ _ _ G U)
        as (-> & Hid & Hu & Hc & _).
      destruct (get_entry_Some _ _ _ _ G) as (Hin & Hpid & _).
      destruct (write_row_same db prior e' Hpk Hin Hid Hu Hc) as [Hus Hcs].
      split; [apply write_row_ids|]. split; [assumption|].
      split; [assumption|].
      intros uid' eid' Hne. apply get_entry_write_row_other. congruence.
    + unfold update_entry in U. rewrite G in U.
      destruct (flush _); inversion U.
    + unfold update_entry in U. rewrite G in U.
      destruct (flush _); inversion U; subst. repeat split.
  - unfold update_entry in U. rewrite G in U. inversion U; subst.
    repeat split.
  - unfold update_entry in U. rewrite G in U. inversion U; subst.
    repeat split.
Qed.

Lemma update_entry_frame_witness :
  pk_unique Sample.db3
  /\ map user_id
       (fst (update_entry Sample.db3 500 "alice" "e-1" (mood_only (Some 2))))
     = map user_id Sample.db3
  /\ get_entry
       (fst (update_entry Sample.db3 500 "alice" "e-1" (mood_only (Some 2))))
       "alice" "e-2"
     = get_entry Sample.db3 "alice" "e-2".
Proof.
  split; [exact sample_db3_pk|].
  destruct (update_entry_frame Sample.db3 500 "alice" "e-1"
              (mood_only (Some 2)) sample_db3_pk)
    as (_ & Hu & _ & Hother).
  split; [exact Hu|]. apply Hother. discriminate.
Defined.

(** X3.  For an entry the user owns, an update raises [IntegrityError] and
    leaves the table as it was exactly when the request supplies null for
    title, content or entry_date, the NOT NULL columns; every other update
    succeeds.  The update schema lets such a null through. *)
Theorem update_entry_null_required
    (db : Store) (now : Z) (uid eid : string) (prior : JournalEntry)
    (upd : JournalEntryUpdate) :
  get_entry db uid eid = Ok (Some prior) ->
  (nulls_required upd = true ->
   update_entry db now uid eid upd = (db, Raise IntegrityError))
  /\ (nulls_required upd = false ->
      exists e',
        update_entry db now uid eid upd = (write_row db e', Ok (Some e'))).
Proof.
  intros G. split.
  - intros Hn. unfold update_entry. rewrite G, setattr_loop.
    unfold flush, set_updated_at, load, nulls_required in *. simpl.
    destruct (u_title upd) as [[t|]|], (u_content upd) as [[c|]|],
             (u_entry_date upd) as [[d|]|];
      simpl; try reflexivity; discriminate.
  - intros Hn. apply update_entry_succeeds with prior; [assumption| | |];
      intros E; unfold nulls_required in Hn; rewrite E in Hn;
      try discriminate;
      destruct (u_title upd) as [[t|]|]; try discriminate;
      destruct (u_content upd) as [[c|]|]; discriminate.
Qed.

Lemma update_entry_null_required_witness :
  get_entry Sample.db3 "alice" "e-1" = Ok (Some Sample.jan5)
  /\ valid_update (mkUpdate None (Some None) None None None None) = true
  /\ nulls_required (mkUpdate None (Some None) None None None None) = true
  /\ update_entry Sample.db3 500 "alice" "e-1"
       (mkUpdate None (Some None) None None None None)
     = (Sample.db3, Raise IntegrityError)
  /\ nulls_required (mood_only None) = false
  /\ exists e',
       update_entry Sample.db3 500 "alice" "e-1" (mood_only None)
       = (write_row Sample.db3 e', Ok (Some e')).
Proof.
  destruct (update_entry_null_required Sample.db3 500 "alice" "e-1"
              Sample.jan5 (mkUpdate None (Some None) None None None None)
              eq_refl) as [Hnull _].
  destruct (update_entry_null_required Sample.db3 500 "alice" "e-1"
              Sample.jan5 (mood_only None) eq_refl) as [_ Hok].
  split; [reflexivity|]. split; [reflexivity|]. split; [reflexivity|].
  split; [apply Hnull; reflexivity|].
  split; [reflexivity|]. apply Hok. reflexivity.
Defined.

(** X4.  A delete that returns [True] removes exactly one row, and a
    delete, whatever its outcome, leaves the lookup of every other
    identifier as it was. *)
Theorem delete_entry_frame (db : Store) (uid eid : string) :
  pk_unique db ->
  let db' := fst (delete_entry db uid eid) in
  (snd (delete_entry db uid eid) = Ok true ->
   List.length db = S (List.length db'))
  /\ (snd (delete_entry db uid eid) = Ok false -> db' = db)
  /\ (forall uid' eid',
        eid' <> eid -> get_entry db' uid' eid' = get_entry db uid' eid').
Proof.
  intros Hpk db'. subst db'. unfold delete_entry.
  destruct (get_entry db uid eid) as [[entry|]|] eqn:G; simpl.
  - destruct (get_entry_Some _ _ _ _ G) as (Hin & Hid & _).
    split; [|split].
    + intros _. now apply delete_row_length.
    + discriminate.
    + intros uid' eid' Hne. apply get_entry_delete_row_other. congruence.
  - split; [discriminate|]. split; reflexivity.
  - split; [discriminate|]. split; [discriminate | reflexivity].
Qed.

Lemma delete_entry_frame_witness :
  pk_unique Sample.db3
  /\ snd (delete_entry Sample.db3 "alice" "e-1") = Ok true
  /\ List.length Sample.db3
     = S (List.length (fst (delete_entry Sample.db3 "alice" "e-1")))
  /\ get_entry (fst (delete_entry Sample.db3 "alice" "e-1")) "bob" "e-3"
     = get_entry Sample.db3 "bob" "e-3".
Proof.
  destruct (delete_entry_frame Sample.db3 "alice" "e-1" sample_db3_pk)
    as (Hlen & _ & Hother).
  split; [exact sample_db3_pk|]. split; [reflexivity|].
  split; [apply Hlen; reflexivity | apply Hother; discriminate].
Defined.

(** Deleting is not repeatable: after a delete that returned [True], the
    same delete returns [False] and changes nothing. *)
Theorem delete_entry_twice (db db' : Store) (uid eid : string) :
  delete_entry db uid eid = (db', Ok true) ->
  delete_entry db' uid eid = (db', Ok false).
Proof.
  unfold delete_entry at 1.
  destruct (get_entry db uid eid) as [[entry|]|] eqn:G;
    intros H; inversion H; subst.
  destruct (get_entry_Some _ _ _ _ G) as (_ & Hid & _).
  unfold delete_entry. rewrite get_entry_absent; [reflexivity|].
  intros r Hr Heq. apply delete_row_In in Hr. rewrite Hid in Hr. tauto.
Qed.

Lemma delete_entry_twice_witness :
  delete_entry Sample.db3 "alice" "e-1"
  = (delete_row Sample.db3 "e-1", Ok true)
  /\ delete_entry (delete_row Sample.db3 "e-1") "alice" "e-1"
     = (delete_row Sample.db3 "e-1", Ok false).
Proof.
  split; [reflexivity|].
  apply (delete_entry_twice Sample.db3 (delete_row Sample.db3 "e-1")
           "alice" "e-1").
  reflexivity.
Defined.

(** X5.  The primary key is an invariant of the store: create, update and
    delete keep the identifiers of the table distinct, and on such a table
    a lookup never raises [MultipleResultsFound]. *)
Theorem primary_key_invariant
    (db : Store) (new_id : string) (now : Z) (uid eid : string)
    (data : JournalEntryCreate) (upd : JournalEntryUpdate) :
  pk_unique db ->
  pk_unique (fst (create_entry db new_id now uid data))
  /\ pk_unique (fst (update_entry db now uid eid upd))
  /\ pk_unique (fst (delete_entry db uid eid))
  /\ exists found, get_entry db uid eid = Ok found.
Proof.
  intros Hpk.
  split; [now apply create_entry_pk|].
  split; [now apply update_entry_pk|].
  split; [now apply delete_entry_pk|].
  now apply get_entry_total.
Qed.

Lemma primary_key_invariant_witness :
  pk_unique Sample.db3
  /\ pk_unique
       (fst (create_entry Sample.db3 "e-4" 400 "alice" Sample.request))
  /\ pk_unique
       (fst (update_entry Sample.db3 500 "alice" "e-1" (mood_only None)))
  /\ pk_unique (fst (delete_entry Sample.db3 "alice" "e-1"))
  /\ exists found, get_entry Sample.db3 "alice" "e-1" = Ok found.
Proof.
  split; [exact sample_db3_pk|].
  apply (primary_key_invariant Sample.db3 "e-4" 400 "alice" "e-1"
           Sample.request (mood_only None)).
  exact sample_db3_pk.
Defined.

Section SchemaInvariant.

Implicit Types (db : Store) (e : JournalEntry).

Lemma response_ok_parts e :
  response_ok e = true
  <-> title_ok (title e) = true /\ content_ok (content e) = true
      /\ rating_ok (mood_rating e) = true
      /\ rating_ok (energy_level e) = true /\ tags_ok (tags e) = true.
Proof. unfold response_ok. rewrite !andb_true_iff. tauto. Qed.

Lemma schema_ok_ratings db : schema_ok_store db -> valid_store db.
Proof.
  unfold schema_ok_store, valid_store. apply Forall_impl. intros e He.
  apply response_ok_parts in He. unfold valid_entry.
  apply andb_true_iff. tauto.
Qed.

Lemma write_row_schema db row :
  schema_ok_store db -> response_ok row = true ->
  schema_ok_store (write_row db row).
Proof.
  intros Hv Hr. unfold write_row, schema_ok_store.
  apply Forall_map. apply Forall_impl with (2 := Hv).
  intros a Ha. now destruct (String.eqb (id a) (id row)).
Qed.

Lemma valid_update_parts (u : JournalEntryUpdate) :
  valid_update u = true ->
  opt_ok title_ok (u_title u) = true /\ opt_ok content_ok (u_content u) = true
  /\ rating_ok (supplied_or (u_mood_rating u) None) = true
  /\ rating_ok (supplied_or (u_energy_level u) None) = true
  /\ tags_ok (supplied_or (u_tags u) None) = true.
Proof. unfold valid_update, supplied_or. rewrite !andb_true_iff. tauto. Qed.

(** A validated update turns a row that fits the schema into one that
    fits. *)
Lemma updated_row_ok db now uid eid upd prior db' e' :
  get_entry db uid eid = Ok (Some prior) ->
  update_entry db now uid eid upd = (db', Ok (Some e')) ->
  response_ok prior = true -> valid_update upd = true ->
  response_ok e' = true.
Proof.
  intros G U Hp Hu.
  destruct (update_entry_Some _ _ _ _ _ _ _ _ G U)
    as (_ & _ & _ & _ & _ & Ht & Hc & _ & Hm & He & Htg).
  apply response_ok_parts in Hp. destruct Hp as (Pt & Pc & Pm & Pe & Ptg).
  apply valid_update_parts in Hu. destruct Hu as (Ut & Uc & Um & Ue & Utg).
  apply response_ok_parts. rewrite Hm, He, Htg.
  unfold supplied_or, opt_ok in *.
  destruct (u_title upd) as [[t|]|]; inversion Ht; subst;
  destruct (u_content upd) as [[c|]|]; inversion Hc; subst;
  destruct (u_mood_rating upd), (u_energy_level upd), (u_tags upd);
    repeat split; congruence.
Qed.

End SchemaInvariant.

(** X6.  The field constraints of the request schemas are an invariant of
    the table: when every row has a title of 1..255 characters, a
    non-empty content, ratings in 1..10 and tags of at most 500
    characters, the same holds after a create or an update with a request
    that passes its schema, and after a delete. *)
Theorem schema_invariant
    (db : Store) (new_id : string) (now : Z) (uid eid : string)
    (data : JournalEntryCreate) (upd : JournalEntryUpdate) :
  schema_ok_store db ->
  (valid_create data = true ->
   schema_ok_store (fst (create_entry db new_id now uid data)))
  /\ (valid_update upd = true ->
      schema_ok_store (fst (update_entry db now uid eid upd)))
  /\ schema_ok_store (fst (delete_entry db uid eid)).
Proof.
  intros Hs. split; [|split].
  - intros Hc. unfold create_entry.
    destruct (id_in db new_id); simpl; [assumption|].
    apply Forall_app. split; [assumption|].
    constructor; [|constructor]. exact Hc.
  - intros Hu.
    destruct (update_entry db now uid eid upd) as [db' res] eqn:U.
    destruct (get_entry db uid eid) as [[prior|]|] eqn:G.
    + destruct res as [[e'|]|]; simpl.
      * destruct (update_entry_Some _ _ _ _ _ _ _ _ G U) as (-> & _).
        apply write_row_schema; [assumption|].
        apply (updated_row_ok _ _ _ _ _ _ _ _ G U); [|assumption].
        destruct (get_entry_Some _ _ _ _ G) as (Hin & _).
        unfold schema_ok_store in Hs. rewrite Forall_forall in Hs.
        now apply Hs.
      * unfold update_entry in U. rewrite G in U.
        destruct (flush _); inversion U.
      * unfold update_entry in U. rewrite G in U.
        destruct (flush _); inversion U; subst. assumption.
    + unfold update_entry in U. rewrite G in U. inversion U; subst.
      assumption.
    + unfold update_entry in U. rewrite G in U. inversion U; subst.
      assumption.
  - unfold delete_entry.
    destruct (get_entry db uid eid) as [[entry|]|]; simpl; try assumption.
    unfold delete_row, schema_ok_store in *. rewrite Forall_forall in *.
    intros x Hx. apply filter_In in Hx. now apply Hs.
Qed.

Lemma sample_db3_schema : schema_ok_store Sample.db3.
Proof. repeat constructor. Qed.

Lemma schema_invariant_witness :
  schema_ok_store Sample.db3
  /\ valid_create Sample.request = true
  /\ schema_ok_store
       (fst (create_entry Sample.db3 "e-4" 400 "alice" Sample.request))
  /\ valid_update (mood_only (Some 9)) = true
  /\ schema_ok_store
       (fst (update_entry Sample.db3 400 "alice" "e-1" (mood_only (Some 9))))
  /\ schema_ok_store (fst (delete_entry Sample.db3 "alice" "e-1")).
Proof.
  destruct (schema_invariant Sample.db3 "e-4" 400 "alice" "e-1"
              Sample.request (mood_only (Some 9)) sample_db3_schema)
    as (Hc & Hu & Hd).
  split; [exact sample_db3_schema|].
  split; [reflexivity|]. split; [apply Hc; reflexivity|].
  split; [reflexivity|]. split; [apply Hu; reflexivity|].
  exact Hd.
Defined.

(** ** More on the listing *)

Section Listing.

Implicit Types (db rows : list JournalEntry) (e : JournalEntry).

Lemma in_apply_limit n rows e : In e (apply_limit n rows) -> In e rows.
Proof.
  destruct n as [k|]; simpl; [|tauto].
  destruct (k <? 0); [tauto | apply in_firstn].
Qed.

Lemma in_apply_offset n rows e : In e (apply_offset n rows) -> In e rows.
Proof. destruct n as [k|]; simpl; [apply in_skipn | tauto]. Qed.



Lemma entries_page_In db uid S L from_date to_date tag_filter e :
  In e (entries_page db uid S L from_date to_date tag_filter) ->
  In e db /\ user_id e = uid /\ within from_date to_date (entry_date e)
  /\ tag_clause tag_filter e = true.
Proof.
  rewrite entries_page_unfold. intros H.
  apply in_apply_limit, in_apply_offset in H.
  rewrite <- list_all_execute in H. apply list_all_In in H.
  rewrite <- in_range_within. exact H.
Qed.


Lemma firstn_app_skipn {A} a b (l : list A) :
  firstn a l ++ firstn b (skipn a l) = firstn (a + b) l.
Proof.
  revert l. induction a as [|a IH]; intros l; simpl; [reflexivity|].
  destruct l as [|x l]; simpl.
  - now rewrite firstn_nil.
  - now rewrite IH.
Qed.

Lemma skipn_add {A} a b (l : list A) : skipn (a + b) l = skipn b (skipn a l).
Proof.
  revert l. induction a as [|a IH]; intros l; simpl; [reflexivity|].
  destruct l as [|x l]; simpl; [now rewrite skipn_nil | apply IH].
Qed.

Lemma date_leb_not_ltb (a b : date) :
  date_leb a b = true -> date_ltb b a = false.
Proof.
  unfold date_leb, date_ltb. rewrite (date_cmp_antisym a b).
  destruct (date_cmp a b); simpl; congruence.
Qed.




End Listing.



(** X8.  Consecutive pages join: for non-negative [skip] and limits with
    [S + L1] and [L1 + L2] below 2^63, and a tag filter whose pattern the
    database accepts, the three calls return, and the page of [L1] entries
    from [S] followed by the page of [L2] entries from [S + L1] is the page
    of [L1 + L2] entries from [S].  Paging through the listing neither
    drops nor repeats an entry. *)
Theorem pages_concatenate
    (db : Store) (uid : string) (S L1 L2 : Z)
    (from_date to_date : option date) (tag_filter : option string) :
  0 <= S -> 0 <= L1 -> 0 <= L2 ->
  S + L1 < 2 ^ 63 -> L1 + L2 < 2 ^ 63 ->
  like_pattern_fits tag_filter = true ->
  exists first second both,
    get_user_entries db uid S L1 from_date to_date tag_filter = Ok first
    /\ get_user_entries db uid (S + L1) L2 from_date to_date tag_filter
       = Ok second
    /\ get_user_entries db uid S (L1 + L2) from_date to_date tag_filter
       = Ok both
    /\ first ++ second = both.
Proof.
  intros HS H1 H2 HSL HLL Hp.
  rewrite !get_user_entries_Ok by (assumption || lia).
  eexists _, _, _. repeat (split; [reflexivity|]).
  rewrite !entries_page_slice by lia.
  unfold slice. rewrite !Z2Nat.inj_add by lia.
  rewrite skipn_add. apply firstn_app_skipn.
Qed.

Lemma pages_concatenate_witness :
  0 <= 0 /\ 0 <= 1 /\ 0 <= 2 /\ 0 + 1 < 2 ^ 63 /\ 1 + 2 < 2 ^ 63
  /\ like_pattern_fits None = true
  /\ exists first second both,
       get_user_entries Sample.db4 "alice" 0 1 None None None = Ok first
       /\ get_user_entries Sample.db4 "alice" (0 + 1) 2 None None None
          = Ok second
       /\ get_user_entries Sample.db4 "alice" 0 (1 + 2) None None None
          = Ok both
       /\ first ++ second = both.
Proof.
  split; [lia|]. split; [lia|]. split; [lia|]. split; [lia|].
  split; [lia|]. split; [reflexivity|].
  apply (pages_concatenate Sample.db4 "alice" 0 1 2 None None None);
    (lia || reflexivity).
Defined.

(** X9.  With [from_date] after [to_date] no row passes the date clauses:
    for every [skip] and [limit] of 64 bits [get_user_entries] returns the
    empty listing, whatever the table and the tag filter, whose pattern is
    never looked at. *)
Theorem reversed_bounds_empty
    (db : Store) (uid : string) (S L : Z) (D1 D2 : date)
    (tag_filter : option string) :
  date_lt D2 D1 ->
  - 2 ^ 63 <= S < 2 ^ 63 -> - 2 ^ 63 <= L < 2 ^ 63 ->
  get_user_entries db uid S L (Some D1) (Some D2) tag_filter = Ok [].
Proof.
  intros Hlt HS HL.
  assert (Hnone : forall e, in_range (Some D1) (Some D2) e = false).
  { intros e. destruct (in_range (Some D1) (Some D2) e) eqn:E; [|reflexivity].
    apply in_range_within in E. destruct E as [H1 H2].
    specialize (H1 D1 eq_refl). specialize (H2 D2 eq_refl).
    unfold date_le, date_lt in *.
    pose proof (date_leb_trans _ _ _ H1 H2) as H12.
    pose proof (date_leb_not_ltb _ _ H12) as Hn.
    congruence. }
  unfold get_user_entries.
  apply sqlite_int_iff in HS, HL. rewrite HS, HL. cbn [andb negb].
  assert (Hev : like_is_evaluated db uid (Some D1) (Some D2) = false).
  { unfold like_is_evaluated. induction db as [|e db IH]; [reflexivity|].
    simpl existsb. now rewrite Hnone, andb_false_r, IH. }
  rewrite Hev, andb_false_r. f_equal.
  change (execute db
            (limit (offset (entries_query uid (Some D1) (Some D2) tag_filter)
                           S) L))
    with (entries_page db uid S L (Some D1) (Some D2) tag_filter).
  destruct (entries_page db uid S L (Some D1) (Some D2) tag_filter)
    as [|e rest] eqn:E; [reflexivity|].
  assert (Hin : In e
    (entries_page db uid S L (Some D1) (Some D2) tag_filter))
    by (rewrite E; now left).
  apply entries_page_In in Hin.
  destruct Hin as (_ & _ & Hw & _). apply in_range_within in Hw.
  now rewrite Hnone in Hw.
Qed.

Lemma reversed_bounds_empty_witness :
  date_lt (mkdate 2024 1 5) (mkdate 2024 1 20)
  /\ - 2 ^ 63 <= 0 < 2 ^ 63 /\ - 2 ^ 63 <= 100 < 2 ^ 63
  /\ get_user_entries Sample.db4 "alice" 0 100
       (Some (mkdate 2024 1 20)) (Some (mkdate 2024 1 5))
       (Some Sample.long_filter)
     = Ok [].
Proof.
  split; [reflexivity|]. split; [lia|]. split; [lia|].
  apply (reversed_bounds_empty Sample.db4 "alice" 0 100
           (mkdate 2024 1 20) (mkdate 2024 1 5) (Some Sample.long_filter));
    [reflexivity | lia | lia].
Defined.

(** X10.  The tag filter is pasted into the LIKE pattern as it is.  The
    filter [%] therefore lists every entry of the user, within the date
    bounds, that has tags at all, whatever they are; and the empty filter
    string applies no tag clause, so the listing is the one without a tag
    filter. *)
Theorem wildcard_and_empty_filters
    (db : Store) (uid : string) (S L : Z)
    (from_date to_date : option date) :
  (forall e,
     In e (list_all db uid from_date to_date (Some "%"%string))
     <-> In e db /\ user_id e = uid
         /\ within from_date to_date (entry_date e) /\ tags e <> None)
  /\ get_user_entries db uid S L from_date to_date (Some EmptyString)
     = get_user_entries db uid S L from_date to_date None.
Proof.
  split; [|reflexivity].
  intros e. rewrite list_all_In, in_range_within.
  assert (Hc : tag_clause (Some "%"%string) e = true <-> tags e <> None).
  { unfold tag_clause, column_like. cbn [truthy_str].
    destruct (tags e) as [s|]; split; try congruence.
    intros _. apply like_percent_all. }
  rewrite Hc. tauto.
Qed.



(** ** More on the statistics *)

Section StatsFacts.

Implicit Types (db rows : list JournalEntry) (e : JournalEntry) (d : date).

Lemma filter_absorb {A} (p q : A -> bool) (l : list A) :
  (forall x, p x = true -> q x = true) ->
  filter p (filter q l) = filter p l.
Proof.
  intros H. induction l as [|a l IH]; simpl; [reflexivity|].
  destruct (q a) eqn:Q; simpl.
  - now rewrite IH.
  - destruct (p a) eqn:P; [|assumption].
    apply H in P. congruence.
Qed.

Lemma get_user_stats_own db uid as_of :
  get_user_stats (filter (user_is uid) db) uid as_of
  = get_user_stats db uid as_of.
Proof.
  unfold get_user_stats, month_query, avg_query, trend_query.
  destruct (sub_days as_of 30) as [since|]; [|reflexivity].
  rewrite (filter_absorb (user_is uid) (user_is uid)) by auto.
  rewrite !(filter_absorb _ (user_is uid))
    by (intros x Hx; repeat (apply andb_true_iff in Hx; destruct Hx as [Hx ?]);
        assumption).
  reflexivity.
Qed.

Lemma insert_date_length d (l : list date) :
  (List.length (insert_date d l) <= S (List.length l))%nat.
Proof.
  induction l as [|x l IH]; simpl; [lia|].
  destruct (date_cmp d x); simpl; lia.
Qed.

Lemma group_keys_length rows :
  (List.length (group_keys rows) <= List.length rows)%nat.
Proof.
  unfold group_keys. induction rows as [|a rows IH]; simpl; [lia|].
  pose proof (insert_date_length (entry_date a)
    (fold_right (fun e acc => insert_date (entry_date e) acc) [] rows)).
  lia.
Qed.

Lemma filter_user_and_length (q : JournalEntry -> bool) db uid :
  (List.length (filter (fun e => user_is uid e && q e) db)
   <= List.length (filter (user_is uid) db))%nat.
Proof. rewrite filter_conj. apply filter_length_le. Qed.

Lemma trend_rows_length db uid since :
  (List.length (trend_rows db uid since)
   <= List.length (filter (user_is uid) db))%nat.
Proof.
  unfold trend_rows.
  rewrite (filter_ext _
    (fun e => user_is uid e
              && (date_geb (entry_date e) since
                  && isnot_none (mood_rating e))))
    by (intros e; now rewrite andb_assoc).
  apply filter_user_and_length.
Qed.

(** The month starts at most 30 days before any of its days. *)
Lemma first_of_month_ordinal d :
  valid_date d ->
  toordinal d - 30 <= toordinal (first_of_month d) <= toordinal d.
Proof.
  destruct d as [y m dd]. unfold valid_date, first_of_month, toordinal,
    _ymd2ord. cbn [year month day]. intros (Hy & Hm & Hd).
  assert (dd <= 31).
  { unfold _days_in_month in Hd.
    months m; subst m; destruct (_is_leap y); cbn in Hd; lia. }
  lia.
Qed.

Lemma since_before_month as_of since :
  valid_date as_of -> sub_days as_of 30 = Some since ->
  date_le since (first_of_month as_of).
Proof.
  intros Hv Hs. destruct (sub_days_ordinal _ _ _ Hs) as [Hsv Hso].
  destruct (first_of_month_le as_of Hv) as [Hfv _].
  apply (date_le_ordinal _ _ Hsv Hfv).
  pose proof (first_of_month_ordinal as_of Hv). lia.
Qed.

Lemma non_null_witness (field : JournalEntry -> option Z) rows :
  non_null (map field rows) <> [] ->
  exists e, In e rows /\ field e <> None.
Proof.
  induction rows as [|a rows IH]; simpl; [congruence|].
  destruct (field a) eqn:F.
  - intros _. exists a. split; [now left | congruence].
  - intros H. destruct (IH H) as [e [Hin He]]. exists e. auto.
Qed.

Lemma non_null_ok (field : JournalEntry -> option Z) rows :
  (forall e, In e rows -> rating_ok (field e) = true) ->
  Forall (fun v => 1 <= v <= 10) (non_null (map field rows)).
Proof.
  induction rows as [|a rows IH]; simpl; intros H; [constructor|].
  assert (Ha := H a (or_introl eq_refl)).
  destruct (field a) as [v|]; [constructor|]; try (apply IH; auto).
  simpl in Ha. apply andb_true_iff in Ha. lia.
Qed.

End StatsFacts.

(** X12.  The statistics of a user depend on that user's entries only:
    they are the same on the whole table and on the table cut down to the
    user's rows, so no entry of another user can influence them. *)
Theorem stats_depend_on_own_entries
    (db : Store) (uid : string) (as_of : date) :
  get_user_stats db uid as_of = get_user_stats (entries_of db uid) uid as_of.
Proof. symmetry. apply get_user_stats_own. Qed.

(** X13.  For a user without entries, and any date from 0001-01-31 on,
    the statistics are zero counts, null averages, no tags and an empty
    trend, whatever other users have stored. *)
Theorem stats_of_user_without_entries
    (db : Store) (uid : string) (as_of : date) :
  valid_date as_of -> 30 < toordinal as_of ->
  (forall e, In e db -> user_id e <> uid) ->
  get_user_stats db uid as_of = Ok (mkStats 0 0 None None [] []).
Proof.
  intros Hv Ho Hnone.
  rewrite <- get_user_stats_own.
  replace (filter (user_is uid) db) with (@nil JournalEntry).
  - destruct (sub_days_defined as_of 30 Hv ltac:(lia)) as [since Hs].
    unfold get_user_stats. rewrite Hs. reflexivity.
  - symmetry. apply filter_none. intros x Hx.
    apply String.eqb_neq. now apply Hnone.
Qed.

Lemma stats_of_user_without_entries_witness :
  valid_date (mkdate 2024 1 31)
  /\ 30 < toordinal (mkdate 2024 1 31)
  /\ (forall e, In e Sample.db3 -> user_id e <> "carol"%string)
  /\ get_user_stats Sample.db3 "carol" (mkdate 2024 1 31)
     = Ok (mkStats 0 0 None None [] []).
Proof.
  assert (H : forall e, In e Sample.db3 -> user_id e <> "carol"%string)
    by (intros e [<- | [<- | [<- | []]]]; discriminate).
  split; [exact sample_as_of_valid|]. split; [reflexivity|].
  split; [exact H|].
  apply (stats_of_user_without_entries Sample.db3 "carol" (mkdate 2024 1 31)
           sample_as_of_valid eq_refl H).
Defined.

(** X14.  For any date from 0001-01-31 on, [total_entries] is the number
    of the user's entries, which is also the length of the unfiltered
    listing; [entries_this_month] lies between 0 and [total_entries]; and
    the trend has at most as many points as the user has entries. *)
Theorem stats_counts (db : Store) (uid : string) (as_of : date) :
  valid_date as_of -> 30 < toordinal as_of ->
  exists st,
    get_user_stats db uid as_of = Ok st
    /\ total_entries st = Z.of_nat (List.length (entries_of db uid))
    /\ total_entries st
       = Z.of_nat (List.length (list_all db uid None None None))
    /\ 0 <= entries_this_month st <= total_entries st
    /\ Z.of_nat (List.length (mood_trend st)) <= total_entries st.
Proof.
  intros Hv Ho.
  destruct (sub_days_defined as_of 30 Hv ltac:(lia)) as [since Hs].
  eexists. split; [apply (get_user_stats_Ok _ _ _ _ Hs)|].
  cbn [total_entries entries_this_month mood_trend].
  unfold func_count, entries_of, month_query.
  split; [reflexivity|]. split; [|split].
  - f_equal. rewrite (Permutation_length (list_all_perm _ _ _ _ _)).
    f_equal. apply filter_ext. intros e.
    unfold in_range, tag_clause. simpl. now rewrite !andb_true_r.
  - pose proof (filter_user_and_length
      (fun e => date_geb (entry_date e) (first_of_month as_of)) db uid)
      as Hlen.
    cbv beta in Hlen. lia.
  - rewrite length_map.
    pose proof (group_keys_length (trend_rows db uid since)).
    pose proof (trend_rows_length db uid since). lia.
Qed.

Lemma stats_counts_witness :
  valid_date (mkdate 2024 1 31)
  /\ 30 < toordinal (mkdate 2024 1 31)
  /\ exists st,
       get_user_stats Sample.db4 "alice" (mkdate 2024 1 31) = Ok st
       /\ total_entries st
          = Z.of_nat (List.length (entries_of Sample.db4 "alice"))
       /\ total_entries st
          = Z.of_nat (List.length (list_all Sample.db4 "alice" None None None))
       /\ 0 <= entries_this_month st <= total_entries st
       /\ Z.of_nat (List.length (mood_trend st)) <= total_entries st.
Proof.
  split; [exact sample_as_of_valid|]. split; [reflexivity|].
  apply (stats_counts Sample.db4 "alice" (mkdate 2024 1 31)
           sample_as_of_valid eq_refl).
Defined.

(** X15.  The month lies inside the trend window: for any date from
    0001-01-31 on, every entry of the user that counts toward
    [average_mood_this_month] (dated the first of the month or later, with
    a mood rating) has its date among the trend points.  So a non-null
    [average_mood_this_month] never comes with an empty [mood_trend]. *)
Theorem month_inside_trend_window
    (db : Store) (uid : string) (as_of : date) :
  valid_date as_of -> 30 < toordinal as_of ->
  exists st,
    get_user_stats db uid as_of = Ok st
    /\ (forall e,
          In e db -> user_id e = uid -> mood_rating e <> None ->
          date_le (first_of_month as_of) (entry_date e) ->
          In (trend_point db uid (entry_date e)) (mood_trend st))
    /\ (average_mood_this_month st <> None -> mood_trend st <> []).
Proof.
  intros Hv Ho.
  destruct (sub_days_defined as_of 30 Hv ltac:(lia)) as [since Hs].
  eexists. split; [apply (get_user_stats_Ok _ _ _ _ Hs)|].
  cbn [average_mood_this_month mood_trend].
  assert (Hpoint : forall e,
    In e db -> user_id e = uid -> mood_rating e <> None ->
    date_le (first_of_month as_of) (entry_date e) ->
    In (trend_point db uid (entry_date e))
       (map (trend_point db uid) (group_keys (trend_rows db uid since)))).
  { intros e Hin Hu Hm Hle. apply in_map. apply group_keys_In.
    exists e. split; [|reflexivity]. apply trend_rows_In.
    repeat split; try assumption.
    unfold date_le in *.
    eapply date_leb_trans; [|exact Hle].
    now apply since_before_month. }
  split; [exact Hpoint|].
  intros Havg.
  assert (Hq : avg_query mood_rating db uid (first_of_month as_of) <> None).
  { intros E. apply Havg. now rewrite E. }
  rewrite avg_query_mean in Hq.
  assert (Hvals : values_since mood_rating db uid (first_of_month as_of)
                  <> []).
  { intros E. rewrite E in Hq. congruence. }
  apply non_null_witness in Hvals. destruct Hvals as [e [Hin Hm]].
  apply filter_In in Hin. destruct Hin as [Hin Hb].
  apply andb_true_iff in Hb. destruct Hb as [Hu Hle].
  apply String.eqb_eq in Hu.
  specialize (Hpoint e Hin Hu Hm Hle).
  intros E. rewrite E in Hpoint. exact Hpoint.
Qed.

Lemma month_inside_trend_window_witness :
  valid_date (mkdate 2024 1 31)
  /\ 30 < toordinal (mkdate 2024 1 31)
  /\ exists st,
       get_user_stats Sample.db3 "alice" (mkdate 2024 1 31) = Ok st
       /\ In (trend_point Sample.db3 "alice" (entry_date Sample.jan5))
             (mood_trend st)
       /\ mood_trend st <> [].
Proof.
  split; [exact sample_as_of_valid|]. split; [reflexivity|].
  destruct (month_inside_trend_window Sample.db3 "alice" (mkdate 2024 1 31)
              sample_as_of_valid eq_refl) as (st & Hst & Hpoint & Hne).
  exists st. split; [exact Hst|]. split.
  - apply Hpoint; [simpl; tauto | reflexivity | discriminate | reflexivity].
  - apply Hne. vm_compute in Hst. inversion Hst. discriminate.
Defined.

(** X16.  On a table whose ratings lie in 1..10, and for any date from
    0001-01-31 on, every average the statistics report lies on the rating
    scale: the two monthly averages, when not null, and the mood of every
    trend point are between 1 and 10. *)
Theorem stats_on_scale (db : Store) (uid : string) (as_of : date) :
  valid_store db -> valid_date as_of -> 30 < toordinal as_of ->
  exists st,
    get_user_stats db uid as_of = Ok st
    /\ (forall q, average_mood_this_month st = Some q -> on_scale q)
    /\ (forall q, average_energy_this_month st = Some q -> on_scale q)
    /\ (forall p, In p (mood_trend st) -> on_scale (tp_mood p)).
Proof.
  intros Hvs Hv Ho.
  destruct (sub_days_defined as_of 30 Hv ltac:(lia)) as [since Hs].
  eexists. split; [apply (get_user_stats_Ok _ _ _ _ Hs)|].
  cbn [average_mood_this_month average_energy_this_month mood_trend].
  rewrite !rounded_average
    by (assumption || apply valid_entry_mood || apply valid_entry_energy).
  assert (Havg : forall field,
    (forall e, valid_entry e = true -> rating_ok (field e) = true) ->
    forall q,
      expected_average (values_since field db uid (first_of_month as_of))
      = Some q -> on_scale q).
  { intros field Hf q.
    pose proof (values_since_ok field db uid (first_of_month as_of) Hf Hvs)
      as Hall.
    destruct (values_since field db uid (first_of_month as_of)) as [|v vs];
      simpl; [discriminate|].
    intros E. inversion E; subst.
    apply round2_on_scale, float_of_stays_on_scale, mean_on_scale;
      [discriminate | assumption]. }
  split; [apply Havg, valid_entry_mood|].
  split; [apply Havg, valid_entry_energy|].
  intros p Hp. apply in_map_iff in Hp. destruct Hp as [d [<- Hd]].
  unfold trend_point. cbn [tp_mood].
  apply group_keys_In in Hd. destruct Hd as [e [Hin Hd]].
  apply trend_rows_In in Hin. destruct Hin as (Hin & Hu & _ & Hm).
  apply mean_on_scale.
  - unfold moods_on. apply non_null_nonempty with e; [|assumption].
    apply filter_In. split; [assumption|].
    unfold user_is. apply String.eqb_eq in Hu. rewrite Hu, Hd.
    now rewrite date_eqb_refl.
  - unfold moods_on. apply non_null_ok. intros x Hx.
    apply filter_In in Hx. destruct Hx as [Hx _].
    apply valid_entry_mood.
    unfold valid_store in Hvs. rewrite Forall_forall in Hvs. now apply Hvs.
Qed.

Lemma stats_on_scale_witness :
  valid_store Sample.db4
  /\ valid_date (mkdate 2024 1 31)
  /\ 30 < toordinal (mkdate 2024 1 31)
  /\ exists st,
       get_user_stats Sample.db4 "alice" (mkdate 2024 1 31) = Ok st
       /\ (forall q, average_mood_this_month st = Some q -> on_scale q)
       /\ (forall q, average_energy_this_month st = Some q -> on_scale q)
       /\ (forall p, In p (mood_trend st) -> on_scale (tp_mood p)).
Proof.
  split; [exact sample_db4_valid|].
  split; [exact sample_as_of_valid|]. split; [reflexivity|].
  apply (stats_on_scale Sample.db4 "alice" (mkdate 2024 1 31)
           sample_db4_valid sample_as_of_valid eq_refl).
Defined.

(** ** The HTTP boundary *)

Lemma sample_http_pk : pk_unique SampleHTTP.table.
Proof.
  unfold pk_unique; simpl.
  repeat constructor; simpl; intuition discriminate.
Qed.

Lemma sample_http_schema : schema_ok_store SampleHTTP.table.
Proof. repeat constructor. Qed.

Section Handlers.

Variable uuid_parses : string -> bool.

Implicit Types (db : Store) (e row : JournalEntry) (uid eid : string).

Lemma model_validate_ok e :
  response_ok e = true -> model_validate e = Some (response_of e).
Proof. unfold model_validate. now intros ->. Qed.

Lemma model_validate_inv e r :
  model_validate e = Some r -> r = response_of e.
Proof.
  unfold model_validate. destruct (response_ok e); congruence.
Qed.


Lemma model_validate_all_inv (entries : list JournalEntry) rs :
  model_validate_all entries = Some rs -> rs = map response_of entries.
Proof.
  revert rs. induction entries as [|e l IH]; simpl; intros rs H.
  - congruence.
  - destruct (model_validate e) as [r|] eqn:E; [|discriminate].
    destruct (model_validate_all l) as [rs'|]; [|discriminate].
    inversion H; subst. apply model_validate_inv in E.
    now rewrite E, (IH rs' eq_refl).
Qed.

Lemma validate_uuid_true eid :
  uuid_parses eid = true ->
  validate_uuid uuid_parses eid = Returns HTTP_200_OK eid.
Proof. unfold validate_uuid. now intros ->. Qed.

Lemma validate_uuid_false eid :
  uuid_parses eid = false ->
  validate_uuid uuid_parses eid
  = Raises (mkHTTP HTTP_400_BAD_REQUEST (Text "Invalid UUID format")).
Proof. unfold validate_uuid. now intros ->. Qed.

Lemma schema_ok_row db row :
  schema_ok_store db -> In row db -> response_ok row = true.
Proof.
  unfold schema_ok_store. rewrite Forall_forall. intros H Hin. now apply H.
Qed.

(** X17.  GET of one entry, on a table with distinct identifiers whose
    rows fit the schema: a malformed id is answered with 400; a
    well-formed id is answered with 200 and the stored entry when the
    caller owns an entry with that id, and with the same 404 both when the
    id is absent and when it belongs to someone else.  The handler never
    answers 500 there. *)
Theorem get_journal_entry_status db eid uid :
  pk_unique db -> schema_ok_store db ->
  (uuid_parses eid = false ->
   get_journal_entry uuid_parses db eid uid
   = Raises (mkHTTP 400 (Text "Invalid UUID format")))
  /\ (uuid_parses eid = true ->
      (forall row,
         In row db -> id row = eid -> user_id row = uid ->
         get_journal_entry uuid_parses db eid uid
         = Returns 200 (response_of row))
      /\ ((forall row, In row db -> id row = eid -> user_id row <> uid) ->
          get_journal_entry uuid_parses db eid uid
          = Raises (mkHTTP 404 (Text "Journal entry not found")))).
Proof.
  intros Hpk Hs. unfold get_journal_entry. split.
  - intros Hf. now rewrite (validate_uuid_false eid Hf).
  - intros Ht. rewrite (validate_uuid_true eid Ht). split.
    + intros row Hin <- <-. rewrite get_entry_found by assumption.
      now rewrite (model_validate_ok row (schema_ok_row db row Hs Hin)).
    + intros Hnone. now rewrite get_entry_absent.
Qed.

(** X18.  PUT on an entry the caller owns, with a well-formed id and a
    request that passes the update schema, on a table whose rows fit the
    schema: when the request carries null for title, content or
    entry_date the answer is 500 and the table is unchanged; otherwise the
    answer is 200 with the updated entry, which keeps its id and owner and
    carries the clock reading as [updated_at]. *)
Theorem update_journal_entry_status db now eid uid upd prior :
  schema_ok_store db ->
  uuid_parses eid = true ->
  get_entry db uid eid = Ok (Some prior) ->
  valid_update upd = true ->
  (nulls_required upd = true ->
   update_journal_entry uuid_parses db now eid upd uid
   = (db, Raises (mkHTTP 500
                   (Failed "Failed to update journal entry: "
                           (ServiceError IntegrityError)))))
  /\ (nulls_required upd = false ->
      exists e',
        update_journal_entry uuid_parses db now eid upd uid
        = (write_row db e', Returns 200 (response_of e'))
        /\ id e' = eid /\ user_id e' = uid /\ updated_at e' = now).
Proof.
  intros Hs Ht G Hu. unfold update_journal_entry.
  rewrite (validate_uuid_true eid Ht).
  destruct (get_entry_Some _ _ _ _ G) as (Hin & Hid & Huid).
  split.
  - intros Hn.
    destruct (update_entry db now uid eid upd) as [db' res] eqn:U.
    unfold update_entry in U. rewrite G, setattr_loop in U.
    unfold flush, set_updated_at, load, nulls_required in *.
    simpl in U.
    destruct (u_title upd) as [[t|]|], (u_content upd) as [[c|]|],
             (u_entry_date upd) as [[d|]|];
      simpl in U; try discriminate; inversion U; subst; reflexivity.
  - intros Hn.
    assert (Hex : exists e',
      update_entry db now uid eid upd = (write_row db e', Ok (Some e'))).
    { apply update_entry_succeeds with prior; [assumption| | |];
        intros E; unfold nulls_required in Hn; rewrite E in Hn;
        try discriminate;
        destruct (u_title upd) as [[t|]|]; try discriminate;
        destruct (u_content upd) as [[c|]|]; discriminate. }
    destruct Hex as [e' U]. exists e'. rewrite U.
    assert (Hok : response_ok e' = true).
    { apply (updated_row_ok _ _ _ _ _ _ _ _ G U); [|assumption].
      now apply (schema_ok_row db prior). }
    rewrite (model_validate_ok e' Hok).
    destruct (update_entry_Some _ _ _ _ _ _ _ _ G U)
      as (_ & Hid' & Hu' & _ & Hup & _).
    repeat split; congruence.
Qed.

(** X19.  After a DELETE answered with 204, a GET of the same id by the
    same caller is answered with 404, and so is a second DELETE, which
    changes nothing. *)
Theorem delete_then_get_is_404 db db' eid uid :
  delete_journal_entry uuid_parses db eid uid = (db', Returns 204 tt) ->
  get_journal_entry uuid_parses db' eid uid
  = Raises (mkHTTP 404 (Text "Journal entry not found"))
  /\ delete_journal_entry uuid_parses db' eid uid
     = (db', Raises (mkHTTP 404 (Text "Journal entry not found"))).
Proof.
  unfold delete_journal_entry at 1, validate_uuid.
  destruct (uuid_parses eid) eqn:Ht; [|intros H; inversion H].
  destruct (delete_entry db uid eid) as [db1 [[|]|]] eqn:D;
    intros H; inversion H; subst.
  assert (G : get_entry db' uid eid = Ok None).
  { revert D. unfold delete_entry.
    destruct (get_entry db uid eid) as [[entry|]|] eqn:G;
      intros D; inversion D; subst.
    destruct (get_entry_Some _ _ _ _ G) as (_ & Hid & _).
    apply get_entry_absent. intros r Hr Heq.
    apply delete_row_In in Hr. rewrite Hid in Hr. tauto. }
  unfold get_journal_entry, delete_journal_entry, delete_entry.
  rewrite (validate_uuid_true eid Ht), G. split; reflexivity.
Qed.

(** X20.  A POST that passes the create schema, with a fresh identifier,
    is answered with 201 and the new entry, owned by the caller; a GET of
    the returned id by the caller is answered with 200 and the same body,
    and by any other caller with 404. *)
Theorem create_then_get_journal_entry db new_id now data uid :
  pk_unique db -> id_in db new_id = false ->
  valid_create data = true -> uuid_parses new_id = true ->
  exists db' r,
    create_journal_entry db new_id now data uid = (db', Returns 201 r)
    /\ r_id r = new_id /\ r_user_id r = uid
    /\ r_title r = c_title data /\ r_content r = c_content data
    /\ r_entry_date r = c_entry_date data
    /\ get_journal_entry uuid_parses db' (r_id r) uid = Returns 200 r
    /\ (forall other,
          other <> uid ->
          get_journal_entry uuid_parses db' (r_id r) other
          = Raises (mkHTTP 404 (Text "Journal entry not found"))).
Proof.
  intros Hpk Hfresh Hc Ht. unfold create_journal_entry, create_entry.
  rewrite Hfresh.
  set (e := {| id := new_id; created_at := now; updated_at := now;
               user_id := uid; title := c_title data;
               content := c_content data; entry_date := c_entry_date data;
               mood_rating := c_mood_rating data;
               energy_level := c_energy_level data; tags := c_tags data |}).
  assert (Hok : response_ok e = true) by exact Hc.
  rewrite (model_validate_ok e Hok).
  exists (db ++ [e]), (response_of e).
  split; [reflexivity|]. repeat (split; [reflexivity|]).
  assert (Hpk' : pk_unique (db ++ [e])).
  { apply pk_unique_app; [assumption|]. now apply id_in_false. }
  assert (Hin : In e (db ++ [e])) by (apply in_or_app; right; now left).
  unfold get_journal_entry. cbn [r_id response_of].
  change (id e) with new_id. rewrite (validate_uuid_true new_id Ht).
  split.
  - change new_id with (id e). change uid with (user_id e) at 1.
    rewrite get_entry_found by assumption.
    now rewrite (model_validate_ok e Hok).
  - intros other Hne. change new_id with (id e).
    rewrite (get_entry_other_owner (db ++ [e]) e other) by
      (assumption || (simpl; congruence)).
    reflexivity.
Qed.

(** X22.  No handler hands out an entry of another user: whenever GET of
    one entry, PUT or GET of the listing returns a body, on any table and
    for any id, the body's [user_id] is the caller's, and for GET and PUT
    its [id] is the id asked for. *)
Theorem handlers_return_only_own_entries
    db now eid uid upd (skip lim : Z) (from_date to_date : option date)
    (tag_filter : option string) :
  (forall status r,
     get_journal_entry uuid_parses db eid uid = Returns status r ->
     r_user_id r = uid /\ r_id r = eid)
  /\ (forall db' status r,
        update_journal_entry uuid_parses db now eid upd uid
        = (db', Returns status r) ->
        r_user_id r = uid /\ r_id r = eid)
  /\ (forall status bodies r,
        get_journal_entries db skip lim from_date to_date tag_filter uid
        = Returns status bodies ->
        In r bodies -> r_user_id r = uid).
Proof.
  split; [|split].
  - intros status r. unfold get_journal_entry, validate_uuid.
    destruct (uuid_parses eid); [|discriminate].
    destruct (get_entry db uid eid) as [[entry|]|] eqn:G; try discriminate.
    destruct (model_validate entry) as [r'|] eqn:V; [|discriminate].
    intros H. inversion H; subst. apply model_validate_inv in V. subst r.
    destruct (get_entry_Some _ _ _ _ G) as (_ & Hid & Hu). simpl. auto.
  - intros db' status r. unfold update_journal_entry, validate_uuid.
    destruct (uuid_parses eid); [|discriminate].
    destruct (update_entry db now uid eid upd) as [db1 [[e'|]|]] eqn:U;
      try discriminate.
    destruct (model_validate e') as [r'|] eqn:V; [|discriminate].
    intros H. inversion H; subst. apply model_validate_inv in V. subst r.
    destruct (get_entry db uid eid) as [[prior|]|] eqn:G.
    + destruct (update_entry_Some _ _ _ _ _ _ _ _ G U)
        as (_ & Hid & Hu & _).
      destruct (get_entry_Some _ _ _ _ G) as (_ & Hpid & Hpu).
      simpl. split; congruence.
    + unfold update_entry in U. rewrite G in U. discriminate.
    + unfold update_entry in U. rewrite G in U. discriminate.
  - intros status bodies r. unfold get_journal_entries.
    destruct (get_user_entries db uid skip lim from_date to_date tag_filter)
      as [entries|err] eqn:G; [|discriminate].
    apply get_user_entries_inv in G. subst entries.
    destruct (model_validate_all _) as [rs|] eqn:V; [|discriminate].
    intros H Hin. inversion H; subst.
    apply model_validate_all_inv in V. subst bodies.
    apply in_map_iff in Hin. destruct Hin as [e [<- He]].
    apply entries_page_In in He. simpl. tauto.
Qed.

End Handlers.


Lemma get_journal_entry_status_witness :
  pk_unique SampleHTTP.table /\ schema_ok_store SampleHTTP.table
  /\ SampleHTTP.looks_like_uuid "not-a-uuid" = false
  /\ get_journal_entry SampleHTTP.looks_like_uuid SampleHTTP.table
       "not-a-uuid" "alice"
     = Raises (mkHTTP 400 (Text "Invalid UUID format"))
  /\ SampleHTTP.looks_like_uuid SampleHTTP.id_own = true
  /\ get_journal_entry SampleHTTP.looks_like_uuid SampleHTTP.table
       SampleHTTP.id_own "alice"
     = Returns 200 (response_of SampleHTTP.own)
  /\ get_journal_entry SampleHTTP.looks_like_uuid SampleHTTP.table
       SampleHTTP.id_own "bob"
     = Raises (mkHTTP 404 (Text "Journal entry not found")).
Proof.
  destruct (get_journal_entry_status SampleHTTP.looks_like_uuid
              SampleHTTP.table "not-a-uuid" "alice"
              sample_http_pk sample_http_schema) as [Hbad _].
  destruct (get_journal_entry_status SampleHTTP.looks_like_uuid
              SampleHTTP.table SampleHTTP.id_own "alice"
              sample_http_pk sample_http_schema) as [_ Hown].
  destruct (get_journal_entry_status SampleHTTP.looks_like_uuid
              SampleHTTP.table SampleHTTP.id_own "bob"
              sample_http_pk sample_http_schema) as [_ Hother].
  split; [exact sample_http_pk|]. split; [exact sample_http_schema|].
  split; [reflexivity|]. split; [apply Hbad; reflexivity|].
  split; [reflexivity|]. split.
  - apply (proj1 (Hown eq_refl) SampleHTTP.own);
      [simpl; tauto | reflexivity | reflexivity].
  - apply (proj2 (Hother eq_refl)).
    intros row [<- | [<- | []]]; simpl; discriminate.
Defined.

Lemma update_journal_entry_status_witness :
  schema_ok_store SampleHTTP.table
  /\ SampleHTTP.looks_like_uuid SampleHTTP.id_own = true
  /\ get_entry SampleHTTP.table "alice" SampleHTTP.id_own
     = Ok (Some SampleHTTP.own)
  /\ valid_update (mkUpdate (Some None) None None None None None) = true
  /\ nulls_required (mkUpdate (Some None) None None None None None) = true
  /\ update_journal_entry SampleHTTP.looks_like_uuid SampleHTTP.table 500
       SampleHTTP.id_own (mkUpdate (Some None) None None None None None)
       "alice"
     = (SampleHTTP.table,
        Raises (mkHTTP 500
                  (Failed "Failed to update journal entry: "
                          (ServiceError IntegrityError)))).
Proof.
  split; [exact sample_http_schema|]. split; [reflexivity|].
  split; [reflexivity|]. split; [reflexivity|]. split; [reflexivity|].
  apply (update_journal_entry_status SampleHTTP.looks_like_uuid
           SampleHTTP.table 500 SampleHTTP.id_own "alice"
           (mkUpdate (Some None) None None None None None) SampleHTTP.own
           sample_http_schema eq_refl eq_refl eq_refl).
  reflexivity.
Defined.

Lemma delete_then_get_is_404_witness :
  delete_journal_entry SampleHTTP.looks_like_uuid SampleHTTP.table
    SampleHTTP.id_own "alice"
  = ([SampleHTTP.foreign], Returns 204 tt)
  /\ get_journal_entry SampleHTTP.looks_like_uuid [SampleHTTP.foreign]
       SampleHTTP.id_own "alice"
     = Raises (mkHTTP 404 (Text "Journal entry not found"))
  /\ delete_journal_entry SampleHTTP.looks_like_uuid [SampleHTTP.foreign]
       SampleHTTP.id_own "alice"
     = ([SampleHTTP.foreign],
        Raises (mkHTTP 404 (Text "Journal entry not found"))).
Proof.
  split; [reflexivity|].
  apply (delete_then_get_is_404 SampleHTTP.looks_like_uuid SampleHTTP.table
           [SampleHTTP.foreign] SampleHTTP.id_own "alice").
  reflexivity.
Defined.

Lemma create_then_get_journal_entry_witness :
  pk_unique SampleHTTP.table
  /\ id_in SampleHTTP.table SampleHTTP.id_new = false
  /\ valid_create Sample.request = true
  /\ SampleHTTP.looks_like_uuid SampleHTTP.id_new = true
  /\ exists db' r,
       create_journal_entry SampleHTTP.table SampleHTTP.id_new 400
         Sample.request "alice"
       = (db', Returns 201 r)
       /\ r_id r = SampleHTTP.id_new /\ r_user_id r = "alice"%string
       /\ r_title r = c_title Sample.request
       /\ r_content r = c_content Sample.request
       /\ r_entry_date r = c_entry_date Sample.request
       /\ get_journal_entry SampleHTTP.looks_like_uuid db' (r_id r) "alice"
          = Returns 200 r
       /\ (forall other,
             other <> "alice"%string ->
             get_journal_entry SampleHTTP.looks_like_uuid db' (r_id r) other
             = Raises (mkHTTP 404 (Text "Journal entry not found"))).
Proof.
  split; [exact sample_http_pk|]. split; [reflexivity|].
  split; [reflexivity|]. split; [reflexivity|].
  apply (create_then_get_journal_entry SampleHTTP.looks_like_uuid
           SampleHTTP.table SampleHTTP.id_new 400 Sample.request "alice"
           sample_http_pk eq_refl eq_refl eq_refl).
Defined.


Lemma handlers_return_only_own_entries_witness :
  get_journal_entry SampleHTTP.looks_like_uuid SampleHTTP.table
    SampleHTTP.id_own "alice"
  = Returns 200 (response_of SampleHTTP.own)
  /\ r_user_id (response_of SampleHTTP.own) = "alice"%string
  /\ r_id (response_of SampleHTTP.own) = SampleHTTP.id_own.
Proof.
  destruct (handlers_return_only_own_entries SampleHTTP.looks_like_uuid
              SampleHTTP.table 500 SampleHTTP.id_own "alice"%string no_fields
              0 100 None None None) as (Hget & _ & _).
  split; [reflexivity|].
  apply (Hget 200 (response_of SampleHTTP.own)). reflexivity.
Defined.

(** ** The pagination envelope and the assessment stub *)

Section Envelope.

Context {A : Type}.

Lemma length_skipn_pos n (l : list A) :
  (n < List.length l)%nat <-> skipn n l <> [].
Proof.
  revert l. induction n as [|n IH]; intros [|a l]; simpl.
  - split; [lia | congruence].
  - split; [congruence | lia].
  - split; [lia | congruence].
  - rewrite <- IH. lia.
Qed.

Lemma firstn_nonempty n (l : list A) :
  (0 < n)%nat -> (firstn n l <> [] <-> l <> []).
Proof.
  intros Hn. destruct n; [lia|]. destruct l; simpl; split; congruence.
Qed.

End Envelope.

(** X23.  For a page cut from a sequence of [total] items with
    [skip >= 0] and [limit >= 1], [PaginatedResponse.create] sets
    [has_next] exactly when the next page, the one that starts at
    [skip + limit], is not empty; it keeps the items and the numbers it was
    given. *)
Theorem has_next_iff_next_page
    {A : Type} (l : list A) (skip lim : Z) :
  0 <= skip -> 1 <= lim ->
  let page :=
    PaginatedResponse_create (slice skip lim l)
      (Z.of_nat (List.length l)) skip lim in
  (pr_has_next page = true <-> slice (skip + lim) lim l <> [])
  /\ pr_items page = slice skip lim l
  /\ pr_total page = Z.of_nat (List.length l)
  /\ pr_skip page = skip /\ pr_limit page = lim.
Proof.
  intros Hs Hl page. subst page. unfold PaginatedResponse_create.
  cbn [pr_has_next pr_items pr_total pr_skip pr_limit].
  split; [|repeat split].
  unfold slice. rewrite firstn_nonempty by lia.
  rewrite <- length_skipn_pos, Z.ltb_lt. lia.
Qed.

Lemma has_next_iff_next_page_witness :
  0 <= 0 /\ 1 <= 2
  /\ pr_has_next
       (PaginatedResponse_create (slice 0 2 [10; 20; 30]) 3 0 2) = true
  /\ slice (0 + 2) 2 [10; 20; 30] <> [].
Proof.
  destruct (has_next_iff_next_page [10; 20; 30] 0 2 ltac:(lia) ltac:(lia))
    as [Hiff _].
  split; [lia|]. split; [lia|]. split; [reflexivity|].
  apply Hiff. reflexivity.
Defined.

Section Assessment.

Lemma fold_left_add (xs : list Z) (a : Z) :
  fold_left Z.add xs a = a + fold_left Z.add xs 0.
Proof.
  revert a. induction xs as [|x xs IH]; intros a; simpl; [lia|].
  rewrite (IH (a + x)), (IH x). lia.
Qed.

Lemma py_sum_cons (x : Z) (xs : list Z) : py_sum (x :: xs) = x + py_sum xs.
Proof. unfold py_sum. simpl. apply fold_left_add. Qed.

Lemma py_sum_perm (xs ys : list Z) :
  Permutation xs ys -> py_sum xs = py_sum ys.
Proof.
  induction 1; rewrite ?py_sum_cons; lia.
Qed.

Lemma py_sum_bounds (xs : list Z) :
  Forall (fun v => response_value_ok v = true) xs ->
  0 <= py_sum xs <= 3 * Z.of_nat (List.length xs).
Proof.
  induction 1 as [|x xs Hx _ IH].
  - unfold py_sum. simpl. lia.
  - rewrite py_sum_cons. simpl List.length.
    unfold response_value_ok in Hx. apply andb_true_iff in Hx. lia.
Qed.

End Assessment.

(** X24.  The assessment stub scores by adding the answers up: the total
    does not depend on the order of the answers, and for answers within
    the schema's range 0..3 it lies between 0 and three times their
    number; the severity level is "mild" whatever the answers are. *)
Theorem submit_assessment_score
    (uid kind : string) (responses shuffled : list Z) :
  Permutation responses shuffled ->
  Forall (fun v => response_value_ok v = true) responses ->
  total_score (submit_assessment uid kind responses)
  = total_score (submit_assessment uid kind shuffled)
  /\ 0 <= total_score (submit_assessment uid kind responses)
     <= 3 * Z.of_nat (List.length responses)
  /\ severity_level (submit_assessment uid kind responses) = "mild"%string.
Proof.
  intros Hp Hok. unfold submit_assessment. cbn [total_score severity_level].
  split; [now apply py_sum_perm|]. split; [now apply py_sum_bounds|].
  reflexivity.
Qed.

Lemma submit_assessment_score_witness :
  Permutation [3; 0; 2] [0; 2; 3]
  /\ Forall (fun v => response_value_ok v = true) [3; 0; 2]
  /\ total_score (submit_assessment "alice" "phq-9" [3; 0; 2])
     = total_score (submit_assessment "alice" "phq-9" [0; 2; 3])
  /\ 0 <= total_score (submit_assessment "alice" "phq-9" [3; 0; 2])
     <= 3 * Z.of_nat (List.length [3; 0; 2])
  /\ severity_level (submit_assessment "alice" "phq-9" [3; 0; 2])
     = "mild"%string.
Proof.
  assert (Hp : Permutation [3; 0; 2] [0; 2; 3]).
  { apply perm_trans with [0; 3; 2]; [apply perm_swap|].
    apply perm_skip, perm_swap. }
  assert (Hok : Forall (fun v => response_value_ok v = true) [3; 0; 2])
    by (repeat constructor).
  split; [exact Hp|]. split; [exact Hok|].
  apply (submit_assessment_score "alice" "phq-9" [3; 0; 2] [0; 2; 3] Hp Hok).
Defined.

(** ** Writes seen through the listing *)

Section WritesAndListing.

Implicit Types (db : Store) (e row : JournalEntry) (uid eid : string).

Lemma filter_app_reject {A} (p : A -> bool) (l : list A) (x : A) :
  p x = false -> filter p (l ++ [x]) = filter p l.
Proof.
  intros H. rewrite filter_app. simpl. rewrite H. apply app_nil_r.
Qed.

Lemma filter_keep_all {A} (p q : A -> bool) (l : list A) :
  (forall x, In x l -> p x = true -> q x = true) ->
  filter p (filter q l) = filter p l.
Proof.
  induction l as [|a l IH]; intros H; simpl; [reflexivity|].
  assert (IH' : filter p (filter q l) = filter p l)
    by (apply IH; intros x Hx; apply H; now right).
  destruct (q a) eqn:Q; simpl.
  - now rewrite IH'.
  - destruct (p a) eqn:P; [|assumption].
    rewrite (H a (or_introl eq_refl) P) in Q. discriminate.
Qed.

Lemma execute_ext db db' (q : Select) :
  filter (satisfies (sel_where q)) db' = filter (satisfies (sel_where q)) db ->
  execute db' q = execute db q.
Proof. unfold execute. now intros ->. Qed.

Lemma entries_page_ext db db' uid S L from_date to_date tag_filter :
  filter (fun e => user_is uid e && in_range from_date to_date e
                   && tag_clause tag_filter e) db'
  = filter (fun e => user_is uid e && in_range from_date to_date e
                     && tag_clause tag_filter e) db ->
  entries_page db' uid S L from_date to_date tag_filter
  = entries_page db uid S L from_date to_date tag_filter.
Proof.
  intros H. rewrite !entries_page_unfold, !execute_entries_query.
  now rewrite H.
Qed.

Lemma existsb_filter {A} (p : A -> bool) (l : list A) :
  existsb p l = match filter p l with [] => false | _ :: _ => true end.
Proof.
  induction l as [|a l IH]; simpl; [reflexivity|].
  destruct (p a); [reflexivity | exact IH].
Qed.

Lemma filter_and {A} (p q : A -> bool) (l : list A) :
  filter (fun x => p x && q x) l = filter q (filter p l).
Proof.
  induction l as [|a l IH]; simpl; [reflexivity|].
  destruct (p a); simpl; [destruct (q a)|]; now rewrite IH.
Qed.

(** The listing of a user depends on that user's rows alone, errors
    included. *)
Lemma get_user_entries_ext db db' uid S L from_date to_date tag_filter :
  filter (fun e => user_is uid e && in_range from_date to_date e) db'
  = filter (fun e => user_is uid e && in_range from_date to_date e) db ->
  get_user_entries db' uid S L from_date to_date tag_filter
  = get_user_entries db uid S L from_date to_date tag_filter.
Proof.
  intros H. unfold get_user_entries, like_is_evaluated.
  rewrite !existsb_filter, H.
  change (execute db'
            (limit (offset (entries_query uid from_date to_date tag_filter)
                           S) L))
    with (entries_page db' uid S L from_date to_date tag_filter).
  rewrite (entries_page_ext db db'); [reflexivity|].
  rewrite (filter_and (fun e => user_is uid e && in_range from_date to_date e)
             (tag_clause tag_filter) db').
  rewrite (filter_and (fun e => user_is uid e && in_range from_date to_date e)
             (tag_clause tag_filter) db).
  now rewrite H.
Qed.

End WritesAndListing.

(** X25.  A create with a fresh identifier shows in the creator's
    listing and nowhere else: the new entry is in the creator's unfiltered
    listing, and every listing of every other user, with any filters and
    pagination, is what it was before. *)
Theorem create_then_list
    (db : Store) (new_id : string) (now : Z) (uid : string)
    (data : JournalEntryCreate) :
  id_in db new_id = false ->
  exists e,
    create_entry db new_id now uid data = (db ++ [e], Ok e)
    /\ In e (list_all (db ++ [e]) uid None None None)
    /\ (forall other S L from_date to_date tag_filter,
          other <> uid ->
          get_user_entries (db ++ [e]) other S L from_date to_date tag_filter
          = get_user_entries db other S L from_date to_date tag_filter).
Proof.
  intros Hfresh. unfold create_entry. rewrite Hfresh.
  eexists. split; [reflexivity|]. split.
  - apply list_all_In. split; [apply in_or_app; right; now left|].
    repeat split.
  - intros other S L from_date to_date tag_filter Hne.
    apply get_user_entries_ext. apply filter_app_reject.
    unfold user_is. simpl.
    assert (String.eqb uid other = false)
      by (apply String.eqb_neq; congruence).
    now rewrite H.
Qed.

Lemma create_then_list_witness :
  id_in Sample.db3 "e-4" = false
  /\ exists e,
       create_entry Sample.db3 "e-4" 400 "alice" Sample.request
       = (Sample.db3 ++ [e], Ok e)
       /\ In e (list_all (Sample.db3 ++ [e]) "alice" None None None)
       /\ (forall other S L from_date to_date tag_filter,
             other <> "alice"%string ->
             get_user_entries (Sample.db3 ++ [e]) other S L
               from_date to_date tag_filter
             = get_user_entries Sample.db3 other S L
                 from_date to_date tag_filter).
Proof.
  split; [reflexivity|].
  apply (create_then_list Sample.db3 "e-4" 400 "alice" Sample.request).
  reflexivity.
Defined.

(** X26.  After a delete that returned [True], no listing of any user
    holds an entry with the deleted id, and on a table with distinct
    identifiers every listing of every other user is what it was
    before. *)
Theorem delete_then_list (db db' : Store) (uid eid : string) :
  delete_entry db uid eid = (db', Ok true) ->
  (forall anyone S L from_date to_date tag_filter entries e,
     get_user_entries db' anyone S L from_date to_date tag_filter
     = Ok entries ->
     In e entries -> id e <> eid)
  /\ (pk_unique db ->
      forall other S L from_date to_date tag_filter,
        other <> uid ->
        get_user_entries db' other S L from_date to_date tag_filter
        = get_user_entries db other S L from_date to_date tag_filter).
Proof.
  unfold delete_entry.
  destruct (get_entry db uid eid) as [[entry|]|] eqn:G;
    intros H; inversion H; subst; clear H.
  destruct (get_entry_Some _ _ _ _ G) as (Hin & Hid & Hu).
  rewrite Hid. split.
  - intros anyone S L from_date to_date tag_filter entries e Hget He.
    apply get_user_entries_inv in Hget. subst entries.
    apply entries_page_In in He. destruct He as (He & _).
    apply delete_row_In in He. tauto.
  - intros Hpk other S L from_date to_date tag_filter Hne.
    apply get_user_entries_ext. unfold delete_row.
    apply filter_keep_all. intros x Hx Hp.
    apply negb_true_iff, String.eqb_neq. intros Hxid.
    assert (x = entry).
    { pose proof (filter_by_key db entry Hpk Hin) as F.
      assert (Hf : In x (filter (fun e => String.eqb (id e) (id entry)) db))
        by (apply filter_In; split;
            [assumption | apply String.eqb_eq; congruence]).
      rewrite F in Hf. destruct Hf as [<- | []]. reflexivity. }
    subst x. apply andb_true_iff in Hp. destruct Hp as [Hp _].
    apply String.eqb_eq in Hp. congruence.
Qed.

Lemma delete_then_list_witness :
  delete_entry Sample.db3 "alice" "e-1"
  = (delete_row Sample.db3 "e-1", Ok true)
  /\ pk_unique Sample.db3
  /\ get_user_entries (delete_row Sample.db3 "e-1") "bob" 0 100
       None None None
     = get_user_entries Sample.db3 "bob" 0 100 None None None.
Proof.
  destruct (delete_then_list Sample.db3 (delete_row Sample.db3 "e-1")
              "alice" "e-1" eq_refl) as [_ Hothers].
  split; [reflexivity|]. split; [exact sample_db3_pk|].
  apply Hothers; [exact sample_db3_pk | discriminate].
Defined.

(** X27.  The tag filter never misses a literal match: whatever
    characters other than NUL the non-empty filter contains, wildcards
    included, every entry of the user within the date bounds among whose
    tags, read up to their first NUL character if they have one, the
    characters of the filter occur one after the other is in the listing,
    and in what [get_user_entries] returns when it skips nothing, its
    limit reaches the end and the database accepts the pattern.  For a
    filter of ASCII characters that is: whose tags contain the filter
    character for character.  Tags without a NUL are read to their
    end. *)
Theorem tag_filter_never_misses
    (db : Store) (uid : string) (from_date to_date : option date)
    (t : string) (e : JournalEntry) :
  t <> EmptyString -> nul_free t = true ->
  In e db -> user_id e = uid ->
  within from_date to_date (entry_date e) ->
  reads_chars t e = true ->
  In e (list_all db uid from_date to_date (Some t))
  /\ (forall L,
        Z.of_nat (List.length db) <= L < 2 ^ 63 ->
        like_pattern_fits (Some t) = true ->
        exists entries,
          get_user_entries db uid 0 L from_date to_date (Some t)
          = Ok entries
          /\ In e entries)
  /\ (ascii_text t = true -> reads_chars t e = reads_tag t e)
  /\ ((forall s, tags e = Some s -> nul_free s = true) ->
      reads_tag t e = has_tag t e).
Proof.
  intros Hne Hn Hin Hu Hw Ht.
  assert (Hall : In e (list_all db uid from_date to_date (Some t))).
  { apply list_all_In.
    split; [assumption|]. split; [assumption|].
    split; [now apply in_range_within|].
    now apply tag_clause_exact. }
  split; [exact Hall|].
  split; [|split; [intros Ha; now apply reads_chars_ascii
                  | apply reads_tag_nul_free]].
  intros L HL Hp. eexists.
  split; [apply get_user_entries_Ok; (assumption || lia)|].
  rewrite entries_page_uncut; [exact Hall|].
  pose proof (list_all_length db uid from_date to_date (Some t)). lia.
Qed.

Lemma tag_filter_never_misses_witness :
  "50%"%string <> EmptyString
  /\ nul_free "50%" = true
  /\ reads_chars "50%"
       (mkEntry "e-7" 1 1 "alice" "t" "c" (mkdate 2024 1 5) None None
                (Some "sale,50% off"%string)) = true
  /\ In (mkEntry "e-7" 1 1 "alice" "t" "c" (mkdate 2024 1 5) None None
                 (Some "sale,50% off"%string))
        (list_all
           [mkEntry "e-7" 1 1 "alice" "t" "c" (mkdate 2024 1 5) None None
                    (Some "sale,50% off"%string)]
           "alice" None None (Some "50%"%string)).
Proof.
  split; [discriminate|]. split; [reflexivity|].
  split; [vm_compute; reflexivity|].
  apply (tag_filter_never_misses
           [mkEntry "e-7" 1 1 "alice" "t" "c" (mkdate 2024 1 5) None None
                    (Some "sale,50% off"%string)]
           "alice" None None "50%"
           (mkEntry "e-7" 1 1 "alice" "t" "c" (mkdate 2024 1 5) None None
                    (Some "sale,50% off"%string))).
  - discriminate.
  - reflexivity.
  - now left.
  - reflexivity.
  - split; intros D HD; discriminate.
  - vm_compute. reflexivity.
Defined.

(** Why the tags are read up to their first NUL: the tags "a", NUL, "work"
    contain "work", and the entry is not listed for it. *)
Example tag_behind_nul_is_missed :
  has_tag "work" Sample.after_nul = true
  /\ reads_tag "work" Sample.after_nul = false
  /\ get_user_entries [Sample.after_nul] "alice" 0 100 None None
       (Some "work"%string)
     = Ok [].
Proof. split; [|split]; vm_compute; reflexivity. Qed.

(** ** The dates of the trend points *)

Section TrendDates.

Lemma digit_inj (a b : Z) : digit a = digit b -> a mod 10 = b mod 10.
Proof.
  unfold digit. intros H.
  assert (Ha : 0 <= a mod 10 < 10) by (apply Z.mod_pos_bound; lia).
  assert (Hb : 0 <= b mod 10 < 10) by (apply Z.mod_pos_bound; lia).
  apply (f_equal nat_of_ascii) in H.
  rewrite !nat_ascii_embedding in H by lia. lia.
Qed.

(** The ISO format tells valid dates apart. *)
Lemma isoformat_inj (a b : date) :
  valid_date a -> valid_date b -> isoformat a = isoformat b -> a = b.
Proof.
  destruct a as [y m d], b as [y' m' d'].
  unfold valid_date, isoformat. cbn [year month day].
  intros (Hy & Hm & Hd) (Hy' & Hm' & Hd') H.
  assert (Hd31 : d <= 31).
  { unfold _days_in_month in Hd.
    months m; subst m; destruct (_is_leap y); cbn in Hd; lia. }
  assert (Hd31' : d' <= 31).
  { unfold _days_in_month in Hd'.
    months m'; subst m'; destruct (_is_leap y'); cbn in Hd'; lia. }
  inversion H as [[Y3 Y2 Y1 Y0 M1 M0 D1 D0]].
  apply digit_inj in Y3, Y2, Y1, Y0, M1, M0, D1, D0.
  assert (y = y') by euclid.
  assert (m = m') by euclid.
  assert (d = d') by euclid.
  congruence.
Qed.

Lemma sorted_dates_NoDup (l : list date) :
  StronglySorted date_lt l -> NoDup l.
Proof.
  induction 1 as [|a l _ IH Hall]; constructor; [|assumption].
  intros Hin. rewrite Forall_forall in Hall. specialize (Hall a Hin).
  unfold date_lt in Hall. rewrite date_ltb_irrefl in Hall. discriminate.
Qed.

End TrendDates.

(** X28.  On a table whose entry dates are valid calendar dates, and for
    any date from 0001-01-31 on, the trend has at most one point per date:
    the date strings of its points are pairwise distinct. *)
Theorem trend_dates_distinct (db : Store) (uid : string) (as_of : date) :
  (forall e, In e db -> valid_date (entry_date e)) ->
  valid_date as_of -> 30 < toordinal as_of ->
  exists st,
    get_user_stats db uid as_of = Ok st
    /\ NoDup (map tp_date (mood_trend st)).
Proof.
  intros Hdates Hv Ho.
  destruct (sub_days_defined as_of 30 Hv ltac:(lia)) as [since Hs].
  eexists. split; [apply (get_user_stats_Ok _ _ _ _ Hs)|].
  cbn [mood_trend]. rewrite map_map. cbn [trend_point tp_date].
  apply NoDup_map_NoDup_ForallPairs.
  - intros a b Ha Hb. apply isoformat_inj.
    + apply group_keys_In in Ha. destruct Ha as [e [Hin <-]].
      apply trend_rows_In in Hin. apply Hdates. tauto.
    + apply group_keys_In in Hb. destruct Hb as [e [Hin <-]].
      apply trend_rows_In in Hin. apply Hdates. tauto.
  - apply sorted_dates_NoDup, group_keys_sorted.
Qed.

Lemma sample_db4_dates :
  forall e, In e Sample.db4 -> valid_date (entry_date e).
Proof.
  intros e [<- | [<- | [<- | [<- | []]]]]; unfold valid_date; cbn; lia.
Qed.

Lemma trend_dates_distinct_witness :
  (forall e, In e Sample.db4 -> valid_date (entry_date e))
  /\ valid_date (mkdate 2024 1 31)
  /\ 30 < toordinal (mkdate 2024 1 31)
  /\ exists st,
       get_user_stats Sample.db4 "alice" (mkdate 2024 1 31) = Ok st
       /\ NoDup (map tp_date (mood_trend st)).
Proof.
  split; [exact sample_db4_dates|].
  split; [exact sample_as_of_valid|]. split; [reflexivity|].
  apply (trend_dates_distinct Sample.db4 "alice" (mkdate 2024 1 31)
           sample_db4_dates sample_as_of_valid eq_refl).
Defined.
